(** * QuranService and the README content services: a shallow embedding

    The embedded program is the JavaScript class [QuranService]
    (memory cache, persistent cache with TTL, network fetch, fallback,
    search, preloading) and the Dart content services of the README
    ([QuranService.getChapter], [QuranService.searchVerses],
    [HadithService.getHadith]).

    Host facilities are modelled as follows.
    - JS strings: Rocq [string] (8-bit characters); [toLowerCase] maps
      the letters A-Z only.
    - JS numbers: [Z] (chapter numbers, verse numbers, epoch
      milliseconds); numbers that are not integers are outside the model.
    - JSON documents: the inductive type [json]; [JSON.stringify] and
      [JSON.parse] are the printer and the parser below.
    - [Map]: an association list in insertion order.
    - [localStorage]: a [gmap string string] together with a fault
      predicate that says which backend operations raise.
    - [Date.now()]: a field of the world, constant during one call.
    - [fetch]: an oracle from URLs to responses. *)

From Stdlib Require Import ZArith Ascii String List Bool Lia.
From Stdlib Require Import DecimalString DecimalN DecimalFacts.
From stdpp Require Import base option list gmap strings fin_maps.

Local Open Scope string_scope.
Local Open Scope Z_scope.

(** ** Strings *)

Module Str.

Definition is_digit (c : ascii) : bool :=
  let n := nat_of_ascii c in (48 <=? n)%nat && (n <=? 57)%nat.

Definition is_ws (c : ascii) : bool :=
  match nat_of_ascii c with
  | 9%nat | 10%nat | 13%nat | 32%nat => true
  | _ => false
  end.

(** [String.prototype.startsWith] *)
Fixpoint startsWith (s p : string) : bool :=
  match p, s with
  | EmptyString, _ => true
  | String c p', String d s' => if Ascii.eqb c d then startsWith s' p' else false
  | String _ _, EmptyString => false
  end.

(** [String.prototype.includes] *)
Fixpoint includes (s needle : string) : bool :=
  startsWith s needle ||
  match s with
  | EmptyString => false
  | String _ s' => includes s' needle
  end.

Definition lower_char (c : ascii) : ascii :=
  let n := nat_of_ascii c in
  if (65 <=? n)%nat && (n <=? 90)%nat then ascii_of_nat (n + 32) else c.

(** [String.prototype.toLowerCase] on the letters A-Z *)
Fixpoint toLowerCase (s : string) : string :=
  match s with
  | EmptyString => EmptyString
  | String c s' => String (lower_char c) (toLowerCase s')
  end.

(** [String.prototype.padStart(n, '0')] and Dart's [padLeft] *)
Definition padStart (n : nat) (pad : ascii) (s : string) : string :=
  string_of_list_ascii (repeat pad (n - String.length s)%nat) +:+ s.

(** Decimal rendering of a natural number, as in a template literal. *)
Definition of_N (n : N) : string := NilEmpty.string_of_uint (N.to_uint n).

(** Decimal rendering of an integer, as in a template literal. *)
Definition of_Z (z : Z) : string :=
  if z <? 0 then String "-" (of_N (Z.to_N (- z))) else of_N (Z.to_N z).

(** [String.prototype.split(sep)] for a separator of one character *)
Fixpoint split (sep : ascii) (s : string) : list string :=
  match s with
  | EmptyString => [EmptyString]
  | String c s' =>
      if Ascii.eqb c sep then EmptyString :: split sep s'
      else
        match split sep s' with
        | part :: parts => String c part :: parts
        | [] => [String c EmptyString]
        end
  end.

End Str.

(** ** JSON documents *)

#[local] Unset Elimination Schemes.
Inductive json : Type :=
| JNull
| JBool (b : bool)
| JNum (z : Z)
| JStr (s : string)
| JArr (l : list json)
| JObj (l : list (string * json)).
#[local] Set Elimination Schemes.

(** A JavaScript value that may also be [undefined]. *)
Inductive jsval : Type :=
| undefined
| J (v : json).

Module Json.

(** Property access [o.k] / [o[k]]: the last binding of the key wins, as
    for an object parsed from text with a repeated key. [None] is
    [undefined]. *)
Fixpoint field (k : string) (l : list (string * json)) : option json :=
  match l with
  | [] => None
  | (k', v) :: l' =>
      match field k l' with
      | Some w => Some w
      | None => if String.eqb k k' then Some v else None
      end
  end.

(** JavaScript truthiness of a JSON value. *)
Definition truthy (v : json) : bool :=
  match v with
  | JNull => false
  | JBool b => b
  | JNum z => negb (z =? 0)
  | JStr s => negb (String.eqb s "")
  | JArr _ | JObj _ => true
  end.

Definition truthy_val (v : jsval) : bool :=
  match v with
  | undefined => false
  | J v => truthy v
  end.

Section Printer.

Definition hex_digit (n : nat) : ascii :=
  if (n <? 10)%nat then ascii_of_nat (48 + n) else ascii_of_nat (87 + n).

Definition escape_char (c : ascii) : string :=
  let n := nat_of_ascii c in
  match n with
  | 34%nat => String "\" (String "034" "")
  | 92%nat => "\\"
  | 8%nat => "\b"
  | 12%nat => "\f"
  | 10%nat => "\n"
  | 13%nat => "\r"
  | 9%nat => "\t"
  | _ =>
      if (n <? 32)%nat
      then "\u00" +:+ String (hex_digit (n / 16)) (String (hex_digit (n mod 16)) "")
      else String c ""
  end.

Fixpoint escape (s : string) : string :=
  match s with
  | EmptyString => EmptyString
  | String c s' => escape_char c +:+ escape s'
  end.

Definition quote (s : string) : string :=
  String "034" (escape s +:+ String "034" "").

(** [JSON.stringify] without indentation. *)
Fixpoint stringify (v : json) : string :=
  match v with
  | JNull => "null"
  | JBool true => "true"
  | JBool false => "false"
  | JNum z => Str.of_Z z
  | JStr s => quote s
  | JArr l =>
      String "["
        ((fix elems (l : list json) : string :=
            match l with
            | [] => "]"
            | x :: l' =>
                stringify x +:+
                match l' with
                | [] => "]"
                | _ :: _ => String "," (elems l')
                end
            end) l)
  | JObj l =>
      String "{"
        ((fix members (l : list (string * json)) : string :=
            match l with
            | [] => "}"
            | (k, x) :: l' =>
                quote k +:+ String ":" (stringify x +:+
                match l' with
                | [] => "}"
                | _ :: _ => String "," (members l')
                end)
            end) l)
  end.

(** The two local loops of [stringify], under their own names. *)
Definition print_elems (l : list json) : string :=
  (fix elems (l : list json) : string :=
     match l with
     | [] => "]"
     | x :: l' =>
         stringify x +:+
         match l' with
         | [] => "]"
         | _ :: _ => String "," (elems l')
         end
     end) l.

Definition print_members (l : list (string * json)) : string :=
  (fix members (l : list (string * json)) : string :=
     match l with
     | [] => "}"
     | (k, x) :: l' =>
         quote k +:+ String ":" (stringify x +:+
         match l' with
         | [] => "}"
         | _ :: _ => String "," (members l')
         end)
     end) l.

End Printer.

Section Parser.

Fixpoint skip_ws (s : string) : string :=
  match s with
  | String c s' => if Str.is_ws c then skip_ws s' else s
  | EmptyString => s
  end.

Fixpoint span_digits (s : string) : string * string :=
  match s with
  | String c s' =>
      if Str.is_digit c
      then let '(ds, r) := span_digits s' in (String c ds, r)
      else (EmptyString, s)
  | EmptyString => (EmptyString, EmptyString)
  end.

(** A fraction or an exponent follows the digits. *)
Definition starts_fraction (s : string) : bool :=
  match s with
  | String c _ =>
      Ascii.eqb c "." || Ascii.eqb c "e" || Ascii.eqb c "E"
  | EmptyString => false
  end.

(** An unsigned integer literal: no leading zero except for [0]. *)
Definition parse_nat (s : string) : option (N * string) :=
  let '(ds, r) := span_digits s in
  match ds with
  | EmptyString => None
  | String "0" (String _ _) => None
  | _ =>
      if starts_fraction r then None
      else match NilEmpty.uint_of_string ds with
           | Some d => Some (N.of_uint d, r)
           | None => None
           end
  end.

Definition parse_number (s : string) : option (Z * string) :=
  match s with
  | String "-" s' =>
      match parse_nat s' with
      | Some (n, r) => Some (- Z.of_N n, r)
      | None => None
      end
  | _ =>
      match parse_nat s with
      | Some (n, r) => Some (Z.of_N n, r)
      | None => None
      end
  end.

Definition hex_value (c : ascii) : option nat :=
  let n := nat_of_ascii c in
  if (48 <=? n)%nat && (n <=? 57)%nat then Some (n - 48)%nat
  else if (97 <=? n)%nat && (n <=? 102)%nat then Some (n - 87)%nat
  else if (65 <=? n)%nat && (n <=? 70)%nat then Some (n - 55)%nat
  else None.

(** The code unit of [\uXXXX]; code units above 255 are outside the
    model's strings. *)
Definition unicode_escape (a b c d : ascii) : option ascii :=
  match hex_value a, hex_value b, hex_value c, hex_value d with
  | Some 0%nat, Some 0%nat, Some x, Some y => Some (ascii_of_nat (16 * x + y))
  | _, _, _, _ => None
  end.

(** The characters of a string literal after the opening quote, up to
    and including the closing quote. *)
Fixpoint parse_chars (s : string) : option (string * string) :=
  match s with
  | EmptyString => None
  | String "034" r => Some (EmptyString, r)
  | String "\" (String e r) =>
      let continue (c : ascii) (r : string) :=
        match parse_chars r with
        | Some (t, r') => Some (String c t, r')
        | None => None
        end in
      match e with
      | "034"%char => continue "034"%char r
      | "\"%char => continue "\"%char r
      | "/"%char => continue "/"%char r
      | "b"%char => continue (ascii_of_nat 8) r
      | "f"%char => continue (ascii_of_nat 12) r
      | "n"%char => continue (ascii_of_nat 10) r
      | "r"%char => continue (ascii_of_nat 13) r
      | "t"%char => continue (ascii_of_nat 9) r
      | "u"%char =>
          match r with
          | String a (String b (String c (String d r'))) =>
              match unicode_escape a b c d with
              | Some x => continue x r'
              | None => None
              end
          | _ => None
          end
      | _ => None
      end
  | String "\" EmptyString => None
  | String c r =>
      if (nat_of_ascii c <? 32)%nat then None
      else match parse_chars r with
           | Some (t, r') => Some (String c t, r')
           | None => None
           end
  end.

(** Recursive descent, with fuel bounding the number of nested calls. *)
Fixpoint parse_value (fuel : nat) (s : string) : option (json * string) :=
  match fuel with
  | O => None
  | S fuel =>
      match skip_ws s with
      | String "n" (String "u" (String "l" (String "l" r))) => Some (JNull, r)
      | String "t" (String "r" (String "u" (String "e" r))) => Some (JBool true, r)
      | String "f" (String "a" (String "l" (String "s" (String "e" r)))) =>
          Some (JBool false, r)
      | String "034" r =>
          match parse_chars r with
          | Some (t, r') => Some (JStr t, r')
          | None => None
          end
      | String "[" r =>
          match skip_ws r with
          | String "]" r' => Some (JArr [], r')
          | _ =>
              match parse_elems fuel r with
              | Some (l, r') => Some (JArr l, r')
              | None => None
              end
          end
      | String "{" r =>
          match skip_ws r with
          | String "}" r' => Some (JObj [], r')
          | _ =>
              match parse_members fuel r with
              | Some (l, r') => Some (JObj l, r')
              | None => None
              end
          end
      | s' =>
          match parse_number s' with
          | Some (z, r) => Some (JNum z, r)
          | None => None
          end
      end
  end

with parse_elems (fuel : nat) (s : string) : option (list json * string) :=
  match fuel with
  | O => None
  | S fuel =>
      match parse_value fuel s with
      | Some (v, r) =>
          match skip_ws r with
          | String "," r' =>
              match parse_elems fuel r' with
              | Some (l, r'') => Some (v :: l, r'')
              | None => None
              end
          | String "]" r' => Some ([v], r')
          | _ => None
          end
      | None => None
      end
  end

with parse_members (fuel : nat) (s : string)
  : option (list (string * json) * string) :=
  match fuel with
  | O => None
  | S fuel =>
      match skip_ws s with
      | String "034" r =>
          match parse_chars r with
          | Some (k, r1) =>
              match skip_ws r1 with
              | String ":" r2 =>
                  match parse_value fuel r2 with
                  | Some (v, r3) =>
                      match skip_ws r3 with
                      | String "," r4 =>
                          match parse_members fuel r4 with
                          | Some (l, r5) => Some ((k, v) :: l, r5)
                          | None => None
                          end
                      | String "}" r4 => Some ([(k, v)], r4)
                      | _ => None
                      end
                  | None => None
                  end
              | _ => None
              end
          | None => None
          end
      | _ => None
      end
  end.

(** [JSON.parse]: one value, then only white space. [None] is a
    [SyntaxError]. *)
Definition parse (s : string) : option json :=
  match parse_value (S (String.length s)) s with
  | Some (v, r) =>
      match skip_ws r with
      | EmptyString => Some v
      | _ => None
      end
  | None => None
  end.

End Parser.

End Json.

(** ** Errors, responses and the world *)

(** What the code throws. [Error msg] is [new Error(msg)] in JavaScript
    and [Exception(msg)] in Dart; [TypeError] also stands for Dart's
    [NoSuchMethodError] and for a rejected [fetch]; [SyntaxError] for a
    body or item that is not JSON ([FormatException] in Dart);
    [StorageError] is raised by the storage backend. *)
Inductive error : Type :=
| Error (msg : string)
| TypeError (msg : string)
| SyntaxError
| StorageError.

Inductive outcome (A : Type) : Type :=
| Returned (a : A)
| Thrown (e : error).
Arguments Returned {A} a.
Arguments Thrown {A} e.

(** What [fetch(url)] settles to: a rejection, or a response with a
    status and a body. *)
Inductive response : Type :=
| NetFail
| Resp (status : Z) (body : string).

Inductive storage_op : Type :=
| OpGet (k : string)
| OpSet (k : string)
| OpRemove (k : string)
| OpKeys.

Inductive event : Type :=
| CacheRead (k : string)
| CacheScan
| CacheWrite (k : string)
| CacheReset
| StorageGet (k : string)
| StorageSet (k : string)
| StorageRemove (k : string)
| StorageKeys
| Fetch (url : string).

Inductive level : Type := LLog | LWarn | LError.

Record world : Type := World {
  cache : list (string * jsval);      (* this.cache, in insertion order *)
  index : jsval;                      (* this.index *)
  storage : gmap string string;       (* the items of this.storage *)
  raises : storage_op -> bool;        (* backend operations that raise *)
  net : string -> response;           (* what a fetch of a URL settles to *)
  now : Z;                            (* Date.now() *)
  trace : list event;                 (* I/O so far, oldest first *)
  console : list (level * string)     (* console output, oldest first *)
}.

Module W.

Definition set_cache (f : list (string * jsval) -> list (string * jsval)) (w : world) :=
  World (f (cache w)) (index w) (storage w) (raises w) (net w) (now w) (trace w) (console w).
Definition set_index (v : jsval) (w : world) :=
  World (cache w) v (storage w) (raises w) (net w) (now w) (trace w) (console w).
Definition set_storage (f : gmap string string -> gmap string string) (w : world) :=
  World (cache w) (index w) (f (storage w)) (raises w) (net w) (now w) (trace w) (console w).
Definition set_now (t : Z) (w : world) :=
  World (cache w) (index w) (storage w) (raises w) (net w) t (trace w) (console w).
Definition emit (e : event) (w : world) :=
  World (cache w) (index w) (storage w) (raises w) (net w) (now w) (trace w ++ [e]) (console w).
Definition print (l : level) (msg : string) (w : world) :=
  World (cache w) (index w) (storage w) (raises w) (net w) (now w) (trace w)
        (console w ++ [(l, msg)]).

(** [Map.prototype.get]: [undefined] for an absent key. *)
Fixpoint map_get (k : string) (m : list (string * jsval)) : jsval :=
  match m with
  | [] => undefined
  | (k', v) :: m' => if String.eqb k k' then v else map_get k m'
  end.

Fixpoint map_has (k : string) (m : list (string * jsval)) : bool :=
  match m with
  | [] => false
  | (k', _) :: m' => String.eqb k k' || map_has k m'
  end.

(** [Map.prototype.set]: a present key keeps its position. *)
Fixpoint map_set (k : string) (v : jsval) (m : list (string * jsval))
  : list (string * jsval) :=
  match m with
  | [] => [(k, v)]
  | (k', v') :: m' =>
      if String.eqb k k' then (k, v) :: m' else (k', v') :: map_set k v m'
  end.

End W.

(** ** Programs: one asynchronous call chain *)

(** The effects of the code on its host. Storage operations report a
    raised error as a value, so that [try]/[catch] is a function on
    programs. *)
Inductive eff : Type -> Type :=
| CacheHas (k : string) : eff bool
| CacheGet (k : string) : eff jsval
| CacheSet (k : string) (v : jsval) : eff unit
| CacheClear : eff unit
| CacheEntries : eff (list (string * jsval))
| GetIndex : eff jsval
| SetIndex (v : jsval) : eff unit
| GetItem (k : string) : eff (outcome (option string))
| SetItem (k v : string) : eff (outcome unit)
| RemoveItem (k : string) : eff (outcome unit)
| Keys : eff (outcome (list string))
| Now : eff Z
| FetchUrl (url : string) : eff response
| Console (l : level) (msg : string) : eff unit.

Inductive prog (A : Type) : Type :=
| Ret (a : A)
| Throw (e : error)
| Vis {X : Type} (e : eff X) (k : X -> prog A).
Arguments Ret {A} a.
Arguments Throw {A} e.
Arguments Vis {A X} e k.

Module Prog.

Fixpoint bind {A B} (p : prog A) (f : A -> prog B) : prog B :=
  match p with
  | Ret a => f a
  | Throw e => Throw e
  | Vis e k => Vis e (fun x => bind (k x) f)
  end.

(** [try { p } catch (error) { h error }] *)
Fixpoint try_catch {A} (p : prog A) (h : error -> prog A) : prog A :=
  match p with
  | Ret a => Ret a
  | Throw e => h e
  | Vis e k => Vis e (fun x => try_catch (k x) h)
  end.

Definition perform {X} (e : eff X) : prog X := Vis e Ret.

(** A host operation that may raise. *)
Definition attempt {X} (e : eff (outcome X)) : prog X :=
  Vis e (fun o => match o with Returned x => Ret x | Thrown err => Throw err end).

Definition lift {A} (o : outcome A) : prog A :=
  match o with
  | Returned a => Ret a
  | Thrown e => Throw e
  end.

(** [for (const x of l) { f x }] *)
Fixpoint for_each {X} (l : list X) (f : X -> prog unit) : prog unit :=
  match l with
  | [] => Ret tt
  | x :: l' => bind (f x) (fun _ => for_each l' f)
  end.

(** The host's answer to one effect. *)
Definition handle {X} (e : eff X) (w : world) : X * world :=
  match e in eff X return X * world with
  | CacheHas k => (W.map_has k (cache w), W.emit (CacheRead k) w)
  | CacheGet k => (W.map_get k (cache w), W.emit (CacheRead k) w)
  | CacheSet k v => (tt, W.emit (CacheWrite k) (W.set_cache (W.map_set k v) w))
  | CacheClear => (tt, W.emit CacheReset (W.set_cache (fun _ => []) w))
  | CacheEntries => (cache w, W.emit CacheScan w)
  | GetIndex => (index w, w)
  | SetIndex v => (tt, W.set_index v w)
  | GetItem k =>
      if raises w (OpGet k) then (Thrown StorageError, W.emit (StorageGet k) w)
      else (Returned (storage w !! k), W.emit (StorageGet k) w)
  | SetItem k v =>
      if raises w (OpSet k) then (Thrown StorageError, W.emit (StorageSet k) w)
      else (Returned tt, W.emit (StorageSet k) (W.set_storage (insert k v) w))
  | RemoveItem k =>
      if raises w (OpRemove k) then (Thrown StorageError, W.emit (StorageRemove k) w)
      else (Returned tt, W.emit (StorageRemove k) (W.set_storage (delete k) w))
  | Keys =>
      if raises w OpKeys then (Thrown StorageError, W.emit StorageKeys w)
      else (Returned (map fst (map_to_list (storage w))), W.emit StorageKeys w)
  | Now => (now w, w)
  | FetchUrl url => (net w url, W.emit (Fetch url) w)
  | Console l msg => (tt, W.print l msg w)
  end.

(** Running a call chain to its end; every awaited operation settles
    at once. *)
Fixpoint exec {A} (p : prog A) (w : world) : outcome A * world :=
  match p with
  | Ret a => (Returned a, w)
  | Throw e => (Thrown e, w)
  | Vis e k => let '(x, w') := handle e w in exec (k x) w'
  end.

End Prog.

Notation "'let*' x ':=' p 'in' k" := (Prog.bind p (fun x => k))
  (at level 10, x name, p at level 100, k at level 200).
Notation "p ';;;' k" := (Prog.bind p (fun _ => k))
  (at level 100, k at level 200, right associativity).

(** ** JavaScript operators on documents *)

Module Js.

(** [v.k] and [v[k]] for the property names the code reads; none of
    them is a property of a string, a number, a boolean or an array. *)
Definition get_prop (v : jsval) (k : string) : outcome jsval :=
  match v with
  | undefined => Thrown (TypeError "Cannot read properties of undefined")
  | J JNull => Thrown (TypeError "Cannot read properties of null")
  | J (JObj l) =>
      match Json.field k l with
      | Some x => Returned (J x)
      | None => Returned undefined
      end
  | J _ => Returned undefined
  end.

(** [v?.[k]] *)
Definition get_prop_opt (v : jsval) (k : string) : jsval :=
  match get_prop v k with
  | Returned x => x
  | Thrown _ => undefined
  end.

(** The values a [for ... of] loop visits: the elements of an array,
    the characters of a string. *)
Definition iterate (v : jsval) : outcome (list jsval) :=
  match v with
  | J (JArr l) => Returned (map J l)
  | J (JStr s) => Returned (map (fun c => J (JStr (String c ""))) (list_ascii_of_string s))
  | _ => Thrown (TypeError "is not iterable")
  end.

(** [StrWhiteSpaceChar], among the characters below 256. *)
Definition is_space (c : ascii) : bool :=
  let n := nat_of_ascii c in
  ((9 <=? n)%nat && (n <=? 13)%nat) || (n =? 32)%nat || (n =? 160)%nat.

Fixpoint trim_start (s : string) : string :=
  match s with
  | String c s' => if is_space c then trim_start s' else s
  | EmptyString => s
  end.

Fixpoint trim_end (s : string) : string :=
  match s with
  | EmptyString => EmptyString
  | String c s' =>
      match trim_end s' with
      | EmptyString => if is_space c then EmptyString else String c EmptyString
      | t => String c t
      end
  end.

(** The value of a string of digits of the base, most significant
    digit first. *)
Fixpoint digits_value (base : N) (s : string) (acc : N) : option N :=
  match s with
  | EmptyString => Some acc
  | String c s' =>
      match Json.hex_value c with
      | Some d =>
          if (N.of_nat d <? base)%N
          then digits_value base s' (acc * base + N.of_nat d)%N
          else None
      | None => None
      end
  end.

(** [0x], [0o] and [0b] literals. *)
Definition radix_literal (s : string) : option N :=
  match s with
  | String "0" (String x (String c ds)) =>
      if Ascii.eqb x "x" || Ascii.eqb x "X" then digits_value 16 (String c ds) 0
      else if Ascii.eqb x "o" || Ascii.eqb x "O" then digits_value 8 (String c ds) 0
      else if Ascii.eqb x "b" || Ascii.eqb x "B" then digits_value 2 (String c ds) 0
      else None
  | _ => None
  end.

(** The value of a string of decimal digits. *)
Definition decimal_value (ds : string) : N :=
  match NilEmpty.uint_of_string ds with
  | Some d => N.of_uint d
  | None => 0
  end.

(** [ExponentPart], or nothing: the exponent. *)
Definition exponent_part (s : string) : option Z :=
  match s with
  | EmptyString => Some 0
  | String e r =>
      if Ascii.eqb e "e" || Ascii.eqb e "E"
      then
        let '(negative, ds) :=
          match r with
          | String "-" r' => (true, r')
          | String "+" r' => (false, r')
          | _ => (false, r)
          end in
        match Json.span_digits ds with
        | (String c ds', EmptyString) =>
            let n := Z.of_N (decimal_value (String c ds')) in
            Some (if negative : bool then - n else n)
        | _ => None
        end
      else None
  end.

(** [StrUnsignedDecimalLiteral] with an integer as its value: digits,
    a fraction and an exponent. A literal whose value is not an integer,
    and [Infinity], have no value here. *)
Definition decimal_literal (s : string) : option Z :=
  let '(ip, r1) := Json.span_digits s in
  let '(fp, r2) :=
    match r1 with
    | String "." r => Json.span_digits r
    | _ => (EmptyString, r1)
    end in
  match ip, fp with
  | EmptyString, EmptyString => None
  | _, _ =>
      match exponent_part r2 with
      | None => None
      | Some e =>
          let m := Z.of_N (decimal_value (ip +:+ fp)) in
          let shift := e - Z.of_nat (String.length fp) in
          if m =? 0 then Some 0
          else if 0 <=? shift then Some (m * 10 ^ shift)
          else if m mod 10 ^ (- shift) =? 0 then Some (m / 10 ^ (- shift))
          else None
      end
  end.

(** [StringToNumber]: [None] is [NaN]. *)
Definition string_to_number (s : string) : option Z :=
  match trim_end (trim_start s) with
  | EmptyString => Some 0
  | String "-" r => option_map Z.opp (decimal_literal r)
  | String "+" r => decimal_literal r
  | t =>
      match radix_literal t with
      | Some n => Some (Z.of_N n)
      | None => decimal_literal t
      end
  end.

(** [ToNumber], as in [Date.now() > parsed.expires] and
    [Number(part)]; [None] is [NaN]. A string is read as a numeric
    literal, an array by way of its string, which is a numeric literal
    only for an array of at most one element. Numbers that are not
    integers, and the infinities, are outside the numbers of this
    development: a string that denotes one is taken as [NaN]. *)
Fixpoint to_number (v : json) : option Z :=
  match v with
  | JNull => Some 0
  | JBool b => Some (if b then 1 else 0)
  | JNum z => Some z
  | JStr s => string_to_number s
  | JArr [] => Some 0
  | JArr [x] =>
      match x with
      | JBool _ | JObj _ => None
      | _ => to_number x
      end
  | JArr _ => None
  | JObj _ => None
  end.

(** [n > v] for a number [n]. *)
Definition gt (n : Z) (v : json) : bool :=
  match to_number v with
  | Some z => n >? z
  | None => false
  end.

(** [response.ok] *)
Definition ok (status : Z) : bool := (200 <=? status) && (status <=? 299).

End Js.

(** ** Tasks: calls that are started and not awaited *)

(** [Call p k] awaits the call chain [p]; [Fork t k] calls the async
    function [t] and drops its promise; [AllSettled ps k] starts the
    calls [ps] in order and awaits [Promise.allSettled]; [SetTimeout ms
    cb k] registers a timer. *)
Inductive task (A : Type) : Type :=
| TRet (a : A)
| TThrow (e : error)
| Call {X : Type} (p : prog X) (k : outcome X -> task A)
| Fork (t : task unit) (k : task A)
| AllSettled (ps : list (prog jsval)) (k : list (outcome jsval) -> task A)
| SetTimeout (ms : Z) (cb : task unit) (k : task A).
Arguments TRet {A} a.
Arguments TThrow {A} e.
Arguments Call {A X} p k.
Arguments Fork {A} t k.
Arguments AllSettled {A} ps k.
Arguments SetTimeout {A} ms cb k.

(** A call chain that has been started: settled, or waiting for the
    response to a request it has sent. *)
Inductive pstate (A : Type) : Type :=
| Done (o : outcome A)
| Waiting (url : string) (k : response -> prog A).
Arguments Done {A} o.
Arguments Waiting {A} url k.

(** A task that has been started. *)
Inductive tstate (A : Type) : Type :=
| TDone (o : outcome A)
| InCall {X : Type} (url : string) (k : response -> prog X) (rest : outcome X -> task A)
| InAll (children : list (pstate jsval)) (rest : list (outcome jsval) -> task A).
Arguments TDone {A} o.
Arguments InCall {A X} url k rest.
Arguments InAll {A} children rest.

(** The event loop: the host, the tasks whose promise nobody awaits,
    and the timers with the time they are due. *)
Record machine : Type := Machine {
  host : world;
  background : list (tstate unit);
  timers : list (Z * task unit)
}.

Module Loop.

Import Prog.

Definition with_host (w : world) (m : machine) : machine :=
  Machine w (background m) (timers m).
Definition add_background (s : tstate unit) (m : machine) : machine :=
  Machine (host m) (background m ++ [s]) (timers m).
Definition add_timer (due : Z) (cb : task unit) (m : machine) : machine :=
  Machine (host m) (background m) (timers m ++ [(due, cb)]).

(** [await t] followed by [f], where [f] also sees a rejection: the
    sequencing of tasks and [try]/[catch] around an awaited task. *)
Fixpoint tbind {A B} (t : task A) (f : outcome A -> task B) : task B :=
  match t with
  | TRet a => f (Returned a)
  | TThrow e => f (Thrown e)
  | Call p k => Call p (fun o => tbind (k o) f)
  | Fork t' k => Fork t' (tbind k f)
  | AllSettled ps k => AllSettled ps (fun r => tbind (k r) f)
  | SetTimeout ms cb k => SetTimeout ms cb (tbind k f)
  end.

(** A request is the one effect that does not settle in the same
    turn of the loop. *)
Definition as_request {X} (e : eff X) : option (string * (response -> X)) :=
  match e in eff X return option (string * (response -> X)) with
  | FetchUrl url => Some (url, fun r => r)
  | _ => None
  end.

(** Runs a call chain up to its first request (which is sent) or to
    its end. *)
Fixpoint start {A} (p : prog A) (w : world) : pstate A * world :=
  match p with
  | Ret a => (Done (Returned a), w)
  | Throw e => (Done (Thrown e), w)
  | Vis e k =>
      match as_request e with
      | Some (url, c) => (Waiting url (fun r => k (c r)), W.emit (Fetch url) w)
      | None => let '(x, w') := handle e w in start (k x) w'
      end
  end.

(** The response arrives: the chain goes on to its next request or to
    its end. *)
Definition deliver {A} (s : pstate A) (w : world) : pstate A * world :=
  match s with
  | Done _ => (s, w)
  | Waiting url k => start (k (net w url)) w
  end.

Fixpoint start_all (ps : list (prog jsval)) (w : world)
  : list (pstate jsval) * world :=
  match ps with
  | [] => ([], w)
  | p :: ps' =>
      let '(s, w') := start p w in
      let '(ss, w'') := start_all ps' w' in
      (s :: ss, w'')
  end.

(** The outcomes of the calls once all have settled. *)
Fixpoint all_done (ss : list (pstate jsval)) : option (list (outcome jsval)) :=
  match ss with
  | [] => Some []
  | Done o :: ss' =>
      match all_done ss' with
      | Some os => Some (o :: os)
      | None => None
      end
  | Waiting _ _ :: _ => None
  end.

(** Runs a task until it ends or has to wait. *)
Fixpoint run {A} (t : task A) (m : machine) : tstate A * machine :=
  match t with
  | TRet a => (TDone (Returned a), m)
  | TThrow e => (TDone (Thrown e), m)
  | Call p k =>
      match start p (host m) with
      | (Done o, w) => run (k o) (with_host w m)
      | (Waiting url c, w) => (InCall url c k, with_host w m)
      end
  | Fork t' k =>
      let '(s, m') := run t' m in run k (add_background s m')
  | AllSettled ps k =>
      let '(ss, w) := start_all ps (host m) in
      match all_done ss with
      | Some os => run (k os) (with_host w m)
      | None => (InAll ss k, with_host w m)
      end
  | SetTimeout ms cb k => run k (add_timer (now (host m) + ms) cb m)
  end.



(** The requests sent so far. *)
Definition requests (tr : list event) : list string :=
  omap (fun e => match e with Fetch url => Some url | _ => None end) tr.



End Loop.

(** ** The JavaScript class QuranService *)

Record config : Type := Config {
  baseUrl : string;
  offlineFirst : bool;
  essential : list Z;      (* this.loadingPriority[1] *)
  popular : list Z         (* this.loadingPriority[2] *)
}.

(** One element of the array [searchVerses] returns. *)
Record verse_match : Type := VerseMatch {
  m_chapter : jsval;
  m_verse : jsval;
  m_arabic : jsval;
  m_translation : string;
  m_transliteration : jsval
}.

Record search_options : Type := SearchOptions {
  language : string;
  translation : string;
  limit : Z
}.

Module QuranService.

Import Prog.

(** The constructor's defaults. *)
Definition default_config : config :=
  Config "https://cdn.jsdelivr.net/gh/username/islamic-data@main" true
         [1; 67; 112; 113; 114]
         [18; 19; 20; 36; 48; 55; 56; 62; 78; 97].

Definition default_options : search_options := SearchOptions "en" "sahih" 50.

Definition invalid_chapter : error :=
  Error "Invalid chapter number. Must be between 1 and 114.".

Definition fetch_failed : error := TypeError "Failed to fetch".

(** [await fetch(url)]: a rejected fetch throws. *)
Definition fetch (url : string) : prog (Z * string) :=
  Vis (FetchUrl url) (fun r =>
    match r with
    | NetFail => Throw fetch_failed
    | Resp status body => Ret (status, body)
    end).

(** [JSON.parse(text)] and [await response.json()] *)
Definition json_parse (text : string) : prog json :=
  match Json.parse text with
  | Some v => Ret v
  | None => Throw SyntaxError
  end.

(** [getCachedData(key)] *)
Definition getCachedData (key : string) : prog jsval :=
  try_catch
    (let* item := attempt (GetItem ("quran-" +:+ key)) in
     match item with
     | None => Ret (J JNull)
     | Some "" => Ret (J JNull)
     | Some text =>
         let* parsed := json_parse text in
         let* expires := lift (Js.get_prop (J parsed) "expires") in
         let* expired :=
           match expires with
           | J e =>
               if Json.truthy e
               then let* t := perform Now in Ret (Js.gt t e)
               else Ret false
           | undefined => Ret false
           end in
         if expired : bool
         then attempt (RemoveItem ("quran-" +:+ key)) ;;; Ret (J JNull)
         else lift (Js.get_prop (J parsed) "data")
     end)
    (fun _ =>
       perform (Console LWarn ("Failed to get cached data for " +:+ key +:+ ":")) ;;;
       Ret (J JNull)).

(** The stored item [{ data, expires, cached }]. *)
Definition envelope (data expires : json) (cached : Z) : json :=
  JObj [("data", data); ("expires", expires); ("cached", JNum cached)].

(** [setCachedData(key, data, ttlMs)] *)
Definition setCachedData (key : string) (data : json) (ttlMs : Z) : prog unit :=
  try_catch
    (let* expires :=
       if ttlMs >? 0
       then let* t := perform Now in Ret (JNum (t + ttlMs))
       else Ret JNull in
     let* cached := perform Now in
     let item := envelope data expires cached in
     attempt (SetItem ("quran-" +:+ key) (Json.stringify item)))
    (fun _ => perform (Console LWarn ("Failed to cache data for " +:+ key +:+ ":"))).

Section Service.

Variable this : config.

(** [loadQuranIndex()] *)
Definition loadQuranIndex : prog jsval :=
  let cacheKey := "quran-index" in
  let* hit :=
    if offlineFirst this
    then let* cached := getCachedData cacheKey in
         if Json.truthy_val cached
         then perform (Console LLog "Loaded Quran index from cache") ;;;
              Ret (Some cached)
         else Ret None
    else Ret None in
  match hit with
  | Some cached => Ret cached
  | None =>
      try_catch
        (let* response := fetch (baseUrl this +:+ "/data/quran/index.json") in
         let '(status, body) := response in
         if negb (Js.ok status) then Throw (Error ("HTTP " +:+ Str.of_Z status))
         else
           let* data := json_parse body in
           setCachedData cacheKey data (24 * 60 * 60 * 1000) ;;;
           perform (Console LLog "Loaded Quran index from network") ;;;
           Ret (J data))
        (fun error =>
           perform (Console LError "Failed to load Quran index:") ;;;
           let* cached := getCachedData cacheKey in
           if Json.truthy_val cached
           then perform (Console LLog "Using cached Quran index as fallback") ;;;
                Ret cached
           else Throw error)
  end.

(** [loadChapter(chapterNumber)] *)
Definition loadChapter (chapterNumber : Z) : prog jsval :=
  if (chapterNumber <? 1) || (chapterNumber >? 114) then Throw invalid_chapter
  else
    let cacheKey := "chapter-" +:+ Str.of_Z chapterNumber in
    let* inMemory := perform (CacheHas cacheKey) in
    if inMemory : bool
    then perform (Console LLog ("Loaded chapter " +:+ Str.of_Z chapterNumber +:+ " from memory")) ;;;
         perform (CacheGet cacheKey)
    else
      let* hit :=
        if offlineFirst this
        then let* cached := getCachedData cacheKey in
             if Json.truthy_val cached
             then perform (CacheSet cacheKey cached) ;;;
                  perform (Console LLog ("Loaded chapter " +:+ Str.of_Z chapterNumber +:+ " from cache")) ;;;
                  Ret (Some cached)
             else Ret None
        else Ret None in
      match hit with
      | Some cached => Ret cached
      | None =>
          try_catch
            (let paddedNumber := Str.padStart 3 "0" (Str.of_Z chapterNumber) in
             let url := baseUrl this +:+ "/data/quran/chapters/" +:+ paddedNumber +:+ ".json" in
             perform (Console LLog ("Loading chapter " +:+ Str.of_Z chapterNumber +:+ " from network...")) ;;;
             let* response := fetch url in
             let '(status, body) := response in
             if negb (Js.ok status)
             then Throw (Error ("Failed to load chapter " +:+ Str.of_Z chapterNumber +:+
                                ": HTTP " +:+ Str.of_Z status))
             else
               let* data := json_parse body in
               perform (CacheSet cacheKey (J data)) ;;;
               setCachedData cacheKey data (7 * 24 * 60 * 60 * 1000) ;;;
               perform (Console LLog ("Loaded chapter " +:+ Str.of_Z chapterNumber +:+ " successfully")) ;;;
               Ret (J data))
            (fun error =>
               perform (Console LError ("Failed to load chapter " +:+ Str.of_Z chapterNumber +:+ ":")) ;;;
               let* cached := getCachedData cacheKey in
               if Json.truthy_val cached
               then perform (Console LLog ("Using cached chapter " +:+ Str.of_Z chapterNumber +:+ " as fallback")) ;;;
                    perform (CacheSet cacheKey cached) ;;;
                    Ret cached
               else Throw error)
      end.

Section Search.

Variable searchTerm : string.
Variable options : search_options.

(** [verse.translations?.[`${language}.${translation}`] || ''] *)
Definition translationText (verse : jsval) : outcome jsval :=
  match Js.get_prop verse "translations" with
  | Thrown e => Thrown e
  | Returned translations =>
      let v := Js.get_prop_opt translations
                 (language options +:+ "." +:+ translation options) in
      Returned (if Json.truthy_val v then v else J (JStr ""))
  end.

(** The inner loop over [chapter.content]; it ends at the end of the
    content or at [break]. *)
Fixpoint scan_verses (chapter : jsval) (verses : list jsval) (results : list verse_match)
  : outcome (list verse_match) :=
  match verses with
  | [] => Returned results
  | verse :: rest =>
      match translationText verse with
      | Thrown e => Thrown e
      | Returned (J (JStr text)) =>
          if Str.includes (Str.toLowerCase text) searchTerm
          then
            match Js.get_prop chapter "chapter", Js.get_prop verse "verse",
                  Js.get_prop verse "arabic", Js.get_prop verse "transliteration" with
            | Returned c, Returned v, Returned a, Returned t =>
                let results' := (results ++ [VerseMatch c v a text t])%list in
                if Z.of_nat (length results') >=? limit options
                then Returned results'
                else scan_verses chapter rest results'
            | Thrown e, _, _, _ | _, Thrown e, _, _
            | _, _, Thrown e, _ | _, _, _, Thrown e => Thrown e
            end
          else scan_verses chapter rest results
      | Returned _ => Thrown (TypeError "translationText.toLowerCase is not a function")
      end
  end.

(** The outer loop over [this.cache.entries()]. *)
Fixpoint scan_entries (entries : list (string * jsval)) (results : list verse_match)
  : outcome (list verse_match) :=
  match entries with
  | [] => Returned results
  | (cacheKey, chapter) :: rest =>
      if negb (Str.startsWith cacheKey "chapter-") then scan_entries rest results
      else
        match Js.get_prop chapter "content" with
        | Thrown e => Thrown e
        | Returned content =>
            match Js.iterate content with
            | Thrown e => Thrown e
            | Returned verses =>
                match scan_verses chapter verses results with
                | Thrown e => Thrown e
                | Returned results' =>
                    if Z.of_nat (length results') >=? limit options
                    then Returned results'
                    else scan_entries rest results'
                end
            end
        end
  end.

End Search.

(** [searchVerses(query, options)] *)
Definition searchVerses (query : string) (options : search_options)
  : prog (list verse_match) :=
  perform (Console LLog ("Searching for: " +:+ query)) ;;;
  let* idx := perform GetIndex in
  (if Json.truthy_val idx then Ret tt else loadQuranIndex ;;; Ret tt) ;;;
  let searchTerm := Str.toLowerCase query in
  let* entries := perform CacheEntries in
  let* results := lift (scan_entries searchTerm options entries []) in
  perform (Console LLog ("Found " +:+ Str.of_Z (Z.of_nat (length results)) +:+
                         " results for " +:+ query)) ;;;
  Ret results.

(** [clearCache()] *)
Definition clearCache : prog unit :=
  perform (Console LLog "Clearing Quran cache...") ;;;
  perform CacheClear ;;;
  try_catch
    (let* keys := attempt Keys in
     for_each keys (fun key =>
       if Str.startsWith key "quran-" then attempt (RemoveItem key) else Ret tt) ;;;
     perform (Console LLog "Cache cleared successfully"))
    (fun _ => perform (Console LError "Failed to clear cache:")).

(** [loadChapters(chapterNumbers)] *)
Definition loadChapters (chapterNumbers : list Z) : task (list jsval) :=
  Call (perform (Console LLog ("Loading " +:+
          Str.of_Z (Z.of_nat (length chapterNumbers)) +:+ " chapters..."))) (fun _ =>
  AllSettled (map loadChapter chapterNumbers) (fun results =>
    let successful :=
      omap (fun r => match r with Returned v => Some v | Thrown _ => None end) results in
    let failed :=
      omap (fun r => match r with Returned _ => None | Thrown e => Some e end) results in
    Call ((match failed with
           | [] => Ret tt
           | _ :: _ => perform (Console LWarn "Some chapters failed to load:")
           end) ;;;
          perform (Console LLog ("Loaded " +:+ Str.of_Z (Z.of_nat (length successful)) +:+
                     "/" +:+ Str.of_Z (Z.of_nat (length chapterNumbers)) +:+ " chapters")))
      (fun _ => TRet successful))).

(** The callback of the timer: [() => { this.loadChapters(popular); }] *)
Definition load_popular : task unit :=
  Fork (Loop.tbind (loadChapters (popular this)) (fun _ => TRet tt)) (TRet tt).

(** [preloadPriorityChapters()] *)
Definition preloadPriorityChapters : task unit :=
  Call (perform (Console LLog "Preloading priority chapters...")) (fun _ =>
  Loop.tbind (loadChapters (essential this)) (fun o =>
    match o with
    | Returned _ => SetTimeout 2000 load_popular (TRet tt)
    | Thrown _ =>
        Call (perform (Console LWarn "Priority preloading partially failed:"))
          (fun _ => TRet tt)
    end)).

(** [initialize()] *)
Definition initialize : task bool :=
  Call (perform (Console LLog "Initializing QuranService...")) (fun _ =>
  Call loadQuranIndex (fun o =>
    match o with
    | Returned idx =>
        Call (perform (SetIndex idx)) (fun _ =>
        Fork preloadPriorityChapters
          (Call (perform (Console LLog "QuranService initialized successfully"))
             (fun _ => TRet true)))
    | Thrown _ =>
        Call (perform (Console LError "Failed to initialize QuranService:"))
          (fun _ => TRet false)
    end)).

(** The object [getVerse] returns. *)
Record verse_info : Type := VerseInfo {
  v_chapter : jsval;
  v_chapterName : jsval;
  v_verse : jsval;
  v_arabic : jsval;
  v_translation : jsval;
  v_transliteration : jsval;
  v_tafsir : jsval
}.

Definition invalid_reference : error :=
  Error ("Invalid verse reference format. Use " +:+ String "034" "chapter:verse" +:+
         String "034" " (e.g., " +:+ String "034" "2:255" +:+ String "034" ")").

Definition verse_not_found (reference : string) : error :=
  Error ("Verse " +:+ reference +:+ " not found").

(** [Array.prototype.find(v => v.verse === verseNum)] on the elements
    of an array. *)
Fixpoint find_verse (verseNum : Z) (elements : list jsval) : outcome (option jsval) :=
  match elements with
  | [] => Returned None
  | v :: rest =>
      match Js.get_prop v "verse" with
      | Thrown e => Thrown e
      | Returned (J (JNum z)) =>
          if z =? verseNum then Returned (Some v) else find_verse verseNum rest
      | Returned _ => find_verse verseNum rest
      end
  end.

(** [content.find(...)]: only an array has the method. *)
Definition find_in_content (verseNum : Z) (content : jsval) : outcome (option jsval) :=
  match content with
  | J (JArr l) => find_verse verseNum (map J l)
  | undefined | J JNull => Thrown (TypeError "Cannot read properties of undefined")
  | J _ => Thrown (TypeError "chapter.content.find is not a function")
  end.

(** [getVerse(reference)]. [Number(part)] is [Js.to_number]; a missing
    part is [undefined], which [!] treats like [NaN] and [0]. *)
Definition getVerse (reference : string) : prog verse_info :=
  match map (fun part => Js.to_number (JStr part)) (Str.split ":" reference) with
  | Some chapterNum :: Some verseNum :: _ =>
      if (chapterNum =? 0) || (verseNum =? 0) then Throw invalid_reference
      else
        let* chapter := loadChapter chapterNum in
        let* content := lift (Js.get_prop chapter "content") in
        let* found := lift (find_in_content verseNum content) in
        match found with
        | None => Throw (verse_not_found reference)
        | Some verse =>
            let* c := lift (Js.get_prop chapter "chapter") in
            let* name := lift (Js.get_prop chapter "name") in
            let* v := lift (Js.get_prop verse "verse") in
            let* arabic := lift (Js.get_prop verse "arabic") in
            let* translations := lift (Js.get_prop verse "translations") in
            let* transliteration := lift (Js.get_prop verse "transliteration") in
            let* tafsir := lift (Js.get_prop verse "tafsir") in
            Ret (VerseInfo c name v arabic translations transliteration tafsir)
        end
  | _ => Throw invalid_reference
  end.

(** The object [getCacheStats] returns. *)
Record cache_stats : Type := CacheStats {
  memory_items : Z;
  storage_items : Z;
  storage_size : string
}.

(** The loop of [getCacheStats] over the keys of the storage. The
    counters are declared outside the [try] block, so they keep their
    values when an error ends the loop: the result is the counters
    together with that error, if there is one. *)
Fixpoint count_items (keys : list string) (storageItems storageSize : Z)
  : prog (Z * Z * option error) :=
  match keys with
  | [] => Ret (storageItems, storageSize, None)
  | key :: rest =>
      if Str.startsWith key "quran-"
      then
        Vis (GetItem key) (fun o =>
          match o with
          | Returned (Some item) =>
              count_items rest (storageItems + 1)
                (storageSize + Z.of_nat (String.length item))
          | Returned None =>
              Ret (storageItems + 1, storageSize,
                   Some (TypeError "Cannot read properties of null"))
          | Thrown e => Ret (storageItems + 1, storageSize, Some e)
          end)
      else count_items rest storageItems storageSize
  end.

(** [getCacheStats()]. [Math.round(storageSize / 1024)] rounds half up. *)
Definition getCacheStats : prog cache_stats :=
  let* entries := perform CacheEntries in
  let memoryItems := Z.of_nat (length entries) in
  let* counted :=
    Vis Keys (fun o =>
      match o with
      | Returned keys => count_items keys 0 0
      | Thrown e => Ret (0, 0, Some e)
      end) in
  let '(storageItems, storageSize, error) := counted in
  (match error with
   | Some _ => perform (Console LWarn "Failed to calculate cache stats:")
   | None => Ret tt
   end) ;;;
  Ret (CacheStats memoryItems storageItems
         (Str.of_Z ((storageSize + 512) / 1024) +:+ "KB")).

(** [isCommonlyRead(chapterNumber)] *)
Definition isCommonlyRead (chapterNumber : Z) : bool :=
  existsb (Z.eqb chapterNumber) (essential this) ||
  existsb (Z.eqb chapterNumber) (popular this).

(** The object [getRecommendedChapters] returns. *)
Record recommended : Type := Recommended {
  r_essential : list Z;
  r_popular : list Z;
  r_description : string
}.

(** [getRecommendedChapters()] *)
Definition getRecommendedChapters : recommended :=
  Recommended (essential this) (popular this)
    "Start with essential chapters (Al-Fatihah, short surahs), then explore popular ones".

End Service.

End QuranService.

(** ** The Dart content services of the README *)

Module Dart.

Import Prog.

Definition baseUrl : string :=
  "https://cdn.jsdelivr.net/gh/yourusername/justdeen-data@main/".

(** [v[k]] on a [dynamic] value: a map answers with the value or
    [null]; anything else has no such operator. *)
Definition at_key (v : json) (k : string) : outcome json :=
  match v with
  | JObj l =>
      match Json.field k l with
      | Some x => Returned x
      | None => Returned JNull
      end
  | _ => Thrown (TypeError "NoSuchMethodError: []")
  end.

(** The implicit cast of a returned [dynamic] to [Map<String, dynamic>]. *)
Definition as_map (v : json) : outcome json :=
  match v with
  | JObj _ => Returned v
  | _ => Thrown (TypeError "is not a subtype of type Map<String, dynamic>")
  end.

(** [v as List] *)
Definition as_list (v : json) : outcome (list json) :=
  match v with
  | JArr l => Returned l
  | _ => Thrown (TypeError "is not a subtype of type List<dynamic>")
  end.

(** [m[k] = v] on a map. *)
Definition put_key (k : string) (v : json) (l : list (string * json))
  : list (string * json) :=
  match Json.field k l with
  | Some _ => map (fun kv => if String.eqb k (fst kv) then (fst kv, v) else kv) l
  | None => (l ++ [(k, v)])%list
  end.

(** The value a cache entry holds; Dart has no [undefined]. *)
Definition dyn (v : jsval) : json :=
  match v with
  | J x => x
  | undefined => JNull
  end.

(** [await http.get(Uri.parse(url))]: a transport failure throws. *)
Definition http_get (url : string) : prog (Z * string) :=
  Vis (FetchUrl url) (fun r =>
    match r with
    | NetFail => Throw (Error "ClientException")
    | Resp status body => Ret (status, body)
    end).

(** [json.decode(response.body)] *)
Definition json_decode (body : string) : prog json :=
  match Json.parse body with
  | Some v => Ret v
  | None => Throw SyntaxError
  end.

(** The shared shape of the accessors: memory cache, then one GET;
    status 200 decodes, stores and returns the body; any other status
    throws [Exception(failure)]. *)
Definition cached_get (cacheKey url failure : string) : prog json :=
  let* present := perform (CacheHas cacheKey) in
  if present : bool
  then let* v := perform (CacheGet cacheKey) in lift (as_map (dyn v))
  else
    let* response := http_get url in
    let '(status, body) := response in
    if status =? 200
    then let* data := json_decode body in
         perform (CacheSet cacheKey (J data)) ;;;
         lift (as_map data)
    else Throw (Error failure).

(** [QuranService.getChapter(chapterNumber)] *)
Definition getChapter (chapterNumber : Z) : prog json :=
  cached_get
    ("chapter_" +:+ Str.of_Z chapterNumber)
    (baseUrl +:+ "data/quran/chapters/" +:+
       Str.padStart 3 "0" (Str.of_Z chapterNumber) +:+ ".json")
    ("Failed to load chapter " +:+ Str.of_Z chapterNumber).

(** [HadithService.getCollection(collection)] *)
Definition getCollection (collection : string) : prog json :=
  cached_get
    ("collection_" +:+ collection)
    (baseUrl +:+ "data/hadith/collections/" +:+ collection +:+ "/collection.json")
    ("Failed to load collection " +:+ collection).

(** [HadithService.getBook(collection, bookNumber)] *)
Definition getBook (collection : string) (bookNumber : Z) : prog json :=
  cached_get
    ("book_" +:+ collection +:+ "_" +:+ Str.of_Z bookNumber)
    (baseUrl +:+ "data/hadith/collections/" +:+ collection +:+ "/book-" +:+
       Str.padStart 3 "0" (Str.of_Z bookNumber) +:+ ".json")
    ("Failed to load book " +:+ Str.of_Z bookNumber +:+ " from " +:+ collection).

(** One element of the list the Dart [searchVerses] returns. *)
Record text_match : Type := TextMatch {
  t_chapter : Z;
  t_verse : json;
  t_text : string;
  t_arabic : json
}.

(** [verse['translations']?[language] ?? verse['arabic']] *)
Definition verse_text (language : string) (verse : json) : outcome json :=
  match at_key verse "translations" with
  | Thrown e => Thrown e
  | Returned JNull => at_key verse "arabic"
  | Returned translations =>
      match at_key translations language with
      | Thrown e => Thrown e
      | Returned JNull => at_key verse "arabic"
      | Returned text => Returned text
      end
  end.

Fixpoint search_content (query language : string) (verses : list json)
  (results : list text_match) : outcome (list text_match) :=
  match verses with
  | [] => Returned results
  | verse :: rest =>
      match verse_text language verse with
      | Thrown e => Thrown e
      | Returned (JStr text) =>
          if Str.includes (Str.toLowerCase text) (Str.toLowerCase query)
          then
            match at_key verse "verse", at_key verse "arabic" with
            | Returned v, Returned a =>
                search_content query language rest
                  (results ++ [TextMatch 1 v text a])%list
            | Thrown e, _ | _, Thrown e => Thrown e
            end
          else search_content query language rest results
      | Returned _ => Thrown (TypeError "NoSuchMethodError: toLowerCase")
      end
  end.

(** [QuranService.searchVerses(query, language)] *)
Definition searchVerses (query language : string) : prog (list text_match) :=
  let* chapter := getChapter 1 in
  let* content := lift (at_key chapter "content") in
  let* verses := lift (as_list content) in
  lift (search_content query language verses []).

Definition hadith_not_found (collection : string) (hadithNumber : Z) : error :=
  Error ("Hadith " +:+ Str.of_Z hadithNumber +:+ " not found in " +:+ collection).

(** [hadithList.firstWhere((h) => h['hadithNumber'] == hadithNumber,
    orElse: () => null)] *)
Fixpoint firstWhere (hadithNumber : Z) (hadithList : list json) : outcome (option json) :=
  match hadithList with
  | [] => Returned None
  | h :: rest =>
      match at_key h "hadithNumber" with
      | Thrown e => Thrown e
      | Returned (JNum z) => if z =? hadithNumber then Returned (Some h) else firstWhere hadithNumber rest
      | Returned _ => firstWhere hadithNumber rest
      end
  end.

(** The loop over [languages] that fills [filteredTranslations]. *)
Fixpoint filter_languages (translations : json) (languages : list string)
  (filtered : list (string * json)) : outcome (list (string * json)) :=
  match languages with
  | [] => Returned filtered
  | lang :: rest =>
      match at_key translations lang with
      | Thrown e => Thrown e
      | Returned JNull => filter_languages translations rest filtered
      | Returned t => filter_languages translations rest (put_key lang t filtered)
      end
  end.

(** The language filter applied to a found hadith: [None] when the
    hadith is left as it is, otherwise the hadith as it is afterwards. *)
Definition restrict_languages (languages : option (list string)) (hadith : json)
  : outcome (option json) :=
  match languages with
  | None => Returned None
  | Some langs =>
      match at_key hadith "text" with
      | Thrown e => Thrown e
      | Returned text =>
          match at_key text "translations" with
          | Thrown e => Thrown e
          | Returned JNull => Returned None
          | Returned translations =>
              match filter_languages translations langs [] with
              | Thrown e => Thrown e
              | Returned filtered =>
                  match hadith, text with
                  | JObj h, JObj t =>
                      Returned (Some (JObj (put_key "text"
                                  (JObj (put_key "translations" (JObj filtered) t)) h)))
                  | _, _ => Thrown (TypeError "NoSuchMethodError: []=")
                  end
              end
          end
      end
  end.

(** The hadith of a book that is the same object as [hadith], replaced
    by its new state. *)
Fixpoint replace_first (hadithNumber : Z) (new : json) (hadithList : list json)
  : list json :=
  match hadithList with
  | [] => []
  | h :: rest =>
      match at_key h "hadithNumber" with
      | Returned (JNum z) =>
          if z =? hadithNumber then new :: rest
          else h :: replace_first hadithNumber new rest
      | _ => h :: replace_first hadithNumber new rest
      end
  end.

Section GetHadith.

Variable collection : string.
Variable hadithNumber : Z.
Variable languages : option (list string).

(** The body of the [try] block for one book: [None] when the book has
    no such hadith. The assignment to [hadith['text']['translations']]
    changes the cached book, of which the hadith is a part. *)
Definition search_book (bookNum : Z) : prog (option json) :=
  let* book := getBook collection bookNum in
  let* content := lift (at_key book "content") in
  let* hadithList := lift (as_list content) in
  let* found := lift (firstWhere hadithNumber hadithList) in
  match found with
  | None => Ret None
  | Some hadith =>
      let* changed := lift (restrict_languages languages hadith) in
      match changed, book with
      | Some hadith', JObj b =>
          perform (CacheSet ("book_" +:+ collection +:+ "_" +:+ Str.of_Z bookNum)
                     (J (JObj (put_key "content"
                                 (JArr (replace_first hadithNumber hadith' hadithList)) b)))) ;;;
          Ret (Some hadith')
      | Some hadith', _ => Ret (Some hadith')
      | None, _ => Ret (Some hadith)
      end
  end.

(** [collectionData['totalBooks']], as the bound of the loop. *)
Definition totalBooks (collectionData : json) : outcome Z :=
  match at_key collectionData "totalBooks" with
  | Thrown e => Thrown e
  | Returned (JNum n) => Returned n
  | Returned _ => Thrown (TypeError "is not a subtype of type num")
  end.

(** The [for] loop from [bookNum] on, with [count] books left. *)
Fixpoint scan_books (count : nat) (bookNum : Z) : prog json :=
  match count with
  | O => Throw (hadith_not_found collection hadithNumber)
  | S count' =>
      let* found :=
        try_catch (search_book bookNum) (fun _ => Ret None) in
      match found with
      | Some hadith => Ret hadith
      | None => scan_books count' (bookNum + 1)
      end
  end.

(** [HadithService.getHadith(collection, hadithNumber, languages)] *)
Definition getHadith : prog json :=
  let* collectionData := getCollection collection in
  let* total := lift (totalBooks collectionData) in
  scan_books (Z.to_nat total) 1.

End GetHadith.

(** [QuranService.getQuranIndex()] *)
Definition getQuranIndex : prog json :=
  cached_get "quran_index" (baseUrl +:+ "data/quran/index.json")
    "Failed to load Quran index".

(** [HadithService.getHadithIndex()] *)
Definition getHadithIndex : prog json :=
  cached_get "hadith_index" (baseUrl +:+ "data/hadith/index.json")
    "Failed to load hadith index".

(** [DuasService.getDuasIndex()] *)
Definition getDuasIndex : prog json :=
  cached_get "duas_index" (baseUrl +:+ "data/duas/index.json")
    "Failed to load duas index".

(** [DuasService.getDuasCategory(category)] *)
Definition getDuasCategory (category : string) : prog json :=
  cached_get
    ("duas_" +:+ category)
    (baseUrl +:+ "data/duas/categories/" +:+ category +:+ ".json")
    ("Failed to load duas category " +:+ category).

(** [verses.firstWhere((v) => v['verse'] == verse,
    orElse: () => throw Exception('Verse not found'))] *)
Fixpoint first_verse (verse : Z) (verses : list json) : outcome json :=
  match verses with
  | [] => Thrown (Error "Verse not found")
  | v :: rest =>
      match at_key v "verse" with
      | Thrown e => Thrown e
      | Returned (JNum z) => if z =? verse then Returned v else first_verse verse rest
      | Returned _ => first_verse verse rest
      end
  end.

(** [QuranService.getVerse(chapter, verse, translation)] *)
Definition getVerse (chapter verse : Z) (translation : option string) : prog json :=
  let* chapterData := getChapter chapter in
  let* content := lift (at_key chapterData "content") in
  let* verses := lift (as_list content) in
  let* verseData := lift (first_verse verse verses) in
  lift (as_map verseData).

(** The cast of a [dynamic] argument to [String]. *)
Definition as_string (v : json) : outcome string :=
  match v with
  | JStr s => Returned s
  | _ => Thrown (TypeError "is not a subtype of type String")
  end.

(** [v == s] for a string [s]. *)
Definition is_string (s : string) (v : json) : bool :=
  match v with
  | JStr s' => String.eqb s' s
  | _ => false
  end.

(** [duas.where((dua) => dua['occasion'] == occasion).toList()] *)
Fixpoint where_occasion (occasion : string) (duas : list json) : outcome (list json) :=
  match duas with
  | [] => Returned []
  | dua :: rest =>
      match at_key dua "occasion" with
      | Thrown e => Thrown e
      | Returned o =>
          match where_occasion occasion rest with
          | Thrown e => Thrown e
          | Returned l => Returned (if is_string occasion o then dua :: l else l)
          end
      end
  end.

(** The loop of [getDuasByOccasion] over the categories of the index. *)
Fixpoint scan_categories (occasion : string) (categories : list json)
  (results : list json) : prog (list json) :=
  match categories with
  | [] => Ret results
  | category :: rest =>
      let* listed := lift (at_key category "occasions") in
      let* occasions := lift (as_list listed) in
      if existsb (is_string occasion) occasions
      then
        let* id := lift (at_key category "id") in
        let* name := lift (as_string id) in
        let* categoryData := getDuasCategory name in
        let* content := lift (at_key categoryData "content") in
        let* duas := lift (as_list content) in
        let* filteredDuas := lift (where_occasion occasion duas) in
        scan_categories occasion rest (results ++ filteredDuas)%list
      else scan_categories occasion rest results
  end.

(** [DuasService.getDuasByOccasion(occasion)] *)
Definition getDuasByOccasion (occasion : string) : prog (list json) :=
  let* index := getDuasIndex in
  let* listed := lift (at_key index "categories") in
  let* categories := lift (as_list listed) in
  scan_categories occasion categories [].

(** [IslamicContentService.getMetadata()]. The field [_metadata] of
    the instance is kept in the [index] field of the world, [undefined]
    standing for [null]. *)
Definition getMetadata : prog json :=
  let* metadata := perform GetIndex in
  match metadata with
  | J m => Ret m
  | undefined =>
      let* response := http_get (baseUrl +:+ "metadata.json") in
      let '(status, body) := response in
      if status =? 200
      then let* data := json_decode body in
           let* m := lift (as_map data) in
           perform (SetIndex (J m)) ;;;
           Ret m
      else Throw (Error "Failed to load metadata")
  end.

(** The keys of a decoded map, each once, in the order of their first
    occurrence. *)
Fixpoint keys (l : list (string * json)) (seen : list string) : list string :=
  match l with
  | [] => []
  | (k, _) :: l' =>
      if existsb (String.eqb k) seen then keys l' seen
      else k :: keys l' (k :: seen)
  end.

(** [IslamicContentService.getSupportedLanguages(contentType)] *)
Definition getSupportedLanguages (contentType : string) : prog (list string) :=
  let* metadata := getMetadata in
  let* types := lift (at_key metadata "content") in
  let* content := lift (at_key types contentType) in
  let* languages := lift (at_key content "languages") in
  let* translations := lift (at_key languages "translations") in
  match translations with
  | JNull => Ret ["ar"]
  | JObj l => Ret ("ar" :: keys l [])
  | _ => Throw (TypeError "NoSuchMethodError: keys")
  end.

(** [IslamicAppService.initialize()] *)
Definition initialize : prog json := getMetadata.

(** [IslamicAppService.getAllSupportedLanguages()] *)
Definition getAllSupportedLanguages : prog (list (string * list string)) :=
  let* metadata := getMetadata in
  let* quran := getSupportedLanguages "quran" in
  let* hadith := getSupportedLanguages "hadith" in
  let* duas := getSupportedLanguages "duas" in
  Ret [("quran", quran); ("hadith", hadith); ("duas", duas)].

(** [IslamicContentService()]: a new instance, with [_metadata] null
    and [_cache] empty; the world holds the fields of the instance in
    use. *)
Definition new_service : prog unit :=
  perform (SetIndex undefined) ;;; perform CacheClear.

(** [LanguageManager.getAvailableLanguages(contentType)] *)
Definition getAvailableLanguages (contentType : string) : prog (list string) :=
  new_service ;;; getSupportedLanguages contentType.

(** [LanguageManager.isLanguageSupported(contentType, languageCode)] *)
Definition isLanguageSupported (contentType languageCode : string) : prog bool :=
  let* languages := getAvailableLanguages contentType in
  Ret (existsb (String.eqb languageCode) languages).

(** [LanguageManager.getBestAvailableLanguage(contentType, preferred)] *)
Definition getBestAvailableLanguage (contentType preferred : string) : prog string :=
  let* available := getAvailableLanguages contentType in
  if existsb (String.eqb preferred) available then Ret preferred
  else if existsb (String.eqb "en") available then Ret "en"
  else if existsb (String.eqb "ar") available then Ret "ar"
  else
    match available with
    | first :: _ => Ret first
    | [] => Throw (Error "Bad state: No element")
    end.

End Dart.

(** * Specification-side definitions

    The predicates and functions in which the theorems below are
    stated. None of them is part of the embedded program. *)

Module Spec.

Import Prog.

(** ** JSON text *)

(** The text after a number: not a digit, not a fraction. *)
Definition number_end (r : string) : bool :=
  match r with
  | String c _ => negb (Str.is_digit c) && negb (Json.starts_fraction r)
  | EmptyString => true
  end.

(** The first character of a printed value. *)
Definition value_start (c : ascii) : bool :=
  Str.is_digit c ||
  match c with
  | "-" | "n" | "t" | "f" | "034" | "[" | "{" => true
  | _ => false
  end%char.

(** The number of nested calls the parser needs for a value. *)
Fixpoint jsize (v : json) : nat :=
  match v with
  | JArr l => S (list_sum (map (fun x => S (jsize x)) l))
  | JObj l => S (list_sum (map (fun kv => S (jsize (snd kv))) l))
  | _ => 1
  end.

(** With enough fuel, the parser reads back a printed value and stops
    where its text stops. *)
Definition reads_back (v : json) : Prop :=
  forall fuel r, (jsize v < fuel)%nat -> number_end r = true ->
    Json.parse_value fuel (Json.stringify v +:+ r) = Some (v, r).

(** ** The persistent cache *)

(** A storage backend that never raises. *)
Definition quiet : storage_op -> bool := fun _ => false.

(** A miss: the backend raises, the item is absent, or it is not JSON. *)
Definition unreadable (key : string) (w : world) : Prop :=
  raises w (OpGet ("quran-" +:+ key)) = true \/
  storage w !! ("quran-" +:+ key) = None \/
  exists text, storage w !! ("quran-" +:+ key) = Some text /\ Json.parse text = None.

(** What the loop of [clearCache] leaves of the storage. *)
Definition sweep (keys : list string) (m : gmap string string) : gmap string string :=
  foldl (fun m k => if Str.startsWith k "quran-" then delete k m else m) m keys.

(** [parsed.expires && Date.now() > parsed.expires] *)
Definition expired_at (t : Z) (expires : json) : bool :=
  Json.truthy expires && Js.gt t expires.

(** The [expires] field as [setCachedData] writes it: [null] or a
    number. *)
Definition expiry (expires : json) : Prop :=
  expires = JNull \/ exists e, expires = JNum e.

(** ** What a call chain writes to the storage *)

(** The answer of the clock, for the one effect that reads it. *)
Definition clock_answer {X} (e : eff X) : option (Z -> X) :=
  match e in eff X return option (Z -> X) with
  | Now => Some (fun t => t)
  | _ => None
  end.

(** The item an effect asks the storage to hold. *)
Definition written {X} (e : eff X) : option (string * string) :=
  match e with
  | SetItem k v => Some (k, v)
  | _ => None
  end.

(** At clock time [t], every [setItem] the program can reach writes an
    item that is [good]. *)
Fixpoint respects (t : Z) (good : string -> string -> Prop) {A} (p : prog A) : Prop :=
  match p with
  | Ret _ | Throw _ => True
  | Vis e k =>
      match clock_answer e with
      | Some c => respects t good (k (c t))
      | None =>
          match written e with
          | Some (key, v) => good key v
          | None => True
          end /\ forall x, respects t good (k x)
      end
  end.

(** An item under [sk] stamped at time [t] with the TTL [ttl]. *)
Definition stamped (sk : string) (ttl t : Z) (k v : string) : Prop :=
  k = sk /\ exists data,
    v = Json.stringify (QuranService.envelope data (JNum (t + ttl)) t).

(** ** Loading a chapter *)

Definition chapter_key (n : Z) : string := "chapter-" +:+ Str.of_Z n.

Definition chapter_url (this : config) (n : Z) : string :=
  baseUrl this +:+ "/data/quran/chapters/" +:+
  Str.padStart 3 "0" (Str.of_Z n) +:+ ".json".

Definition index_url (this : config) : string :=
  baseUrl this +:+ "/data/quran/index.json".

(** The error [loadChapter] throws for a fetch that failed: a rejected
    fetch, or a status outside 200..299. *)
Definition failure (n : Z) (r : response) : option error :=
  match r with
  | NetFail => Some QuranService.fetch_failed
  | Resp status _ =>
      if Js.ok status then None
      else Some (Error ("Failed to load chapter " +:+ Str.of_Z n +:+
                        ": HTTP " +:+ Str.of_Z status))
  end.

(** ** The effects a call chain can perform *)

(** Every effect the program can reach satisfies [P]. *)
Fixpoint only (P : forall X, eff X -> Prop) {A} (p : prog A) : Prop :=
  match p with
  | Ret _ | Throw _ => True
  | Vis e k => P _ e /\ forall x, only P (k x)
  end.

(** The effects of a search: no write to the memory cache, and no
    request but for the index. *)
Definition reads_only (this : config) (X : Type) (e : eff X) : Prop :=
  match e with
  | CacheSet _ _ | CacheClear => False
  | FetchUrl url => url = index_url this
  | _ => True
  end.

(** The memory cache is as it was, and the requests sent since are all
    for the index. *)
Definition searched (this : config) (w w' : world) : Prop :=
  cache w' = cache w /\
  exists sent, Loop.requests (trace w') = (Loop.requests (trace w) ++ sent)%list /\
               Forall (eq (index_url this)) sent.

(** ** What a search finds *)

Section Hits.

Variable term : string.
Variable options : search_options.

(** The match a verse gives, if it gives one. *)
Definition verse_hit (chapter verse : jsval) : option verse_match :=
  match QuranService.translationText options verse with
  | Returned (J (JStr text)) =>
      if Str.includes (Str.toLowerCase text) term
      then
        match Js.get_prop chapter "chapter", Js.get_prop verse "verse",
              Js.get_prop verse "arabic", Js.get_prop verse "transliteration" with
        | Returned c, Returned v, Returned a, Returned t =>
            Some (VerseMatch c v a text t)
        | _, _, _, _ => None
        end
      else None
  | _ => None
  end.

(** The verses of a cache entry, in the order of its content. *)
Definition verses_of (entry : string * jsval) : list jsval :=
  if Str.startsWith (fst entry) "chapter-"
  then match Js.get_prop (snd entry) "content" with
       | Returned content =>
           match Js.iterate content with
           | Returned verses => verses
           | Thrown _ => []
           end
       | Thrown _ => []
       end
  else [].

Definition chapter_hits (entry : string * jsval) : list verse_match :=
  omap (verse_hit (snd entry)) (verses_of entry).

(** All matches of the memory cache: entries in insertion order, the
    verses of an entry in the order of its content. *)
Definition all_hits (entries : list (string * jsval)) : list verse_match :=
  concat (map chapter_hits entries).

End Hits.

(** The text a search reads off a verse: the translation stored under
    [language.translation] when there is a truthy one, the empty string
    otherwise. *)
Definition searched_text (options : search_options) (verse : jsval) (text : string) : Prop :=
  exists translations,
    Js.get_prop verse "translations" = Returned translations /\
    let v := Js.get_prop_opt translations
               (language options +:+ "." +:+ translation options) in
    if Json.truthy_val v then v = J (JStr text) else text = "".

(** The match comes from a verse of a cached chapter whose searched
    text contains the term. *)
Definition found_in (entries : list (string * jsval)) (options : search_options)
  (term : string) (m : verse_match) : Prop :=
  exists k chapter content verses verse,
    In (k, chapter) entries /\
    Str.startsWith k "chapter-" = true /\
    Js.get_prop chapter "content" = Returned content /\
    Js.iterate content = Returned verses /\
    In verse verses /\
    searched_text options verse (m_translation m) /\
    Str.includes (Str.toLowerCase (m_translation m)) term = true /\
    Js.get_prop chapter "chapter" = Returned (m_chapter m) /\
    Js.get_prop verse "verse" = Returned (m_verse m) /\
    Js.get_prop verse "arabic" = Returned (m_arabic m).

(** A cached chapter of two verses, the second without a translation. *)
Definition sample_chapter (n : Z) (arabic english : string) : jsval :=
  J (JObj [("chapter", JNum n);
           ("content", JArr [JObj [("verse", JNum 1); ("arabic", JStr arabic);
                                   ("translations", JObj [("en.sahih", JStr english)])];
                             JObj [("verse", JNum 2); ("arabic", JStr arabic)]])]).

(** A client with the given memory cache, the index set, and no
    network. *)
Definition search_world (entries : list (string * jsval)) : world :=
  World entries (J (JObj [])) ∅ quiet (fun _ => NetFail) 0 [] [].

(** ** The scan of the books of a hadith collection *)

Definition book_key (collection : string) (bookNumber : Z) : string :=
  "book_" +:+ collection +:+ "_" +:+ Str.of_Z bookNumber.

Definition book_url (collection : string) (bookNumber : Z) : string :=
  Dart.baseUrl +:+ "data/hadith/collections/" +:+ collection +:+ "/book-" +:+
  Str.padStart 3 "0" (Str.of_Z bookNumber) +:+ ".json".

Definition collection_key (collection : string) : string := "collection_" +:+ collection.

Definition collection_url (collection : string) : string :=
  Dart.baseUrl +:+ "data/hadith/collections/" +:+ collection +:+ "/collection.json".

Section Scan.

Variable w : world.
Variable collection : string.
Variable hadithNumber : Z.

(** The document [getBook] answers with in the world [w], if it
    answers: the cached one, or the decoded body of a response with status
    200; in both cases a map. *)
Definition book_doc (bookNumber : Z) : option json :=
  let as_doc (v : json) :=
    match Dart.as_map v with Returned d => Some d | Thrown _ => None end in
  if W.map_has (book_key collection bookNumber) (cache w)
  then as_doc (Dart.dyn (W.map_get (book_key collection bookNumber) (cache w)))
  else
    match net w (book_url collection bookNumber) with
    | Resp status body =>
        if status =? 200
        then match Json.parse body with
             | Some v => as_doc v
             | None => None
             end
        else None
    | NetFail => None
    end.

(** The first record of a book whose [hadithNumber] is the number
    asked for, if the book can be scanned and has one. *)
Definition record_in (book : json) : option json :=
  match Dart.at_key book "content" with
  | Returned content =>
      match Dart.as_list content with
      | Returned hadithList =>
          match Dart.firstWhere hadithNumber hadithList with
          | Returned found => found
          | Thrown _ => None
          end
      | Thrown _ => None
      end
  | Thrown _ => None
  end.

(** What a book yields: nothing when it cannot be loaded or scanned. *)
Definition yield (bookNumber : Z) : option json :=
  match book_doc bookNumber with
  | Some book => record_in book
  | None => None
  end.

(** The linear scan of the specification: the books [bookNum],
    [bookNum + 1], ... in ascending order, [count] of them, up to the first
    one that has the hadith. *)
Fixpoint first_match (count : nat) (bookNum : Z) : option json :=
  match count with
  | O => None
  | S count' =>
      match yield bookNum with
      | Some hadith => Some hadith
      | None => first_match count' (bookNum + 1)
      end
  end.

(** The requests of that scan: one for each scanned book that is not
    in the memory cache. *)
Fixpoint scan_requests (count : nat) (bookNum : Z) : list string :=
  match count with
  | O => []
  | S count' =>
      (if W.map_has (book_key collection bookNum) (cache w) then []
       else [book_url collection bookNum]) ++
      match yield bookNum with
      | Some _ => []
      | None => scan_requests count' (bookNum + 1)
      end
  end%list.

End Scan.

(** [w'] is [w] for the books from [bookNum] on. *)
Definition agree_from (collection : string) (bookNum : Z) (w w' : world) : Prop :=
  net w' = net w /\
  forall b, bookNum <= b ->
    W.map_has (book_key collection b) (cache w') = W.map_has (book_key collection b) (cache w) /\
    W.map_get (book_key collection b) (cache w') = W.map_get (book_key collection b) (cache w).

(** A collection of two books behind the network. *)
Definition hadith_net (url : string) : response :=
  if String.eqb url (collection_url "bukhari")
  then Resp 200 (Json.stringify (JObj [("totalBooks", JNum 2)]))
  else if String.eqb url (book_url "bukhari" 1)
  then Resp 200 (Json.stringify
         (JObj [("content", JArr [JObj [("hadithNumber", JNum 1)];
                                  JObj [("hadithNumber", JNum 2)]])]))
  else if String.eqb url (book_url "bukhari" 2)
  then Resp 200 (Json.stringify
         (JObj [("content", JArr [JObj [("hadithNumber", JNum 7)]])]))
  else Resp 404 "".

(** A client with nothing cached in front of that network. *)
Definition hadith_world : world :=
  World [] undefined ∅ quiet hadith_net 0 [] [].

(** ** Calls in the event loop *)

(** The program sends no request. *)
Definition no_request {A} (p : prog A) : Prop :=
  only (fun X e => Loop.as_request e = None) p.

(** The program sends at most one request, and none after it. *)
Fixpoint one_request {A} (p : prog A) : Prop :=
  match p with
  | Ret _ | Throw _ => True
  | Vis e k =>
      match Loop.as_request e with
      | Some (_, c) => forall r, no_request (k (c r))
      | None => forall x, one_request (k x)
      end
  end.










(** ** Notions for the further properties of the services *)

(** ** The client around its storage *)

(** The effects of the persistent cache: the storage, the clock and the
    console. *)
Definition storage_effect (X : Type) (e : eff X) : Prop :=
  match e with
  | GetItem _ | SetItem _ _ | RemoveItem _ | Keys | Now | Console _ _ => True
  | _ => False
  end.

(** The client is as it was but for its storage, its console and the
    log of storage operations: same memory cache, same index, same
    network, clock and backend, same requests sent. *)
Definition same_client (w w' : world) : Prop :=
  cache w' = cache w /\ index w' = index w /\ net w' = net w /\
  now w' = now w /\ raises w' = raises w /\
  Loop.requests (trace w') = Loop.requests (trace w).

(** The items of the storage under the prefix of the service. *)
Definition namespaced (m : gmap string string) : list (string * string) :=
  List.filter (fun kv => Str.startsWith (fst kv) "quran-") (map_to_list m).

(** The sum of the lengths of the stored strings. *)
Definition stored_length (items : list (string * string)) : Z :=
  fold_right (fun kv n => Z.of_nat (String.length (snd kv)) + n) 0 items.

(** The world in which [loadChapter] turns to the network: after the
    look into the memory cache and, with [offlineFirst], into the storage. *)
Definition before_fetch (this : config) (n : Z) (w : world) : world :=
  W.print LLog ("Loading chapter " +:+ Str.of_Z n +:+ " from network...")
    (if offlineFirst this
     then W.emit (StorageGet ("quran-" +:+ chapter_key n))
            (W.emit (CacheRead (chapter_key n)) w)
     else W.emit (CacheRead (chapter_key n)) w).

(** The effects that leave [this.index] alone. *)
Definition keeps_index (X : Type) (e : eff X) : Prop :=
  match e with
  | SetIndex _ => False
  | _ => True
  end.

(** The first entry of the memory cache that holds a chapter. *)
Definition first_chapter (entries : list (string * jsval)) : option (string * jsval) :=
  List.find (fun entry => Str.startsWith (fst entry) "chapter-") entries.

(** The effects of a call chain whose requests all go to [url]. *)
Definition asks_only (url : string) (X : Type) (e : eff X) : Prop :=
  match e with
  | FetchUrl u => u = url
  | _ => True
  end.


(** The string has no colon. *)
Fixpoint no_colon (s : string) : bool :=
  match s with
  | EmptyString => true
  | String c s' => negb (Ascii.eqb c ":") && no_colon s'
  end.

(** The reference [chapter:verse] as a caller writes it. *)
Definition reference_of (chapter verse : Z) : string :=
  Str.of_Z chapter +:+ ":" +:+ Str.of_Z verse.

(** The chapters of [chapterNumbers] that a memory cache serves: those
    with a number in 1..114 that it holds, in the order of the list. *)
Definition served (entries : list (string * jsval)) (chapterNumbers : list Z) : list jsval :=
  omap (fun n =>
          if (n <? 1) || (n >? 114) then None
          else if W.map_has (chapter_key n) entries
               then Some (W.map_get (chapter_key n) entries)
               else None)
       chapterNumbers.

(** The host is as it was but for its logs. *)
Definition same_host (w w' : world) : Prop :=
  cache w' = cache w /\ storage w' = storage w /\
  Loop.requests (trace w') = Loop.requests (trace w).

(** A fetch that the Dart accessors count as failed: no response, a
    status other than 200, or a body that is not JSON. *)
Definition dart_failure (r : response) : Prop :=
  match r with
  | NetFail => True
  | Resp status body => status <> 200 \/ Json.parse body = None
  end.


(** The value of a field of a map, null when the map has no such
    field. *)
Definition field_or_null (k : string) (fields : list (string * json)) : json :=
  match Json.field k fields with
  | Some x => x
  | None => JNull
  end.

(** The text of a verse for a language: its translation in that
    language, and its Arabic text when the verse has no translations or
    none in that language. A verse whose translations are not a map has no
    text. *)
Definition text_in (language : string) (fields : list (string * json)) : option json :=
  match field_or_null "translations" fields with
  | JNull => Some (field_or_null "arabic" fields)
  | JObj translations =>
      match field_or_null language translations with
      | JNull => Some (field_or_null "arabic" fields)
      | text => Some text
      end
  | _ => None
  end.

(** The match the Dart search takes from a verse: none unless the text
    of the verse for the language is a string that contains the query,
    both in lower case. *)
Definition text_hit (query language : string) (verse : json) : option Dart.text_match :=
  match verse with
  | JObj fields =>
      match text_in language fields with
      | Some (JStr text) =>
          if Str.includes (Str.toLowerCase text) (Str.toLowerCase query)
          then Some (Dart.TextMatch 1 (field_or_null "verse" fields) text
                       (field_or_null "arabic" fields))
          else None
      | _ => None
      end
  | _ => None
  end.

(** A chapter 1 whose second verse has a translation in another
    language only. *)
Definition fatihah : json :=
  JObj [("chapter", JNum 1);
        ("content",
         JArr [JObj [("verse", JNum 1); ("arabic", JStr "bismi");
                     ("translations", JObj [("en", JStr "In the name")])];
               JObj [("verse", JNum 2); ("arabic", JStr "alhamdu");
                     ("translations", JObj [("ur", JStr "name")])];
               JObj [("verse", JNum 3); ("arabic", JStr "name")]])].

Definition metadata_url : string := Dart.baseUrl +:+ "metadata.json".

(** The translations map of a content type in the metadata:
    [metadata['content'][contentType]['languages']['translations']]. *)
Definition translations_of (metadata : json) (contentType : string) : outcome json :=
  match Dart.at_key metadata "content" with
  | Thrown e => Thrown e
  | Returned types =>
      match Dart.at_key types contentType with
      | Thrown e => Thrown e
      | Returned content =>
          match Dart.at_key content "languages" with
          | Thrown e => Thrown e
          | Returned languages => Dart.at_key languages "translations"
          end
      end
  end.

(** The languages [getSupportedLanguages] reads off the metadata. *)
Definition supported_of (metadata : json) (contentType : string) : outcome (list string) :=
  match translations_of metadata contentType with
  | Thrown e => Thrown e
  | Returned JNull => Returned ["ar"]
  | Returned (JObj l) => Returned ("ar" :: Dart.keys l [])
  | Returned _ => Thrown (TypeError "NoSuchMethodError: keys")
  end.

(** The map [getAllSupportedLanguages] builds from the metadata. *)
Definition all_supported (metadata : json) : outcome (list (string * list string)) :=
  match supported_of metadata "quran" with
  | Thrown e => Thrown e
  | Returned quran =>
      match supported_of metadata "hadith" with
      | Thrown e => Thrown e
      | Returned hadith =>
          match supported_of metadata "duas" with
          | Thrown e => Thrown e
          | Returned duas => Returned [("quran", quran); ("hadith", hadith); ("duas", duas)]
          end
      end
  end.

(** The language that [getBestAvailableLanguage] settles on. *)
Definition best_of (available : list string) (preferred : string) : string :=
  if existsb (String.eqb preferred) available then preferred
  else if existsb (String.eqb "en") available then "en"
  else "ar".

(** The dua is for the occasion. *)
Definition for_occasion (occasion : string) (dua : json) : Prop :=
  Dart.at_key dua "occasion" = Returned (JStr occasion).

(** The category does not list the occasion. *)
Definition not_listed (occasion : string) (category : json) : Prop :=
  exists l, Dart.at_key category "occasions" = Returned (JArr l) /\
            existsb (Dart.is_string occasion) l = false.

(** The hadith as [getHadith] returns it: as the language filter has
    left it, or as it was found when the filter did not apply. *)
Definition filtered_or (hadith : json) (changed : option json) : json :=
  match changed with
  | Some hadith' => hadith'
  | None => hadith
  end.

(** The scan of the specification with the language filter: a book
    whose hadith the filter fails on counts as a book without the
    hadith. *)
Fixpoint first_filtered (w : world) (collection : string) (hadithNumber : Z)
  (languages : option (list string)) (count : nat) (bookNum : Z) : option json :=
  match count with
  | O => None
  | S count' =>
      match yield w collection hadithNumber bookNum with
      | Some hadith =>
          match Dart.restrict_languages languages hadith with
          | Returned changed => Some (filtered_or hadith changed)
          | Thrown _ =>
              first_filtered w collection hadithNumber languages count' (bookNum + 1)
          end
      | None => first_filtered w collection hadithNumber languages count' (bookNum + 1)
      end
  end.

(** A collection of one book, whose hadith 7 has two translations, and
    of a second book whose hadith 9 has no text. *)
Definition translated_net (url : string) : response :=
  if String.eqb url (collection_url "bukhari")
  then Resp 200 (Json.stringify (JObj [("totalBooks", JNum 2)]))
  else if String.eqb url (book_url "bukhari" 1)
  then Resp 200 (Json.stringify
         (JObj [("content",
                 JArr [JObj [("hadithNumber", JNum 7);
                             ("text", JObj [("arabic", JStr "a");
                                            ("translations",
                                             JObj [("en", JStr "e"); ("ur", JStr "u")])])]])]))
  else if String.eqb url (book_url "bukhari" 2)
  then Resp 200 (Json.stringify
         (JObj [("content", JArr [JObj [("hadithNumber", JNum 9)]])]))
  else Resp 404 "".

Definition translated_world : world :=
  World [] undefined ∅ quiet translated_net 0 [] [].

(** [w1] is [w] for every cache key but [key]. *)
Definition frame_but (key : string) (w w1 : world) : Prop :=
  forall k, k <> key ->
    W.map_has k (cache w1) = W.map_has k (cache w) /\
    W.map_get k (cache w1) = W.map_get k (cache w).

(** The keys of the books from [b] on. *)
Definition later_book (c : string) (b : Z) (k : string) : Prop :=
  exists b', b <= b' /\ k = book_key c b'.

(** [o ?? d] on the result of a lookup. *)
Definition if_null (o d : outcome json) : outcome json :=
  match o with
  | Returned JNull => d
  | _ => o
  end.

(** Every character of the string is a decimal digit. *)
Fixpoint all_digits (s : string) : bool :=
  match s with
  | EmptyString => true
  | String c s' => Str.is_digit c && all_digits s'
  end.

(** The element has no [verse] property equal to the number: reading
    the property gives something else. *)
Definition not_verse (verse : Z) (element : json) : Prop :=
  exists x, Js.get_prop (J element) "verse" = Returned x /\ x <> J (JNum verse).

(** A chapter in which two elements have the verse number 2. *)
Definition doubled_chapter : jsval :=
  J (JObj [("chapter", JNum 1); ("name", JStr "Al-Fatihah");
           ("content", JArr [JObj [("verse", JNum 1); ("arabic", JStr "one")];
                             JObj [("verse", JNum 2); ("arabic", JStr "two")];
                             JObj [("verse", JNum 2); ("arabic", JStr "again")]])]).

(** The document of a cache key and a URL is at hand, and it is the
    map with these fields: the cached value, or else, with nothing cached
    under the key, the body of a response with status 200. *)
Definition document_at (w : world) (key url : string) (fields : list (string * json))
  : Prop :=
  (W.map_has key (cache w) = true /\ W.map_get key (cache w) = J (JObj fields)) \/
  (W.map_has key (cache w) = false /\
   exists body, net w url = Resp 200 body /\ Json.parse body = Some (JObj fields)).

(** The collection document is at hand and its [totalBooks] is [n]. *)
Definition total_books (w : world) (c : string) (n : Z) : Prop :=
  exists fields,
    Json.field "totalBooks" fields = Some (JNum n) /\
    document_at w (collection_key c) (collection_url c) fields.

(** Book [k] of the collection is at hand, and its [content] is the
    list of these records. *)
Definition book_has (w : world) (c : string) (k : Z) (records : list json) : Prop :=
  exists fields,
    Json.field "content" fields = Some (JArr records) /\
    document_at w (book_key c k) (book_url c k) fields.

(** The record has a [hadithNumber], and it is not the number. *)
Definition other_number (h : Z) (record : json) : Prop :=
  exists x, Dart.at_key record "hadithNumber" = Returned x /\ x <> JNum h.

(** [d] is the first record of the list whose [hadithNumber] is [h]. *)
Definition first_with_number (h : Z) (records : list json) (d : json) : Prop :=
  exists before after,
    records = (before ++ d :: after)%list /\
    Dart.at_key d "hadithNumber" = Returned (JNum h) /\
    Forall (other_number h) before.

(** Book [k] has the hadith [h], and [d] is its first record of it. *)
Definition has_hadith (w : world) (c : string) (h k : Z) (d : json) : Prop :=
  exists records, book_has w c k records /\ first_with_number h records d.

(** The URLs of [count] books from book [b] on, in ascending order. *)
Fixpoint book_urls (c : string) (count : nat) (b : Z) : list string :=
  match count with
  | O => []
  | S count' => book_url c b :: book_urls c count' (b + 1)
  end.

End Spec.

(** * Facts *)

Module JsonFacts.
Import Json Spec.

Lemma number_end_fraction r : number_end r = true -> starts_fraction r = false.
Proof.
  destruct r as [|c r]; [reflexivity|]. unfold number_end.
  intros H. apply andb_true_iff in H as [_ H]. apply negb_true_iff in H. exact H.
Qed.

Lemma span_digits_end r : number_end r = true -> span_digits r = (EmptyString, r).
Proof.
  destruct r as [|c r]; [reflexivity|]. unfold number_end. intros H.
  apply andb_true_iff in H as [H _]. apply negb_true_iff in H.
  simpl. rewrite H. reflexivity.
Qed.

Lemma span_digits_uint d r :
  number_end r = true ->
  span_digits (NilEmpty.string_of_uint d +:+ r) = (NilEmpty.string_of_uint d, r).
Proof.
  intros Hr. induction d; simpl; try (rewrite IHd; reflexivity).
  apply span_digits_end, Hr.
Qed.

Lemma to_uint_normal n : N.to_uint n = Decimal.unorm (N.to_uint n).
Proof. rewrite <- (DecimalN.Unsigned.to_of (N.to_uint n)), DecimalN.Unsigned.of_to. reflexivity. Qed.

Lemma unorm_shape d :
  d = Decimal.unorm d -> d = Decimal.D0 Decimal.Nil \/ (d <> Decimal.Nil /\ forall d', d <> Decimal.D0 d').
Proof.
  unfold Decimal.unorm. intros H.
  destruct (Decimal.nzhead d) eqn:E;
    [ left; exact H
    | exfalso; exact (DecimalFacts.nzhead_nonzero _ _ E)
    | right; rewrite H; split; [discriminate | intros d'; discriminate] .. ].
Qed.

Lemma parse_nat_of_N n r :
  number_end r = true -> parse_nat (Str.of_N n +:+ r) = Some (n, r).
Proof.
  intros Hr. unfold parse_nat, Str.of_N. rewrite span_digits_uint by exact Hr.
  rewrite (number_end_fraction r Hr).
  pose proof (NilEmpty.usu (N.to_uint n)) as Hu.
  pose proof (DecimalN.Unsigned.of_to n) as Hn.
  destruct (unorm_shape _ (to_uint_normal n)) as [H0|[Hnil Hnz]].
  - rewrite H0 in *. simpl. rewrite <- Hn. reflexivity.
  - destruct (N.to_uint n) as [|d|d|d|d|d|d|d|d|d|d] eqn:E; try congruence;
      try (exfalso; eapply Hnz; reflexivity);
      rewrite Hu, Hn; reflexivity.
Qed.

Lemma of_N_head n : exists c s, Str.of_N n = String c s /\ Str.is_digit c = true.
Proof.
  unfold Str.of_N. destruct (unorm_shape _ (to_uint_normal n)) as [H0|[Hnil _]].
  - rewrite H0. eexists _, _. split; reflexivity.
  - destruct (N.to_uint n); try congruence; eexists _, _; split; reflexivity.
Qed.

Lemma parse_number_of_Z z r :
  number_end r = true -> parse_number (Str.of_Z z +:+ r) = Some (z, r).
Proof.
  intros Hr. unfold Str.of_Z. destruct (Z.ltb_spec z 0).
  - simpl. rewrite parse_nat_of_N by exact Hr. f_equal. f_equal. lia.
  - destruct (of_N_head (Z.to_N z)) as (c & s & E & Hc).
    pose proof (parse_nat_of_N (Z.to_N z) r Hr) as P.
    rewrite E in *. simpl. simpl in P.
    unfold parse_number.
    destruct c as [[] [] [] [] [] [] [] []]; try discriminate Hc; rewrite P; f_equal; f_equal; lia.
Qed.

Lemma str_app_nil_l (s : string) : "" +:+ s = s.
Proof. reflexivity. Qed.

Lemma str_app_cons c (s t : string) : String c s +:+ t = String c (s +:+ t).
Proof. reflexivity. Qed.

Lemma parse_chars_escape_char c t :
  parse_chars (escape_char c +:+ t) =
  match parse_chars t with
  | Some (u, r) => Some (String c u, r)
  | None => None
  end.
Proof. destruct c as [[] [] [] [] [] [] [] []]; reflexivity. Qed.

Lemma str_app_assoc (s t u : string) : (s +:+ t) +:+ u = s +:+ (t +:+ u).
Proof. induction s as [|c s IH]; [reflexivity|]. rewrite !str_app_cons, IH. reflexivity. Qed.

Lemma parse_chars_escape s r :
  parse_chars (escape s +:+ String "034" r) = Some (s, r).
Proof.
  induction s as [|c s IH]; [reflexivity|].
  cbn [escape]. rewrite str_app_assoc, parse_chars_escape_char, IH. reflexivity.
Qed.


Lemma json_ind' (P : json -> Prop)
  (Hnull : P JNull) (Hbool : forall b, P (JBool b)) (Hnum : forall z, P (JNum z))
  (Hstr : forall s, P (JStr s))
  (Harr : forall l, Forall P l -> P (JArr l))
  (Hobj : forall l, Forall (fun kv => P (snd kv)) l -> P (JObj l)) :
  forall v, P v.
Proof.
  fix IH 1. intros [ | b | z | s | l | l ].
  - exact Hnull.
  - apply Hbool.
  - apply Hnum.
  - apply Hstr.
  - apply Harr. induction l as [|x l IHl]; constructor; [apply IH | exact IHl].
  - apply Hobj. induction l as [|[k x] l IHl]; constructor; [apply IH | exact IHl].
Qed.

Lemma stringify_arr l : stringify (JArr l) = String "[" (print_elems l).
Proof. reflexivity. Qed.

Lemma stringify_obj l : stringify (JObj l) = String "{" (print_members l).
Proof. reflexivity. Qed.

Lemma print_elems_cons x l :
  print_elems (x :: l) =
  stringify x +:+ match l with [] => "]" | _ :: _ => String "," (print_elems l) end.
Proof. destruct l; reflexivity. Qed.

Lemma print_members_cons k x l :
  print_members ((k, x) :: l) =
  quote k +:+ String ":" (stringify x +:+
    match l with [] => "}" | _ :: _ => String "," (print_members l) end).
Proof. destruct l; reflexivity. Qed.

Lemma stringify_head v : exists c s, stringify v = String c s /\ value_start c = true.
Proof.
  destruct v as [ | [] | z | s | l | l ]; try (eexists _, _; split; reflexivity).
  cbn [stringify]. unfold Str.of_Z. destruct (z <? 0).
  - eexists _, _; split; reflexivity.
  - destruct (of_N_head (Z.to_N z)) as (c & s & E & Hc). exists c, s. split; [exact E|].
    unfold value_start. rewrite Hc. reflexivity.
Qed.

Lemma skip_ws_start c s : value_start c = true -> skip_ws (String c s) = String c s.
Proof.
  intros H. cbn [skip_ws].
  destruct c as [[] [] [] [] [] [] [] []]; try discriminate H; reflexivity.
Qed.

Lemma skip_ws_stringify v r : skip_ws (stringify v +:+ r) = stringify v +:+ r.
Proof.
  destruct (stringify_head v) as (c & s & E & Hc). rewrite E, str_app_cons.
  apply skip_ws_start, Hc.
Qed.


Lemma parse_value_arr f r :
  parse_value (S f) (String "[" r) =
  match skip_ws r with
  | String "]" r' => Some (JArr [], r')
  | _ => match parse_elems f r with
         | Some (l, r') => Some (JArr l, r')
         | None => None
         end
  end.
Proof. reflexivity. Qed.

Lemma parse_value_obj f r :
  parse_value (S f) (String "{" r) =
  match skip_ws r with
  | String "}" r' => Some (JObj [], r')
  | _ => match parse_members f r with
         | Some (l, r') => Some (JObj l, r')
         | None => None
         end
  end.
Proof. reflexivity. Qed.

Lemma parse_value_num f c s :
  Str.is_digit c || Ascii.eqb c "-" = true ->
  parse_value (S f) (String c s) =
  match parse_number (String c s) with
  | Some (z, r) => Some (JNum z, r)
  | None => None
  end.
Proof.
  intros H. destruct c as [[] [] [] [] [] [] [] []]; try discriminate H; reflexivity.
Qed.

Lemma parse_elems_S f s :
  parse_elems (S f) s =
  match parse_value f s with
  | Some (v, r) =>
      match skip_ws r with
      | String "," r' =>
          match parse_elems f r' with
          | Some (l, r'') => Some (v :: l, r'')
          | None => None
          end
      | String "]" r' => Some ([v], r')
      | _ => None
      end
  | None => None
  end.
Proof. reflexivity. Qed.

Lemma parse_members_S f r :
  parse_members (S f) (String "034" r) =
  match parse_chars r with
  | Some (k, r1) =>
      match skip_ws r1 with
      | String ":" r2 =>
          match parse_value f r2 with
          | Some (v, r3) =>
              match skip_ws r3 with
              | String "," r4 =>
                  match parse_members f r4 with
                  | Some (l, r5) => Some ((k, v) :: l, r5)
                  | None => None
                  end
              | String "}" r4 => Some ([(k, v)], r4)
              | _ => None
              end
          | None => None
          end
      | _ => None
      end
  | None => None
  end.
Proof. reflexivity. Qed.

Lemma not_close_bracket c s (A : string -> option (json * string)) B :
  value_start c = true ->
  match skip_ws (String c s) with String "]" r' => A r' | _ => B end = B.
Proof.
  intros H. destruct c as [[] [] [] [] [] [] [] []]; try discriminate H; reflexivity.
Qed.

Lemma not_close_brace s (A : string -> option (json * string)) B :
  match skip_ws (String "034" s) with String "}" r' => A r' | _ => B end = B.
Proof. reflexivity. Qed.

Section RoundTrip.

Ltac norm_app := repeat (progress (rewrite ?str_app_assoc, ?str_app_cons, ?str_app_nil_l)).

Lemma parse_elems_print l :
  Forall reads_back l -> l <> [] ->
  forall fuel r, (list_sum (map (fun x => S (jsize x)) l) < fuel)%nat ->
    parse_elems fuel (print_elems l +:+ r) = Some (l, r).
Proof.
  induction 1 as [|x l Hx Hl IH]; [congruence|]. intros _ fuel r Hf.
  destruct fuel as [|f]; [lia|]. cbn [map list_sum] in Hf.
  rewrite parse_elems_S, print_elems_cons.
  destruct l as [|y l]; norm_app;
    (rewrite (Hx f) by (first [simpl in Hf; lia | reflexivity])); [reflexivity|].
  change (skip_ws (String "," ?t)) with (String "," t). cbv iota beta.
  rewrite IH by (first [congruence | simpl in Hf |- *; lia]). reflexivity.
Qed.

Lemma parse_members_print l :
  Forall (fun kv => reads_back (snd kv)) l -> l <> [] ->
  forall fuel r, (list_sum (map (fun kv => S (jsize (snd kv))) l) < fuel)%nat ->
    parse_members fuel (print_members l +:+ r) = Some (l, r).
Proof.
  induction 1 as [|[k x] l Hx Hl IH]; [congruence|]. intros _ fuel r Hf.
  destruct fuel as [|f]; [lia|]. cbn [map list_sum snd] in Hf. cbn [snd] in Hx.
  rewrite print_members_cons. unfold quote at 1.
  destruct l as [|y l]; norm_app;
    rewrite parse_members_S, parse_chars_escape;
    change (skip_ws (String ":" ?t)) with (String ":" t); cbv iota beta;
    (rewrite (Hx f) by (first [simpl in Hf; lia | reflexivity])); [reflexivity|].
  change (skip_ws (String "," ?t)) with (String "," t). cbv iota beta.
  rewrite IH by (first [congruence | simpl in Hf |- *; lia]). reflexivity.
Qed.

Lemma parse_value_stringify v : reads_back v.
Proof.
  induction v as [ | b | z | s | l IH | l IH ] using json_ind';
    intros fuel r Hf Hr; (destruct fuel as [|f]; [cbn in Hf; lia|]).
  - reflexivity.
  - destruct b; reflexivity.
  - cbn [stringify].
    destruct (stringify_head (JNum z)) as (c & s & E & Hc). cbn [stringify] in E.
    pose proof (parse_number_of_Z z r Hr) as P. rewrite E, str_app_cons in *.
    assert (Hd : Str.is_digit c || Ascii.eqb c "-" = true).
    { unfold Str.of_Z in E. destruct (z <? 0).
      - inversion E. apply orb_true_r.
      - destruct (of_N_head (Z.to_N z)) as (c' & s' & E' & Hc').
        rewrite E' in E. inversion E; subst. rewrite Hc'. reflexivity. }
    rewrite (parse_value_num f c _ Hd), P. reflexivity.
  - cbn [stringify]. unfold quote. rewrite !str_app_cons, str_app_assoc, str_app_cons, str_app_nil_l.
    change (parse_value (S f) (String "034" ?t)) with
      (match parse_chars t with Some (u, r') => Some (JStr u, r') | None => None end).
    rewrite parse_chars_escape. reflexivity.
  - rewrite stringify_arr, str_app_cons, parse_value_arr. destruct l as [|x l].
    + reflexivity.
    + destruct (stringify_head x) as (c & s & E & Hc).
      assert (E' : exists s', print_elems (x :: l) +:+ r = String c s').
      { rewrite print_elems_cons, E, !str_app_cons. eauto. }
      destruct E' as [s' E']. rewrite E' at 1. rewrite (not_close_bracket c s' _ _ Hc).
      rewrite parse_elems_print; [reflexivity | exact IH | congruence | cbn in Hf |- *; lia].
  - rewrite stringify_obj, str_app_cons, parse_value_obj. destruct l as [|[k x] l].
    + reflexivity.
    + assert (E' : exists s', print_members ((k, x) :: l) +:+ r = String "034" s').
      { rewrite print_members_cons. unfold quote. rewrite !str_app_cons. eauto. }
      destruct E' as [s' E']. rewrite E' at 1. rewrite not_close_brace.
      rewrite parse_members_print; [reflexivity | exact IH | congruence | cbn in Hf |- *; lia].
Qed.

End RoundTrip.


Lemma str_length_app (s t : string) :
  String.length (s +:+ t) = (String.length s + String.length t)%nat.
Proof. induction s as [|c s IH]; [reflexivity|]. rewrite str_app_cons. cbn [String.length]. lia. Qed.

Lemma str_app_nil_r (s : string) : s +:+ "" = s.
Proof. induction s as [|c s IH]; [reflexivity|]. rewrite str_app_cons, IH. reflexivity. Qed.

Lemma jsize_length v : (jsize v <= String.length (stringify v))%nat.
Proof.
  induction v as [ | b | z | s | l IH | l IH ] using json_ind'.
  - cbn. lia.
  - destruct b; cbn; lia.
  - destruct (stringify_head (JNum z)) as (c & s & E & _). rewrite E. cbn. lia.
  - cbn. lia.
  - rewrite stringify_arr. cbn [jsize String.length]. apply le_n_S.
    induction IH as [|x l Hx Hl IHl]; [cbn; lia|].
    rewrite print_elems_cons, str_length_app. cbn [map list_sum].
    destruct l; unfold list_sum in *; cbn [String.length map fold_right] in *; lia.
  - rewrite stringify_obj. cbn [jsize String.length]. apply le_n_S.
    induction IH as [|[k x] l Hx Hl IHl]; [cbn; lia|].
    rewrite print_members_cons, str_length_app. cbn [String.length].
    rewrite str_length_app.
    destruct l; unfold list_sum in *; cbn [String.length map fold_right snd] in *; lia.
Qed.

(** [JSON.parse(JSON.stringify(v))] is [v]. *)
Lemma parse_stringify v : parse (stringify v) = Some v.
Proof.
  unfold parse.
  pose proof (parse_value_stringify v (S (String.length (stringify v))) "") as H.
  rewrite str_app_nil_r in H. rewrite H; [reflexivity | | reflexivity].
  pose proof (jsize_length v). lia.
Qed.

End JsonFacts.

Module ProgFacts.
Import Prog.

Lemma exec_bind {A B} (p : prog A) (f : A -> prog B) w :
  exec (bind p f) w =
  match exec p w with
  | (Returned a, w') => exec (f a) w'
  | (Thrown e, w') => (Thrown e, w')
  end.
Proof.
  revert w. induction p as [a | e | X e k IH]; intros w; cbn [bind exec]; try reflexivity.
  destruct (handle e w) as [x w']. apply IH.
Qed.

Lemma exec_try_catch {A} (p : prog A) (h : error -> prog A) w :
  exec (try_catch p h) w =
  match exec p w with
  | (Returned a, w') => (Returned a, w')
  | (Thrown e, w') => exec (h e) w'
  end.
Proof.
  revert w. induction p as [a | e | X e k IH]; intros w; cbn [try_catch exec]; try reflexivity.
  destruct (handle e w) as [x w']. apply IH.
Qed.

Lemma exec_lift {A} (o : outcome A) w : exec (lift o) w = (o, w).
Proof. destruct o; reflexivity. Qed.

End ProgFacts.

Module CacheFacts.
Import Prog QuranService ProgFacts Spec.

#[local] Opaque Json.parse Json.stringify.


Ltac case_step :=
  match goal with
  | |- context [if ?b then _ else _] => destruct b eqn:?
  | |- context [match ?x with _ => _ end] => destruct x eqn:?
  end.

Ltac run_exec := repeat (cbn; try case_step).


Lemma stringify_envelope_nonempty data expires cached :
  exists c s, Json.stringify (envelope data expires cached) = String c s.
Proof. unfold envelope. rewrite JsonFacts.stringify_obj. eauto. Qed.

(** C10. [getCachedData] returns for every key and every world, and never
    throws; when the backend raises, the item is absent or the item is
    not JSON, what it returns is [null]. *)
Theorem getCachedData_never_throws key w :
  (exists v w', exec (getCachedData key) w = (Returned v, w')) /\
  (unreadable key w -> fst (exec (getCachedData key) w) = Returned (J JNull)).
Proof.
  split.
  - unfold getCachedData, json_parse. run_exec; eauto.
  - intros [H | [H | (text & H & Hp)]]; unfold getCachedData, json_parse; cbn; rewrite ?H.
    + reflexivity.
    + destruct (raises w _); reflexivity.
    + destruct (raises w _); [reflexivity|]. cbn.
      destruct text; [reflexivity|]. rewrite Hp. reflexivity.
Qed.

Lemma getCachedData_never_throws_witness :
  let w := World [] undefined {[ "quran-chapter-1" := "{oops" ]} quiet (fun _ => NetFail) 0 [] [] in
  unreadable "chapter-1" w /\
  fst (exec (getCachedData "chapter-1") w) = Returned (J JNull).
Proof.
  assert (H : unreadable "chapter-1"
    (World [] undefined {[ "quran-chapter-1" := "{oops" ]} quiet (fun _ => NetFail) 0 [] [])).
  { right. right. exists "{oops". split; [reflexivity | vm_compute; reflexivity]. }
  split; [exact H|]. exact (proj2 (getCachedData_never_throws "chapter-1" _) H).
Defined.


(** *** Writing and reading an item *)

Lemma setCachedData_exec key data ttl w :
  raises w (OpSet ("quran-" +:+ key)) = false ->
  exec (setCachedData key data ttl) w =
  (Returned tt,
   W.emit (StorageSet ("quran-" +:+ key))
     (W.set_storage
        (insert ("quran-" +:+ key)
           (Json.stringify
              (envelope data (if ttl >? 0 then JNum (now w + ttl) else JNull) (now w))))
        w)).
Proof.
  intros H. unfold setCachedData. destruct (ttl >? 0); cbn; rewrite H; reflexivity.
Qed.

(** Reading an item that [setCachedData] wrote. *)
Lemma getCachedData_envelope key data expires cached w :
  raises w (OpGet ("quran-" +:+ key)) = false ->
  storage w !! ("quran-" +:+ key) = Some (Json.stringify (envelope data expires cached)) ->
  exec (getCachedData key) w =
  let w1 := W.emit (StorageGet ("quran-" +:+ key)) w in
  if Json.truthy expires && Js.gt (now w) expires
  then
    if raises w (OpRemove ("quran-" +:+ key))
    then (Returned (J JNull),
          W.print LWarn ("Failed to get cached data for " +:+ key +:+ ":")
            (W.emit (StorageRemove ("quran-" +:+ key)) w1))
    else (Returned (J JNull),
          W.emit (StorageRemove ("quran-" +:+ key))
            (W.set_storage (delete ("quran-" +:+ key)) w1))
  else (Returned (J data), w1).
Proof.
  intros Hg Hs. unfold getCachedData, json_parse. cbn. rewrite Hg, Hs. cbn.
  destruct (stringify_envelope_nonempty data expires cached) as (c & s & E).
  rewrite E, <- E, JsonFacts.parse_stringify. cbn.
  destruct (Json.truthy expires); cbn; [|reflexivity].
  destruct (Js.gt (now w) expires); cbn; [|reflexivity].
  destruct (raises w (OpRemove _)); reflexivity.
Qed.


(** C4, as stated, fails at the instant of expiry: an item written at
    time 1000 with a TTL of 5 has [expires = 1005], and a read at time
    1005, which is not strictly before 1005, still returns the value. *)
Lemma read_at_expiry_is_a_hit :
  let w0 := World [] undefined ∅ quiet (fun _ => NetFail) 1000 [] [] in
  let w1 := snd (exec (setCachedData "k" (JNum 7) 5) w0) in
  storage w1 !! "quran-k" = Some (Json.stringify (envelope (JNum 7) (JNum 1005) 1000)) /\
  ~ (1005 < 1005) /\
  fst (exec (getCachedData "k") (W.set_now 1005 w1)) = Returned (J (JNum 7)).
Proof. vm_compute. repeat split; intros; discriminate. Qed.

(** C4 (amended). [setCachedData] with TTL [ttl] at time [now w] stores
    the value with [expires = now w + ttl] when [ttl > 0] and with
    [expires = null] otherwise. A later read of that item returns the
    same value when the item has no expiry or the read time is at most
    [expires] (the instant of expiry included), and leaves the item in
    place; a read after [expires] returns [null] and removes the item. *)
Theorem cache_round_trip key data ttl w :
  0 <= now w ->
  raises w (OpSet ("quran-" +:+ key)) = false ->
  let sk := "quran-" +:+ key in
  let w1 := snd (exec (setCachedData key data ttl) w) in
  storage w1 !! sk =
    Some (Json.stringify
            (envelope data (if ttl >? 0 then JNum (now w + ttl) else JNull) (now w))) /\
  forall w2,
    storage w2 !! sk = storage w1 !! sk ->
    raises w2 (OpGet sk) = false ->
    let r := exec (getCachedData key) w2 in
    (ttl <= 0 \/ now w2 <= now w + ttl ->
       fst r = Returned (J data) /\ storage (snd r) = storage w2) /\
    (0 < ttl /\ now w + ttl < now w2 ->
       fst r = Returned (J JNull) /\
       (raises w2 (OpRemove sk) = false -> storage (snd r) = delete sk (storage w2))).
Proof.
  intros Hnow Hset sk w1. subst sk w1.
  rewrite (setCachedData_exec key data ttl w Hset). cbn [snd].
  assert (Hst : storage (W.emit (StorageSet ("quran-" +:+ key))
                  (W.set_storage (insert ("quran-" +:+ key)
                     (Json.stringify (envelope data
                        (if ttl >? 0 then JNum (now w + ttl) else JNull) (now w)))) w))
                !! ("quran-" +:+ key)
                = Some (Json.stringify (envelope data
                        (if ttl >? 0 then JNum (now w + ttl) else JNull) (now w)))).
  { cbn. apply lookup_insert_eq. }
  split; [exact Hst|]. intros w2 Hs Hg. rewrite Hst in Hs.
  rewrite (getCachedData_envelope key data _ (now w) w2 Hg Hs). cbv zeta.
  destruct (Z.gtb_spec ttl 0) as [Hpos | Hnpos].
  - cbn [Json.truthy Js.gt Js.to_number].
    assert (Hnz : (now w + ttl =? 0) = false) by (apply Z.eqb_neq; lia).
    rewrite Hnz. cbn [negb andb].
    destruct (Z.gtb_spec (now w2) (now w + ttl)) as [Hgt | Hle].
    + split; [intros [?|?]; lia|]. intros _.
      destruct (raises w2 (OpRemove _)); cbn; split; try reflexivity; intros; discriminate.
    + split; [intros _; split; reflexivity|]. intros [_ ?]; lia.
  - cbn. split; [intros _; split; reflexivity|]. intros [? _]; lia.
Qed.

Lemma cache_round_trip_witness :
  let w := World [] undefined ∅ quiet (fun _ => NetFail) 1000 [] [] in
  let w1 := snd (exec (setCachedData "k" (JNum 7) 5) w) in
  fst (exec (getCachedData "k") (W.set_now 1005 w1)) = Returned (J (JNum 7)) /\
  fst (exec (getCachedData "k") (W.set_now 1006 w1)) = Returned (J JNull).
Proof.
  intros w w1.
  assert (H0 : 0 <= now w) by (cbn; lia).
  assert (H1 : raises w (OpSet ("quran-" +:+ "k")) = false) by reflexivity.
  destruct (cache_round_trip "k" (JNum 7) 5 w H0 H1) as [_ H].
  split.
  - refine (proj1 (proj1 (H (W.set_now 1005 w1) eq_refl eq_refl) _)).
    right. cbn. lia.
  - refine (proj1 (proj2 (H (W.set_now 1006 w1) eq_refl eq_refl) _)).
    cbn. lia.
Defined.


(** *** Clearing *)

Lemma sweep_lookup keys (m : gmap string string) k :
  sweep keys m !! k =
  if Str.startsWith k "quran-" && bool_decide (k ∈ keys) then None else m !! k.
Proof.
  revert m. induction keys as [|k' keys IH]; intros m; cbn [sweep foldl].
  - rewrite andb_false_r. reflexivity.
  - fold (sweep keys (if Str.startsWith k' "quran-" then delete k' m else m)).
    rewrite IH. destruct (decide (k = k')) as [->|Hne].
    + rewrite (bool_decide_eq_true_2 (k' ∈ k' :: keys)) by left.
      destruct (Str.startsWith k' "quran-"); cbn; [|reflexivity].
      rewrite lookup_delete_eq. destruct (bool_decide _); reflexivity.
    + assert (Hb : bool_decide (k ∈ k' :: keys) = bool_decide (k ∈ keys)).
      { apply bool_decide_ext. rewrite elem_of_cons. split; [intros [?|?]; [congruence|assumption] | auto]. }
      rewrite Hb. destruct (Str.startsWith k' "quran-").
      * rewrite lookup_delete_ne by congruence. reflexivity.
      * reflexivity.
Qed.

Lemma exec_sweep keys w :
  (forall k, raises w (OpRemove k) = false) ->
  exists w',
    exec (for_each keys (fun key =>
            if Str.startsWith key "quran-" then attempt (RemoveItem key) else Ret tt)) w
    = (Returned tt, w') /\
    storage w' = sweep keys (storage w) /\ cache w' = cache w /\ raises w' = raises w.
Proof.
  revert w. induction keys as [|k keys IH]; intros w Hq.
  - exists w. repeat split; reflexivity.
  - cbn [for_each]. rewrite exec_bind. destruct (Str.startsWith k "quran-") eqn:Hk.
    + cbn [attempt exec handle]. rewrite Hq. cbv iota beta. cbn [exec].
      destruct (IH (W.emit (StorageRemove k) (W.set_storage (delete k) w)) Hq)
        as (w' & He & Hs & Hc & Hr).
      exists w'. rewrite He. cbn [sweep foldl]. rewrite Hk. repeat split; assumption.
    + cbn [exec]. destruct (IH w Hq) as (w' & He & Hs & Hc & Hr).
      exists w'. rewrite He. cbn [sweep foldl]. rewrite Hk. repeat split; assumption.
Qed.

(** C9. When the backend raises neither on listing its keys nor on
    removing one, [clearCache] returns with the memory cache empty, every
    storage key that starts with [quran-] removed, and every other key as
    it was. *)
Theorem clearCache_clears_namespace w :
  raises w OpKeys = false ->
  (forall k, raises w (OpRemove k) = false) ->
  let r := exec clearCache w in
  fst r = Returned tt /\
  cache (snd r) = [] /\
  forall k, storage (snd r) !! k =
            if Str.startsWith k "quran-" then None else storage w !! k.
Proof.
  intros Hk Hr r. subst r. unfold clearCache.
  cbn [bind try_catch perform attempt exec handle].
  cbn [W.emit W.set_cache W.print raises storage cache].
  rewrite Hk. rewrite exec_try_catch, exec_bind. cbn [exec]. rewrite exec_bind.
  match goal with |- context [exec (for_each ?l ?f) ?w0] =>
    destruct (exec_sweep l w0) as (w' & He & Hs & Hc & _); [exact Hr|] end.
  rewrite He. cbn [perform exec handle fst snd W.print cache storage].
  split; [reflexivity|]. split; [exact Hc|].
  intros k. rewrite Hs, sweep_lookup. cbn [storage W.emit W.set_cache W.print].
  destruct (Str.startsWith k "quran-"); [|reflexivity]. cbn [andb].
  case_bool_decide as Hin; [reflexivity|].
  destruct (storage w !! k) as [v|] eqn:E; [|reflexivity].
  exfalso. apply Hin. apply list_elem_of_In, in_map_iff. exists (k, v). split; [reflexivity|].
  apply list_elem_of_In, elem_of_map_to_list, E.
Qed.

Lemma clearCache_clears_namespace_witness :
  let w := World [("chapter-1", J JNull)] undefined
             {[ "quran-chapter-1" := "x"; "theme" := "dark" ]}
             quiet (fun _ => NetFail) 0 [] [] in
  cache (snd (exec clearCache w)) = [] /\
  storage (snd (exec clearCache w)) !! "quran-chapter-1" = None /\
  storage (snd (exec clearCache w)) !! "theme" = Some "dark".
Proof.
  intros w.
  destruct (clearCache_clears_namespace w eq_refl (fun _ => eq_refl)) as (_ & Hc & Hs).
  split; [exact Hc|]. split.
  - exact (Hs "quran-chapter-1").
  - exact (Hs "theme").
Defined.

End CacheFacts.

Module Writes.
Import Prog ProgFacts Spec.

Lemma handle_now {X} (e : eff X) w : now (snd (handle e w)) = now w.
Proof.
  destruct e; cbn; try reflexivity;
    match goal with |- context [if ?b then _ else _] => destruct b; reflexivity end.
Qed.

Lemma handle_storage {X} (e : eff X) w k v :
  storage (snd (handle e w)) !! k = Some v ->
  storage w !! k = Some v \/ written e = Some (k, v).
Proof.
  destruct e; cbn; auto;
    match goal with |- context [if ?b then _ else _] => destruct b; cbn; auto end.
  - rewrite lookup_insert. case_decide; [|auto]. intros [= <-]. subst. auto.
  - rewrite lookup_delete. case_decide; [discriminate|auto].
Qed.

Lemma respects_exec t good {A} (p : prog A) w :
  now w = t -> respects t good p ->
  forall k v, storage (snd (exec p w)) !! k = Some v ->
              storage w !! k = Some v \/ good k v.
Proof.
  revert w. induction p as [a | e | X e k IH]; intros w Ht Hp key v; cbn [exec snd]; auto.
  cbn [respects] in Hp.
  destruct (handle e w) as [x w'] eqn:Hh.
  assert (Hw' : w' = snd (handle e w)) by (rewrite Hh; reflexivity).
  intros Hl. destruct (clock_answer e) as [c|] eqn:Hc.
  - destruct e; try discriminate Hc. injection Hc as <-. cbn in Hh. injection Hh as <- <-.
    subst t. apply (IH _ w eq_refl Hp _ _ Hl).
  - destruct Hp as [Hgood Hk].
    destruct (IH x w' (eq_trans (eq_trans (f_equal now Hw') (handle_now e w)) Ht) (Hk x) _ _ Hl)
      as [Hold | Hg]; [|auto].
    rewrite Hw' in Hold. destruct (handle_storage e w _ _ Hold) as [?|Hwr]; [auto|].
    rewrite Hwr in Hgood. auto.
Qed.

Lemma respects_bind t good {A B} (p : prog A) (f : A -> prog B) :
  respects t good p -> (forall a, respects t good (f a)) -> respects t good (bind p f).
Proof.
  intros Hp Hf. induction p as [a | e | X e k IH]; cbn [bind respects] in *; auto.
  destruct (clock_answer e); [auto|]. destruct Hp as [Hg Hk]. auto.
Qed.

Lemma respects_try_catch t good {A} (p : prog A) (h : error -> prog A) :
  respects t good p -> (forall e, respects t good (h e)) -> respects t good (try_catch p h).
Proof.
  intros Hp Hh. induction p as [a | e | X e k IH]; cbn [try_catch respects] in *; auto.
  destruct (clock_answer e); [auto|]. destruct Hp as [Hg Hk]. auto.
Qed.

Lemma respects_lift t good {A} (o : outcome A) : respects t good (lift o).
Proof. destruct o; exact I. Qed.

End Writes.

Module LoadFacts.
Import Prog QuranService ProgFacts CacheFacts Writes Spec.

#[local] Opaque Json.parse Json.stringify.

Lemma getCachedData_respects t good key : respects t good (getCachedData key).
Proof.
  unfold getCachedData, json_parse.
  repeat (cbn; first [ exact I | split | intro | case_step ]).
Qed.

Lemma setCachedData_respects t key data ttl :
  0 < ttl -> respects t (stamped ("quran-" +:+ key) ttl t) (setCachedData key data ttl).
Proof.
  intros H. unfold setCachedData. apply Z.gtb_lt in H. rewrite H. cbn.
  split; [split; [reflexivity | eauto] |]. intros [|]; cbn; auto.
Qed.

Ltac respects_step :=
  first
    [ exact I
    | apply getCachedData_respects
    | apply setCachedData_respects; reflexivity
    | apply respects_lift
    | reflexivity
    | eexists; reflexivity
    | apply respects_bind
    | apply respects_try_catch
    | progress cbn [respects clock_answer written perform attempt fetch]
    | split
    | intro
    | match goal with
      | |- respects _ _ (if ?b then _ else _) => destruct b
      | |- respects _ _ (match ?x with _ => _ end) => destruct x
      end ].

Lemma loadQuranIndex_respects this t :
  respects t (stamped ("quran-" +:+ "quran-index") 86400000 t) (loadQuranIndex this).
Proof.
  unfold loadQuranIndex, json_parse.
  change (24 * 60 * 60 * 1000) with 86400000.
  repeat respects_step.
Qed.

Lemma loadChapter_respects this n t :
  respects t (stamped ("quran-" +:+ "chapter-" +:+ Str.of_Z n) 604800000 t)
    (loadChapter this n).
Proof.
  unfold loadChapter, json_parse.
  change (7 * 24 * 60 * 60 * 1000) with 604800000.
  repeat respects_step.
Qed.


(** C2, as stated, fails on both writes of the class: at time 1000 the
    index is stored with [expires] one day later, not seven, and a
    chapter with [expires] seven days later, not thirty. *)
Lemma ttl_is_one_day_and_seven_days :
  let w := World [] undefined ∅ quiet (fun _ => Resp 200 "{}") 1000 [] [] in
  storage (snd (exec (loadQuranIndex default_config) w)) !! "quran-quran-index"
    = Some (Json.stringify (envelope (JObj []) (JNum (1000 + 86400000)) 1000)) /\
  1000 + 86400000 <> 1000 + 7 * 86400000 /\
  storage (snd (exec (loadChapter default_config 2) w)) !! "quran-chapter-2"
    = Some (Json.stringify (envelope (JObj []) (JNum (1000 + 7 * 86400000)) 1000)) /\
  1000 + 7 * 86400000 <> 1000 + 30 * 86400000.
Proof. vm_compute. repeat split; intros; discriminate. Qed.

(** C2 (amended). Whatever [loadQuranIndex] leaves in the storage that
    was not there before is the index item, stamped with a TTL of one day
    (24 h); whatever [loadChapter] leaves that was not there before is the
    item of that chapter, stamped with a TTL of seven days. *)
Theorem writes_carry_fixed_ttl this w :
  (forall k v,
     storage (snd (exec (loadQuranIndex this) w)) !! k = Some v ->
     storage w !! k = Some v \/
     stamped ("quran-" +:+ "quran-index") 86400000 (now w) k v) /\
  (forall n k v,
     storage (snd (exec (loadChapter this n) w)) !! k = Some v ->
     storage w !! k = Some v \/
     stamped ("quran-" +:+ "chapter-" +:+ Str.of_Z n) 604800000 (now w) k v).
Proof.
  split.
  - apply (respects_exec (now w)); [reflexivity | apply loadQuranIndex_respects].
  - intros n. apply (respects_exec (now w)); [reflexivity | apply loadChapter_respects].
Qed.

Lemma writes_carry_fixed_ttl_witness :
  let w := World [] undefined ∅ quiet (fun _ => Resp 200 "{}") 1000 [] [] in
  stamped "quran-quran-index" 86400000 1000 "quran-quran-index"
    (Json.stringify (envelope (JObj []) (JNum 86401000) 1000)) /\
  stamped "quran-chapter-2" 604800000 1000 "quran-chapter-2"
    (Json.stringify (envelope (JObj []) (JNum 604801000) 1000)).
Proof.
  intros w. destruct (writes_carry_fixed_ttl default_config w) as [Hi Hc]. split.
  - destruct (Hi "quran-quran-index"
                (Json.stringify (envelope (JObj []) (JNum 86401000) 1000)))
      as [Hold|Hs]; [vm_compute; reflexivity | vm_compute in Hold; discriminate | exact Hs].
  - destruct (Hc 2 "quran-chapter-2"
                (Json.stringify (envelope (JObj []) (JNum 604801000) 1000)))
      as [Hold|Hs]; [vm_compute; reflexivity | vm_compute in Hold; discriminate | exact Hs].
Defined.

(** *** Falling back to the storage *)

Lemma expired_at_num t e : expired_at t (JNum e) = true <-> e <> 0 /\ e < t.
Proof.
  unfold expired_at. cbn. rewrite andb_true_iff, negb_true_iff, Z.eqb_neq, Z.gtb_lt.
  reflexivity.
Qed.

Lemma expired_at_null t : expired_at t JNull = false.
Proof. reflexivity. Qed.

Lemma getCachedData_absent key w :
  raises w (OpGet ("quran-" +:+ key)) = false ->
  storage w !! ("quran-" +:+ key) = None ->
  exec (getCachedData key) w =
  (Returned (J JNull), W.emit (StorageGet ("quran-" +:+ key)) w).
Proof. intros Hg Hs. unfold getCachedData. cbn. rewrite Hg, Hs. reflexivity. Qed.


#[local] Arguments getCachedData : simpl never.
#[local] Arguments setCachedData : simpl never.

Ltac side := cbn; rewrite ?lookup_delete_eq; first [assumption | reflexivity].

Ltac use_hyp :=
  match goal with
  | H : net _ _ = _ |- _ => rewrite H
  | H : Js.ok _ = _ |- _ => rewrite H
  | H : Json.truthy _ = _ |- _ => rewrite H
  | H : Json.truthy _ && Js.gt _ _ = _ |- _ => rewrite H
  | H : raises _ _ = _ |- _ => rewrite H
  end.

Ltac walk :=
  repeat first
    [ rewrite exec_bind
    | rewrite exec_try_catch
    | rewrite getCachedData_absent by side
    | match goal with
      | Hs : storage _ !! _ = Some (Json.stringify (envelope ?d ?e ?c)) |- _ =>
          rewrite (getCachedData_envelope _ d e c) by side
      end
    | use_hyp
    | match goal with
      | |- context [if raises ?w ?o then _ else _] => destruct (raises w o) eqn:?
      end
    | progress cbn [exec handle perform attempt fetch lift fst snd negb
                    bind try_catch Json.truthy_val Json.truthy
                    net now raises storage cache
                    W.emit W.print W.set_cache W.set_storage]
    | progress cbv zeta ].

(** C1, as stated, fails for an expired item: with the item of chapter 1
    stored and expired (expires 500, read at 1000), an empty memory cache
    and a failing network, [loadChapter(1)] throws the error of the fetch
    instead of returning the stored value, with the default configuration
    and with [offlineFirst] disabled alike. *)
Lemma expired_item_is_no_fallback :
  let item := Json.stringify (envelope (JObj [("chapter", JNum 1)]) (JNum 500) 100) in
  let w := World [] undefined {[ "quran-chapter-1" := item ]}
             quiet (fun _ => NetFail) 1000 [] [] in
  let online := Config (baseUrl default_config) false [] [] in
  storage w !! "quran-chapter-1" = Some item /\
  fst (exec (loadChapter default_config 1) w) = Thrown fetch_failed /\
  fst (exec (loadChapter online 1) w) = Thrown fetch_failed.
Proof. vm_compute. repeat split. Qed.

Lemma map_get_set k v m : W.map_get k (W.map_set k v m) = v.
Proof.
  induction m as [|[k' v'] m IH]; cbn.
  - rewrite String.eqb_refl. reflexivity.
  - destruct (String.eqb k k') eqn:E; cbn; rewrite ?String.eqb_refl, ?E; auto.
Qed.

Lemma in_range n : 1 <= n <= 114 -> (n <? 1) || (n >? 114) = false.
Proof.
  intros H. apply orb_false_iff.
  split; [apply Z.ltb_ge | rewrite Z.gtb_ltb; apply Z.ltb_ge]; lia.
Qed.

(** An item that is not JSON reads as a miss, and stays where it is. *)
Lemma getCachedData_unreadable key w text :
  raises w (OpGet ("quran-" +:+ key)) = false ->
  storage w !! ("quran-" +:+ key) = Some text ->
  Json.parse text = None ->
  exists w',
    exec (getCachedData key) w = (Returned (J JNull), w') /\
    storage w' = storage w /\ raises w' = raises w /\ net w' = net w.
Proof.
  intros Hg Hs Hp. unfold getCachedData, json_parse.
  rewrite exec_try_catch, exec_bind. cbn [attempt exec handle]. rewrite Hg, Hs.
  cbn [exec]. destruct text as [|c t].
  - cbn [exec]. eexists. split; [reflexivity|]. repeat split.
  - rewrite Hp. cbn [bind exec perform handle]. eexists. split; [reflexivity|]. repeat split.
Qed.

Lemma unreadable_fallback this n w err text :
  1 <= n <= 114 ->
  W.map_has (chapter_key n) (cache w) = false ->
  failure n (net w (chapter_url this n)) = Some err ->
  raises w (OpGet ("quran-" +:+ chapter_key n)) = false ->
  storage w !! ("quran-" +:+ chapter_key n) = Some text ->
  Json.parse text = None ->
  fst (exec (loadChapter this n) w) = Thrown err.
Proof.
  intros Hn Hm Hf Hg Hs Hp. unfold loadChapter.
  rewrite (in_range n Hn). fold (chapter_key n). fold (chapter_url this n).
  rewrite exec_bind. cbn [perform exec handle]. rewrite Hm. rewrite exec_bind.
  set (w0 := W.emit (CacheRead (chapter_key n)) w).
  assert (Hread : forall w2,
            storage w2 = storage w -> raises w2 = raises w ->
            exists w3, exec (getCachedData (chapter_key n)) w2 = (Returned (J JNull), w3) /\
                       storage w3 = storage w /\ raises w3 = raises w /\ net w3 = net w2).
  { intros w2 Hs2 Hr2.
    destruct (getCachedData_unreadable (chapter_key n) w2 text) as (w3 & He & H1 & H2 & H3);
      [congruence | congruence | exact Hp |].
    exists w3. split; [exact He|]. repeat split; congruence. }
  assert (Hhit : exists w1,
    exec (if offlineFirst this
          then let* cached := getCachedData (chapter_key n) in
               if Json.truthy_val cached
               then perform (CacheSet (chapter_key n) cached) ;;;
                    perform (Console LLog ("Loaded chapter " +:+ Str.of_Z n +:+ " from cache")) ;;;
                    Ret (Some cached)
               else Ret None
          else Ret None) w0 = (Returned None, w1) /\
    storage w1 = storage w /\ raises w1 = raises w /\ net w1 = net w).
  { destruct (offlineFirst this).
    - rewrite exec_bind.
      destruct (Hread w0 eq_refl eq_refl) as (w1 & -> & H1 & H2 & H3).
      cbn [Json.truthy_val Json.truthy exec]. exists w1. split; [reflexivity|]. auto.
    - eexists. split; [reflexivity|]. repeat split. }
  destruct Hhit as (w1 & -> & Hs1 & Hr1 & Hn1).
  rewrite exec_try_catch, !exec_bind. cbn [perform exec handle].
  rewrite exec_bind. unfold fetch. cbn [exec handle].
  cbn [net W.print W.emit]. rewrite Hn1.
  unfold failure in Hf.
  assert (Hcatch : forall w2 e,
            storage w2 = storage w -> raises w2 = raises w ->
            fst (exec (perform (Console LError ("Failed to load chapter " +:+ Str.of_Z n +:+ ":")) ;;;
                       let* cached := getCachedData (chapter_key n) in
                       if Json.truthy_val cached
                       then perform (Console LLog ("Using cached chapter " +:+ Str.of_Z n +:+
                                                   " as fallback")) ;;;
                            perform (CacheSet (chapter_key n) cached) ;;;
                            Ret cached
                       else Throw e) w2) = Thrown e).
  { intros w2 e Hs2 Hr2. rewrite exec_bind. cbn [perform exec handle]. rewrite exec_bind.
    destruct (Hread (W.print LError ("Failed to load chapter " +:+ Str.of_Z n +:+ ":") w2))
      as (w3 & -> & _); [exact Hs2 | exact Hr2 |].
    reflexivity. }
  destruct (net w (chapter_url this n)) as [|status body].
  - injection Hf as <-. cbn [exec]. apply Hcatch; [exact Hs1 | exact Hr1].
  - cbn [exec]. cbv beta iota zeta.
    destruct (Js.ok status); [discriminate Hf|]. injection Hf as <-.
    cbn [negb exec]. cbv beta iota.
    apply Hcatch; [exact Hs1 | exact Hr1].
Qed.

(** C1 (amended). For a chapter number in 1..114 that is not in the
    memory cache, when the fetch fails (rejected, or a status outside
    200..299), [loadChapter] falls back to the TTL-checked read of the
    storage: with no item stored the call fails with the error of the
    fetch; with an expired item it fails in the same way and the item is
    removed; with an item that is not expired it returns the stored data
    (when the data is truthy) and puts it into the memory cache. The
    items are those [setCachedData] writes: [expires] is [null] or a
    number. An item that is not JSON counts as a miss as well: the call
    fails with the error of the fetch. *)
Theorem loadChapter_falls_back_to_valid_item this n w err :
  1 <= n <= 114 ->
  W.map_has (chapter_key n) (cache w) = false ->
  failure n (net w (chapter_url this n)) = Some err ->
  raises w (OpGet ("quran-" +:+ chapter_key n)) = false ->
  let sk := "quran-" +:+ chapter_key n in
  let r := exec (loadChapter this n) w in
  (storage w !! sk = None -> fst r = Thrown err) /\
  (forall data expires cached,
     expiry expires ->
     storage w !! sk = Some (Json.stringify (envelope data expires cached)) ->
     (expired_at (now w) expires = true ->
        fst r = Thrown err /\
        (raises w (OpRemove sk) = false -> storage (snd r) !! sk = None)) /\
     (expired_at (now w) expires = false -> Json.truthy data = true ->
        fst r = Returned (J data) /\
        W.map_get (chapter_key n) (cache (snd r)) = J data) /\
     (expired_at (now w) expires = false -> Json.truthy data = false ->
        fst r = Thrown err)) /\
  (forall text,
     storage w !! sk = Some text -> Json.parse text = None -> fst r = Thrown err).
Proof.
  intros Hn Hm Hf Hg sk r.
  assert (Hunreadable : forall text,
            storage w !! sk = Some text -> Json.parse text = None -> fst r = Thrown err)
    by (intros text Hs Hp; exact (unreadable_fallback this n w err text Hn Hm Hf Hg Hs Hp)).
  match goal with
  | |- ?A /\ ?B /\ _ =>
      cut (A /\ B);
      [intros [HA HB]; split; [exact HA | split; [exact HB | exact Hunreadable]] |]
  end.
  clear Hunreadable.
  subst sk r. unfold loadChapter.
  rewrite (in_range n Hn). fold (chapter_key n). fold (chapter_url this n).
  unfold failure in Hf.
  cbn [bind perform exec handle]. rewrite Hm.
  destruct (net w (chapter_url this n)) as [|status body] eqn:Hnet;
    [ injection Hf as <-
    | destruct (Js.ok status) eqn:Hok; [discriminate Hf | injection Hf as <-] ].
  all: split; [intros Hs | intros data expires cached _ Hs; unfold expired_at; repeat split].
  all: try intros He; try intros Ht.
  all: destruct (offlineFirst this); walk.
  all: repeat split; intros;
    first [ reflexivity | apply lookup_delete_eq | apply map_get_set
          | cbn [raises W.emit W.print W.set_storage W.set_cache] in *; congruence ].
Qed.

Lemma loadChapter_falls_back_to_valid_item_witness :
  let item := Json.stringify (envelope (JObj [("chapter", JNum 1)]) (JNum 5000) 100) in
  let w := World [] undefined {[ "quran-chapter-1" := item ]}
             quiet (fun _ => NetFail) 1000 [] [] in
  let online := Config (baseUrl default_config) false [] [] in
  fst (exec (loadChapter online 1) w) = Returned (J (JObj [("chapter", JNum 1)])) /\
  fst (exec (loadChapter online 1) (W.set_now 5001 w)) = Thrown fetch_failed.
Proof.
  intros item w online.
  assert (Hn : 1 <= 1 <= 114) by lia.
  split.
  - destruct (loadChapter_falls_back_to_valid_item online 1 w fetch_failed
                Hn eq_refl eq_refl eq_refl) as (_ & H & _).
    destruct (H (JObj [("chapter", JNum 1)]) (JNum 5000) 100
                (or_intror (ex_intro _ 5000 eq_refl)) eq_refl) as (_ & H2 & _).
    exact (proj1 (H2 eq_refl eq_refl)).
  - destruct (loadChapter_falls_back_to_valid_item online 1 (W.set_now 5001 w) fetch_failed
                Hn eq_refl eq_refl eq_refl) as (_ & H & _).
    destruct (H (JObj [("chapter", JNum 1)]) (JNum 5000) 100
                (or_intror (ex_intro _ 5000 eq_refl)) eq_refl) as (H1 & _).
    exact (proj1 (H1 eq_refl)).
Defined.
End LoadFacts.

Module Footprint.
Import Prog ProgFacts Spec.

Lemma only_bind P {A B} (p : prog A) (f : A -> prog B) :
  only P p -> (forall a, only P (f a)) -> only P (bind p f).
Proof.
  intros Hp Hf. induction p as [a | e | X e k IH]; cbn [bind only] in *; auto.
  destruct Hp as [He Hk]. auto.
Qed.

Lemma only_try_catch P {A} (p : prog A) (h : error -> prog A) :
  only P p -> (forall e, only P (h e)) -> only P (try_catch p h).
Proof.
  intros Hp Hh. induction p as [a | e | X e k IH]; cbn [try_catch only] in *; auto.
  destruct Hp as [He Hk]. auto.
Qed.

Lemma only_lift P {A} (o : outcome A) : only P (lift o).
Proof. destruct o; exact I. Qed.

(** A relation between worlds that every allowed effect keeps, and that
    is reflexive and transitive, holds between the two ends of a run. *)
Lemma only_exec P (R : world -> world -> Prop) {A} (p : prog A) w :
  (forall w, R w w) ->
  (forall w1 w2 w3, R w1 w2 -> R w2 w3 -> R w1 w3) ->
  (forall X (e : eff X) w, P X e -> R w (snd (handle e w))) ->
  only P p -> R w (snd (exec p w)).
Proof.
  intros Hrefl Htrans Hstep. revert w.
  induction p as [a | e | X e k IH]; intros w Hp; cbn [exec snd]; auto.
  destruct Hp as [He Hk]. specialize (Hstep _ e w He).
  destruct (handle e w) as [x w']. cbn [snd] in Hstep.
  exact (Htrans _ _ _ Hstep (IH x w' (Hk x))).
Qed.

End Footprint.

Module SearchFacts.
Import Prog QuranService ProgFacts Footprint Spec.

#[local] Opaque Json.parse Json.stringify.

Lemma searched_refl this w : searched this w w.
Proof. split; [reflexivity|]. exists []. rewrite app_nil_r. auto. Qed.

Lemma searched_trans this w1 w2 w3 :
  searched this w1 w2 -> searched this w2 w3 -> searched this w1 w3.
Proof.
  intros [Hc1 (s1 & H1 & F1)] [Hc2 (s2 & H2 & F2)]. split; [congruence|].
  exists (s1 ++ s2)%list. rewrite H2, H1, app_assoc. split; [reflexivity|].
  apply Forall_app; auto.
Qed.

Lemma requests_emit e tr :
  Loop.requests (tr ++ [e]) =
  (Loop.requests tr ++ match e with Fetch url => [url] | _ => [] end)%list.
Proof. unfold Loop.requests. rewrite omap_app. destruct e; reflexivity. Qed.

Lemma searched_same this w w' :
  cache w' = cache w -> trace w' = trace w -> searched this w w'.
Proof.
  intros Hc Ht. split; [exact Hc|]. exists []. rewrite Ht, app_nil_r. auto.
Qed.

Lemma searched_emit this e w w' :
  match e with Fetch url => url = index_url this | _ => True end ->
  cache w' = cache w -> trace w' = (trace w ++ [e])%list -> searched this w w'.
Proof.
  intros He Hc Ht. split; [exact Hc|]. rewrite Ht, requests_emit.
  eexists. split; [reflexivity|]. destruct e; auto.
Qed.

Lemma searched_step this X (e : eff X) w :
  reads_only this X e -> searched this w (snd (handle e w)).
Proof.
  destruct e; cbn [reads_only handle]; intros H; try contradiction;
    try match goal with |- context [if ?b then _ else _] => destruct b end;
    cbn [snd];
    first [ apply searched_same; reflexivity
          | eapply searched_emit; [ | reflexivity | reflexivity ]; first [exact I | exact H] ].
Qed.

Lemma getCachedData_reads_only this key : only (reads_only this) (getCachedData key).
Proof.
  unfold getCachedData, json_parse.
  repeat (cbn; first [ exact I | split | intro | CacheFacts.case_step ]).
Qed.

Lemma setCachedData_reads_only this key data ttl :
  only (reads_only this) (setCachedData key data ttl).
Proof.
  unfold setCachedData.
  repeat (cbn; first [ exact I | split | intro | CacheFacts.case_step ]).
Qed.

Ltac only_step this :=
  first
    [ exact I
    | reflexivity
    | apply getCachedData_reads_only
    | apply setCachedData_reads_only
    | apply only_lift
    | apply only_bind
    | apply only_try_catch
    | progress cbn [only reads_only perform attempt fetch]
    | split
    | intro
    | match goal with
      | |- only _ (if ?b then _ else _) => destruct b
      | |- only _ (match ?x with _ => _ end) => destruct x
      end ].

Lemma loadQuranIndex_reads_only this : only (reads_only this) (loadQuranIndex this).
Proof.
  unfold loadQuranIndex, json_parse. fold (index_url this).
  repeat only_step this.
Qed.


(** *** What a search finds *)

Section Hits.

Variable term : string.
Variable options : search_options.

Lemma scan_verses_spec chapter verses acc rs :
  scan_verses term options chapter verses acc = Returned rs ->
  exists p,
    rs = (acc ++ p)%list /\
    p `prefix_of` omap (verse_hit term options chapter) verses /\
    (Z.of_nat (length rs) < limit options -> p = omap (verse_hit term options chapter) verses) /\
    Z.of_nat (length rs) <= Z.max (limit options) (Z.of_nat (length acc) + 1).
Proof.
  revert acc. induction verses as [|verse rest IH]; intros acc H; cbn [scan_verses] in H.
  - injection H as <-. exists []. rewrite app_nil_r. repeat split; [reflexivity | lia].
  - cbn [omap list_omap]. remember (verse_hit term options chapter verse) as hit eqn:Hh.
    unfold verse_hit in Hh.
    destruct (translationText options verse) as [[|[ | | | text | | ]]|]; try discriminate H.
    destruct (Str.includes (Str.toLowerCase text) term); [|subst hit; apply IH, H].
    + destruct (Js.get_prop chapter "chapter") as [c|]; [|discriminate H].
      destruct (Js.get_prop verse "verse") as [v|]; [|discriminate H].
      destruct (Js.get_prop verse "arabic") as [a|]; [|discriminate H].
      destruct (Js.get_prop verse "transliteration") as [t|]; [|discriminate H].
      subst hit.
      destruct (Z.geb_spec (Z.of_nat (length (acc ++ [VerseMatch c v a text t]))) (limit options))
        as [Hge | Hlt].
      * injection H as <-. exists [VerseMatch c v a text t].
        rewrite length_app in *. cbn [length] in *.
        repeat split; [ eexists; reflexivity | lia | lia ].
      * destruct (IH _ H) as (p & -> & Hp & Hfull & Hcap).
        exists (VerseMatch c v a text t :: p). rewrite <- app_assoc.
        cbn [app] in *. rewrite ?length_app in *. cbn [length] in *.
        repeat split.
        -- destruct Hp as [k ->]. eexists; reflexivity.
        -- intros Hl. f_equal. apply Hfull. lia.
        -- lia.
Qed.

Lemma scan_entries_spec entries acc rs :
  scan_entries term options entries acc = Returned rs ->
  exists p,
    rs = (acc ++ p)%list /\
    p `prefix_of` all_hits term options entries /\
    (Z.of_nat (length rs) < limit options -> p = all_hits term options entries) /\
    Z.of_nat (length rs) <= Z.max (limit options) (Z.of_nat (length acc) + 1).
Proof.
  revert acc. induction entries as [|[k chapter] rest IH]; intros acc H; cbn [scan_entries] in H.
  - injection H as <-. exists []. rewrite app_nil_r. repeat split; [reflexivity | lia].
  - unfold all_hits. cbn [map concat]. fold (all_hits term options rest).
    unfold chapter_hits, verses_of. cbn [fst snd].
    destruct (Str.startsWith k "chapter-"); cbn [negb] in H.
    + destruct (Js.get_prop chapter "content") as [content|]; [|discriminate H].
      destruct (Js.iterate content) as [verses|]; [|discriminate H].
      destruct (scan_verses term options chapter verses acc) as [rs1|] eqn:E; [|discriminate H].
      destruct (scan_verses_spec _ _ _ _ E) as (p1 & -> & Hp1 & Hfull1 & Hcap1).
      destruct (Z.geb_spec (Z.of_nat (length (acc ++ p1))) (limit options)) as [Hge | Hlt].
      * injection H as <-. exists p1. repeat split.
        -- apply prefix_app_r, Hp1.
        -- lia.
        -- exact Hcap1.
      * pose proof (Hfull1 Hlt) as ->.
        destruct (IH _ H) as (p & -> & Hp & Hfull & Hcap).
        exists (omap (verse_hit term options chapter) verses ++ p)%list. rewrite <- app_assoc.
        rewrite ?length_app in *.
        repeat split.
        -- apply prefix_app, Hp.
        -- intros Hl. f_equal. apply Hfull. lia.
        -- lia.
    + cbn [omap list_omap app]. apply IH, H.
Qed.

End Hits.


Lemma verse_hit_found term options chapter verse m :
  verse_hit term options chapter verse = Some m ->
  searched_text options verse (m_translation m) /\
  Str.includes (Str.toLowerCase (m_translation m)) term = true /\
  Js.get_prop chapter "chapter" = Returned (m_chapter m) /\
  Js.get_prop verse "verse" = Returned (m_verse m) /\
  Js.get_prop verse "arabic" = Returned (m_arabic m).
Proof.
  unfold verse_hit, translationText, searched_text.
  destruct (Js.get_prop verse "translations") as [translations|]; [|discriminate].
  destruct (Json.truthy_val (Js.get_prop_opt translations _)) eqn:Ht.
  - destruct (Js.get_prop_opt translations _) as [|[ | | | text | | ]] eqn:Hv; try discriminate.
    destruct (Str.includes (Str.toLowerCase text) term) eqn:Hi; [|discriminate].
    destruct (Js.get_prop chapter "chapter"); [|discriminate].
    destruct (Js.get_prop verse "verse"); [|discriminate].
    destruct (Js.get_prop verse "arabic"); [|discriminate].
    destruct (Js.get_prop verse "transliteration"); [|discriminate].
    intros [= <-]. cbn. repeat split; auto.
    exists translations. split; [reflexivity|]. cbv zeta. rewrite Hv in *. rewrite Ht. reflexivity.
  - destruct (Str.includes (Str.toLowerCase "") term) eqn:Hi; [|discriminate].
    destruct (Js.get_prop chapter "chapter"); [|discriminate].
    destruct (Js.get_prop verse "verse"); [|discriminate].
    destruct (Js.get_prop verse "arabic"); [|discriminate].
    destruct (Js.get_prop verse "transliteration"); [|discriminate].
    intros [= <-]. cbn. repeat split; auto.
    exists translations. split; [reflexivity|]. cbv zeta. rewrite Ht. reflexivity.
Qed.

Lemma all_hits_found term options entries m :
  In m (all_hits term options entries) -> found_in entries options term m.
Proof.
  unfold all_hits. intros H. apply in_concat in H as (hits & Hh & Hm).
  apply in_map_iff in Hh as ([k chapter] & <- & He).
  unfold chapter_hits in Hm. apply list_elem_of_In, list_elem_of_omap in Hm as (verse & Hv & Hhit).
  apply list_elem_of_In in Hv. unfold verses_of in Hv. cbn [fst snd] in *.
  destruct (Str.startsWith k "chapter-") eqn:Hk; [|contradiction].
  destruct (Js.get_prop chapter "content") as [content|] eqn:Hc; [|contradiction].
  destruct (Js.iterate content) as [verses|] eqn:Hi; [|contradiction].
  destruct (verse_hit_found _ _ _ _ _ Hhit) as (H1 & H2 & H3 & H4 & H5).
  exists k, chapter, content, verses, verse. repeat split; assumption.
Qed.

Lemma searchVerses_reads_only this query options :
  only (reads_only this) (searchVerses this query options).
Proof.
  unfold searchVerses.
  repeat first [ apply loadQuranIndex_reads_only | only_step this ].
Qed.

(** The result of a search is the result of the scan over the memory
    cache as it is when the search begins. *)
Lemma searchVerses_scans_cache this query options w rs :
  fst (exec (searchVerses this query options) w) = Returned rs ->
  scan_entries (Str.toLowerCase query) options (cache w) [] = Returned rs.
Proof.
  unfold searchVerses. cbn [bind perform exec handle].
  rewrite !exec_bind.
  destruct (Json.truthy_val (index (W.print LLog ("Searching for: " +:+ query) w))).
  - cbn [exec handle bind perform cache W.print W.emit]. rewrite exec_bind, exec_lift.
    destruct (scan_entries _ _ _ _); cbn; congruence.
  - rewrite exec_bind.
    pose proof (only_exec (reads_only this) (searched this) (loadQuranIndex this)
                  (W.print LLog ("Searching for: " +:+ query) w)
                  (searched_refl this) (searched_trans this) (searched_step this)
                  (loadQuranIndex_reads_only this)) as [Hc _].
    destruct (exec (loadQuranIndex this) _) as [[v|e] w1]; cbn [snd] in Hc; [|cbn; discriminate].
    cbn [exec handle bind perform cache W.print W.emit]. rewrite exec_bind, exec_lift.
    rewrite Hc. cbn [cache W.print].
    destruct (scan_entries _ _ _ _); cbn; congruence.
Qed.


(** C5, as stated, fails on the fall-back: verse 2 of the cached
    chapter has no translation and the Arabic text [alhamdu]; a search
    for [alhamdu] finds nothing, because a verse without a translation
    is searched as the empty string. (The Dart [searchVerses] of the
    README does fall back to the Arabic text, but it requests chapter 1
    whenever that chapter is not in its cache.) *)
Lemma no_fallback_to_arabic :
  let w := search_world [("chapter-1", sample_chapter 1 "alhamdu" "praise")] in
  fst (exec (searchVerses default_config "alhamdu" default_options) w) = Returned [] /\
  trace (snd (exec (Dart.searchVerses "alhamdu" "en") (search_world [])))
    = [CacheRead "chapter_1";
       Fetch "https://cdn.jsdelivr.net/gh/yourusername/justdeen-data@main/data/quran/chapters/001.json"].
Proof. vm_compute. split; reflexivity. Qed.

(** C5 (amended). A search leaves the memory cache as it is and sends no
    request except, when [this.index] is unset, for the index; so it
    never fetches a chapter. Each match it returns comes from a verse of
    a chapter in the memory cache; the text searched is the translation
    stored under [language.translation], or the empty string when the
    verse has no such translation (never the Arabic text), and the
    lower-cased text contains the lower-cased query. When fewer matches
    than the limit are returned, they are all the matches of the cache. *)
Theorem searchVerses_searches_cached_translations this query options w :
  let r := exec (searchVerses this query options) w in
  searched this w (snd r) /\
  forall rs, fst r = Returned rs ->
    Forall (found_in (cache w) options (Str.toLowerCase query)) rs /\
    (Z.of_nat (length rs) < limit options ->
       rs = all_hits (Str.toLowerCase query) options (cache w)).
Proof.
  intros r. subst r. split.
  - apply (only_exec (reads_only this) (searched this));
      [ apply searched_refl | apply searched_trans | apply searched_step
      | apply searchVerses_reads_only ].
  - intros rs H. apply searchVerses_scans_cache in H.
    destruct (scan_entries_spec _ _ _ _ _ H) as (p & -> & [k Hp] & Hfull & _).
    cbn [app] in *. split; [|exact Hfull].
    apply List.Forall_forall. intros m Hm. apply all_hits_found.
    rewrite Hp. apply in_or_app. left. exact Hm.
Qed.

Lemma searchVerses_searches_cached_translations_witness :
  let w := search_world [("chapter-1", sample_chapter 1 "alhamdu" "praise")] in
  exists rs,
    fst (exec (searchVerses default_config "PRAISE" default_options) w) = Returned rs /\
    length rs = 1%nat /\
    searched default_config w
      (snd (exec (searchVerses default_config "PRAISE" default_options) w)) /\
    Forall (found_in (cache w) default_options "praise") rs /\
    rs = all_hits "praise" default_options (cache w).
Proof.
  intros w. eexists. split; [vm_compute; reflexivity|]. split; [reflexivity|].
  destruct (searchVerses_searches_cached_translations default_config "PRAISE"
              default_options w) as [Hs Hr].
  split; [exact Hs|].
  destruct (Hr _ ltac:(vm_compute; reflexivity)) as [Hf Hall].
  split; [exact Hf|]. apply Hall. vm_compute. reflexivity.
Defined.

(** C6, as stated, fails on the order: with chapter 2 loaded into the
    memory cache before chapter 1, the matches of chapter 2 come first. *)
Lemma results_follow_cache_order :
  let w := search_world [("chapter-2", sample_chapter 2 "a" "praise");
                         ("chapter-1", sample_chapter 1 "b" "praise")] in
  exists rs,
    fst (exec (searchVerses default_config "praise" default_options) w) = Returned rs /\
    map m_chapter rs = [J (JNum 2); J (JNum 1)].
Proof. eexists. vm_compute. split; reflexivity. Qed.

(** C6 (amended). The matches a search returns are an initial segment
    of the list of all matches taken in the order of insertion into the
    memory cache and, within a chapter, in the order of its content; there
    are at most [limit] of them (at most one when [limit] is below 1). *)
Theorem searchVerses_in_cache_order_capped this query options w rs :
  fst (exec (searchVerses this query options) w) = Returned rs ->
  rs `prefix_of` all_hits (Str.toLowerCase query) options (cache w) /\
  Z.of_nat (length rs) <= Z.max (limit options) 1.
Proof.
  intros H. apply searchVerses_scans_cache in H.
  destruct (scan_entries_spec _ _ _ _ _ H) as (p & -> & Hp & _ & Hcap).
  cbn [app length] in *. split; [exact Hp | lia].
Qed.

Lemma searchVerses_in_cache_order_capped_witness :
  let w := search_world [("chapter-2", sample_chapter 2 "a" "praise");
                         ("chapter-1", sample_chapter 1 "b" "praise")] in
  let options := SearchOptions "en" "sahih" 1 in
  exists rs,
    fst (exec (searchVerses default_config "praise" options) w) = Returned rs /\
    rs `prefix_of` all_hits "praise" options (cache w) /\
    Z.of_nat (length rs) <= 1.
Proof.
  intros w options. eexists. split; [vm_compute; reflexivity|].
  refine (searchVerses_in_cache_order_capped default_config "praise" options w _ _).
  vm_compute. reflexivity.
Defined.

End SearchFacts.

Module StrFacts.
Import JsonFacts.

Lemma string_of_uint_inj d d' :
  NilEmpty.string_of_uint d = NilEmpty.string_of_uint d' -> d = d'.
Proof.
  intros H. pose proof (NilEmpty.usu d) as H1. rewrite H, NilEmpty.usu in H1. congruence.
Qed.

Lemma of_N_inj n n' : Str.of_N n = Str.of_N n' -> n = n'.
Proof. intros H. apply DecimalN.Unsigned.to_uint_inj, string_of_uint_inj, H. Qed.

Lemma of_Z_inj z z' : Str.of_Z z = Str.of_Z z' -> z = z'.
Proof.
  unfold Str.of_Z.
  destruct (Z.ltb_spec z 0) as [Hz|Hz], (Z.ltb_spec z' 0) as [Hz'|Hz']; intros E0.
  - injection E0 as E0. apply of_N_inj in E0. lia.
  - destruct (of_N_head (Z.to_N z')) as (c & s & E & Hc). rewrite E in E0.
    injection E0 as <- _. discriminate Hc.
  - destruct (of_N_head (Z.to_N z)) as (c & s & E & Hc). rewrite E in E0.
    injection E0 as -> _. discriminate Hc.
  - apply of_N_inj in E0. lia.
Qed.

Lemma str_app_inv_head (s a b : string) : s +:+ a = s +:+ b -> a = b.
Proof.
  induction s as [|c s IH]; [auto|]. rewrite !str_app_cons. intros [= H]. auto.
Qed.

End StrFacts.

Module DartFacts.
Import Prog Dart ProgFacts StrFacts Spec.

#[local] Opaque Json.parse Json.stringify.

Lemma book_key_inj c b b' : book_key c b = book_key c b' -> b = b'.
Proof.
  unfold book_key. intros H.
  apply of_Z_inj. repeat apply str_app_inv_head in H. exact H.
Qed.

Lemma yield_agree c h b0 w w' b :
  agree_from c b0 w w' -> b0 <= b -> yield w' c h b = yield w c h b.
Proof.
  intros [Hn Hc] Hb. destruct (Hc b Hb) as [Hh Hg].
  unfold yield, book_doc. rewrite Hh, Hg, Hn. reflexivity.
Qed.

Lemma first_match_agree c h w w' count b :
  agree_from c b w w' -> first_match w' c h count b = first_match w c h count b.
Proof.
  revert b. induction count as [|count IH]; intros b Ha; [reflexivity|].
  cbn [first_match]. rewrite (yield_agree c h b w w' b Ha) by lia.
  destruct (yield w c h b); [reflexivity|]. apply IH.
  destruct Ha as [Hn Hc]. split; [exact Hn|]. intros b' Hb'. apply Hc. lia.
Qed.

Lemma scan_requests_agree c h w w' count b :
  agree_from c b w w' -> scan_requests w' c h count b = scan_requests w c h count b.
Proof.
  revert b. induction count as [|count IH]; intros b Ha; [reflexivity|].
  cbn [scan_requests]. rewrite (yield_agree c h b w w' b Ha) by lia.
  destruct Ha as [Hn Hc]. destruct (Hc b ltac:(lia)) as [-> _].
  destruct (yield w c h b); [reflexivity|]. f_equal. apply IH.
  split; [exact Hn|]. intros b' Hb'. apply Hc. lia.
Qed.


Lemma map_has_set_ne k k' v m : k <> k' -> W.map_has k (W.map_set k' v m) = W.map_has k m.
Proof.
  intros Hne. induction m as [|[k0 v0] m IH]; cbn.
  - rewrite (proj2 (String.eqb_neq k k') Hne). reflexivity.
  - destruct (String.eqb k' k0) eqn:E; cbn.
    + apply String.eqb_eq in E. subst k0. reflexivity.
    + rewrite IH. reflexivity.
Qed.

Lemma map_get_set_ne k k' v m : k <> k' -> W.map_get k (W.map_set k' v m) = W.map_get k m.
Proof.
  intros Hne. induction m as [|[k0 v0] m IH]; cbn.
  - rewrite (proj2 (String.eqb_neq k k') Hne). reflexivity.
  - destruct (String.eqb k' k0) eqn:E; cbn.
    + apply String.eqb_eq in E. subst k0.
      rewrite (proj2 (String.eqb_neq k k') Hne). reflexivity.
    + rewrite IH. reflexivity.
Qed.

(** One turn of the loop of [getHadith] without a language filter: what
    it finds is what the book yields in the world it starts in, and it
    changes nothing that another book depends on. *)
Lemma search_book_exec c h b w :
  exists w',
    exec (try_catch (search_book c h None b) (fun _ => Ret None)) w
      = (Returned (yield w c h b), w') /\
    net w' = net w /\
    (forall k, k <> book_key c b ->
       W.map_has k (cache w') = W.map_has k (cache w) /\
       W.map_get k (cache w') = W.map_get k (cache w)) /\
    Loop.requests (trace w') =
      (Loop.requests (trace w) ++
       if W.map_has (book_key c b) (cache w) then [] else [book_url c b])%list.
Proof.
  unfold search_book, getBook, cached_get, http_get, json_decode, yield, book_doc, record_in,
    restrict_languages.
  fold (book_key c b). fold (book_url c b).
  cbn [bind try_catch perform exec handle lift].
  cbn [cache net trace W.emit W.set_cache fst snd].
  destruct (W.map_has (book_key c b) (cache w)) eqn:Hhas.
  all: repeat first
    [ rewrite exec_try_catch
    | rewrite exec_bind
    | rewrite exec_lift
    | progress cbn [bind try_catch perform exec handle dyn
                    cache net trace W.emit W.set_cache fst snd]
    | match goal with
      | |- context [net ?w0 ?u] => destruct (net w0 u) as [|status body] eqn:?
      | |- context [?s =? 200] => destruct (s =? 200) eqn:?
      | |- context [Json.parse ?t] => destruct (Json.parse t) eqn:?
      | |- context [as_map ?v] => destruct (as_map v) eqn:?
      | |- context [at_key ?v ?k] => destruct (at_key v k) eqn:?
      | |- context [as_list ?v] => destruct (as_list v) eqn:?
      | |- context [firstWhere ?n ?l] => destruct (firstWhere n l) as [[?|]|] eqn:?
      end ].
  all: eexists; split; [reflexivity|]; split; [reflexivity|]; split;
    [ intros k Hk; cbn [cache W.emit W.set_cache];
      rewrite ?map_has_set_ne, ?map_get_set_ne by exact Hk; split; reflexivity
    | cbn [trace W.emit W.set_cache]; rewrite ?SearchFacts.requests_emit, ?app_nil_r;
      reflexivity ].
Qed.


Lemma agree_next c b w w1 :
  net w1 = net w ->
  (forall k, k <> book_key c b ->
     W.map_has k (cache w1) = W.map_has k (cache w) /\
     W.map_get k (cache w1) = W.map_get k (cache w)) ->
  agree_from c (b + 1) w w1.
Proof.
  intros Hn Hc. split; [exact Hn|]. intros b' Hb'. apply Hc.
  intros E. apply book_key_inj in E. lia.
Qed.

Lemma scan_books_exec c h count b w :
  exists w',
    exec (scan_books c h None count b) w =
      (match first_match w c h count b with
       | Some hadith => Returned hadith
       | None => Thrown (hadith_not_found c h)
       end, w') /\
    Loop.requests (trace w') = (Loop.requests (trace w) ++ scan_requests w c h count b)%list.
Proof.
  revert b w. induction count as [|count IH]; intros b w.
  - exists w. cbn. rewrite app_nil_r. split; reflexivity.
  - cbn [scan_books first_match scan_requests]. rewrite exec_bind.
    destruct (search_book_exec c h b w) as (w1 & He & Hn & Hc & Hr). rewrite He.
    destruct (yield w c h b) as [hadith|].
    + exists w1. rewrite app_nil_r. split; [reflexivity | exact Hr].
    + destruct (IH (b + 1) w1) as (w' & He' & Hr'). exists w'.
      pose proof (agree_next c b w w1 Hn Hc) as Ha.
      rewrite (first_match_agree c h w w1 count (b + 1) Ha) in He'.
      rewrite (scan_requests_agree c h w w1 count (b + 1) Ha) in Hr'.
      split; [exact He'|]. rewrite Hr', Hr, app_assoc. reflexivity.
Qed.

Lemma first_match_some w c h count b hadith :
  first_match w c h count b = Some hadith ->
  exists k, b <= k < b + Z.of_nat count /\
            yield w c h k = Some hadith /\
            forall j, b <= j < k -> yield w c h j = None.
Proof.
  revert b. induction count as [|count IH]; intros b H; [discriminate|].
  cbn [first_match] in H. destruct (yield w c h b) as [r|] eqn:E.
  - injection H as ->. exists b. repeat split; [lia | lia | exact E | intros j Hj; lia].
  - destruct (IH _ H) as (k & Hk & Hy & Hbefore). exists k.
    repeat split; [lia | lia | exact Hy |].
    intros j Hj. destruct (Z.eq_dec j b) as [->|]; [exact E | apply Hbefore; lia].
Qed.

Lemma first_match_none w c h count b :
  first_match w c h count b = None ->
  forall j, b <= j < b + Z.of_nat count -> yield w c h j = None.
Proof.
  revert b. induction count as [|count IH]; intros b H j Hj; [lia|].
  cbn [first_match] in H. destruct (yield w c h b) as [r|] eqn:E; [discriminate|].
  destruct (Z.eq_dec j b) as [->|]; [exact E | apply (IH _ H); lia].
Qed.

Lemma collection_key_not_book c b : book_key c b <> collection_key c.
Proof. unfold book_key, collection_key. rewrite !JsonFacts.str_app_cons. discriminate. Qed.

Lemma getCollection_frame c w :
  let r := exec (getCollection c) w in
  net (snd r) = net w /\
  (forall k, k <> collection_key c ->
     W.map_has k (cache (snd r)) = W.map_has k (cache w) /\
     W.map_get k (cache (snd r)) = W.map_get k (cache w)) /\
  Loop.requests (trace (snd r)) =
    (Loop.requests (trace w) ++
     if W.map_has (collection_key c) (cache w) then [] else [collection_url c])%list.
Proof.
  unfold getCollection, cached_get, http_get, json_decode.
  fold (collection_key c). fold (collection_url c).
  cbn [bind try_catch perform exec handle lift].
  cbn [cache net trace W.emit W.set_cache fst snd].
  destruct (W.map_has (collection_key c) (cache w)) eqn:Hhas.
  all: repeat first
    [ rewrite exec_bind
    | rewrite exec_lift
    | progress cbn [bind try_catch perform exec handle dyn
                    cache net trace W.emit W.set_cache fst snd]
    | match goal with
      | |- context [net ?w0 ?u] => destruct (net w0 u) as [|status body] eqn:?
      | |- context [?s =? 200] => destruct (s =? 200) eqn:?
      | |- context [Json.parse ?t] => destruct (Json.parse t) eqn:?
      | |- context [as_map ?v] => destruct (as_map v) eqn:?
      end ].
  all: split; [reflexivity|]; split;
    [ intros k Hk; cbn [cache W.emit W.set_cache];
      rewrite ?map_has_set_ne, ?map_get_set_ne by exact Hk; split; reflexivity
    | cbn [trace W.emit W.set_cache]; rewrite ?SearchFacts.requests_emit, ?app_nil_r;
      reflexivity ].
Qed.

Lemma firstWhere_first h records d :
  firstWhere h records = Returned (Some d) <-> first_with_number h records d.
Proof.
  split.
  - induction records as [|x records IH]; cbn [firstWhere]; [discriminate|].
    destruct (at_key x "hadithNumber") as [y|] eqn:E; [|discriminate].
    assert (Hnext : y <> JNum h -> firstWhere h records = Returned (Some d) ->
                    first_with_number h (x :: records) d).
    { intros Hne H. destruct (IH H) as (before & after & -> & Hd & Hb).
      exists (x :: before), after. split; [reflexivity|]. split; [exact Hd|].
      apply Forall_cons_2; [exists y; split; [exact E | exact Hne] | exact Hb]. }
    destruct y as [| |z| | |]; try (apply Hnext; discriminate).
    destruct (Z.eqb_spec z h) as [->|Hne].
    + intros H. injection H as <-. exists [], records.
      split; [reflexivity|]. split; [exact E | apply Forall_nil_2].
    + apply Hnext. intros H. injection H as ->. contradiction.
  - intros (before & after & -> & Hd & Hb).
    induction Hb as [|x before (y & Hy & Hne) _ IH]; cbn [app firstWhere].
    + rewrite Hd, Z.eqb_refl. reflexivity.
    + rewrite Hy. destruct y as [| |z| | |]; try exact IH.
      destruct (Z.eqb_spec z h) as [->|_]; [contradiction | exact IH].
Qed.

(** The document of a book, in the terms of the cache and the
    network. *)
Lemma book_doc_fields w c k book :
  book_doc w c k = Some book <->
  exists fields,
    book = JObj fields /\ document_at w (book_key c k) (book_url c k) fields.
Proof.
  unfold book_doc, document_at. split.
  - destruct (W.map_has (book_key c k) (cache w)) eqn:Hh.
    + destruct (W.map_get (book_key c k) (cache w)) as [|v]; cbn [dyn as_map]; [discriminate|].
      destruct v as [| | | | |fields]; cbn [as_map]; try discriminate.
      intros H. injection H as <-. exists fields. split; [reflexivity|]. left. auto.
    + destruct (net w (book_url c k)) as [|status body]; [discriminate|].
      destruct (Z.eqb_spec status 200) as [->|_]; [|discriminate].
      destruct (Json.parse body) as [v|] eqn:Hp; [|discriminate].
      destruct v as [| | | | |fields]; cbn [as_map]; try discriminate.
      intros H. injection H as <-. exists fields. split; [reflexivity|]. right.
      split; [reflexivity|]. exists body. auto.
  - intros (fields & -> & [[Hh Hg] | [Hh (body & Hn & Hp)]]); rewrite Hh.
    + rewrite Hg. reflexivity.
    + rewrite Hn, Hp. reflexivity.
Qed.

(** What a book yields, in the terms of the specification. *)
Lemma yield_has_hadith w c h k d : yield w c h k = Some d <-> has_hadith w c h k d.
Proof.
  unfold yield, has_hadith, book_has. split.
  - destruct (book_doc w c k) as [book|] eqn:Hb; [|discriminate].
    apply book_doc_fields in Hb as (fields & -> & Hwhere).
    unfold record_in. cbn [at_key].
    destruct (Json.field "content" fields) as [content|] eqn:Hc; [|discriminate].
    destruct content as [| | | |records|]; cbn [as_list]; try discriminate.
    destruct (firstWhere h records) as [found|] eqn:Hf; [|discriminate].
    intros ->. exists records. split; [exists fields; auto|].
    apply firstWhere_first, Hf.
  - intros (records & (fields & Hc & Hwhere) & Hfirst).
    assert (Hb : book_doc w c k = Some (JObj fields)).
    { apply book_doc_fields. exists fields. auto. }
    rewrite Hb. unfold record_in. cbn [at_key]. rewrite Hc. cbn [as_list].
    apply firstWhere_first in Hfirst. rewrite Hfirst. reflexivity.
Qed.

Lemma yield_none w c h k :
  yield w c h k = None <-> forall d, ~ has_hadith w c h k d.
Proof.
  split.
  - intros Hy d Hd. apply yield_has_hadith in Hd. congruence.
  - intros H. destruct (yield w c h k) as [d|] eqn:Hy; [|reflexivity].
    exfalso. exact (H d (proj1 (yield_has_hadith _ _ _ _ _) Hy)).
Qed.

(** The scan stops at the first book that yields the hadith. *)
Lemma first_match_at w c h count b k d :
  b <= k < b + Z.of_nat count ->
  yield w c h k = Some d ->
  (forall j, b <= j < k -> yield w c h j = None) ->
  first_match w c h count b = Some d /\
  ((forall j, b <= j <= k -> W.map_has (book_key c j) (cache w) = false) ->
   scan_requests w c h count b = book_urls c (Z.to_nat (k - b + 1)) b).
Proof.
  revert b. induction count as [|count IH]; intros b Hk Hy Hbefore; [lia|].
  cbn [first_match scan_requests].
  destruct (Z.eq_dec k b) as [->|Hne].
  - rewrite Hy. split; [reflexivity|]. intros Hmiss.
    rewrite (Hmiss b) by lia. replace (b - b + 1) with 1 by lia. reflexivity.
  - rewrite (Hbefore b) by lia.
    destruct (IH (b + 1)) as [Hm Hr]; [lia | exact Hy | intros; apply Hbefore; lia |].
    split; [exact Hm|]. intros Hmiss. rewrite (Hmiss b) by lia.
    rewrite Hr by (intros; apply Hmiss; lia).
    replace (Z.to_nat (k - b + 1)) with (S (Z.to_nat (k - (b + 1) + 1))) by lia.
    reflexivity.
Qed.

(** Without such a book the scan visits every book. *)
Lemma first_match_nowhere w c h count b :
  (forall j, b <= j < b + Z.of_nat count -> yield w c h j = None) ->
  first_match w c h count b = None /\
  ((forall j, b <= j < b + Z.of_nat count ->
      W.map_has (book_key c j) (cache w) = false) ->
   scan_requests w c h count b = book_urls c count b).
Proof.
  revert b. induction count as [|count IH]; intros b Hnone; [split; reflexivity|].
  cbn [first_match scan_requests book_urls]. rewrite (Hnone b) by lia.
  destruct (IH (b + 1)) as [Hm Hr]; [intros; apply Hnone; lia|].
  split; [exact Hm|]. intros Hmiss. rewrite (Hmiss b) by lia.
  rewrite Hr by (intros; apply Hmiss; lia). reflexivity.
Qed.

(** [getHadith] without a language filter, once the collection
    document is there: the call follows the scan of the books
    1..[totalBooks]. *)
(** A document that is at hand is what the accessor returns. *)
Lemma cached_get_document key url failure w fields :
  document_at w key url fields ->
  fst (exec (cached_get key url failure) w) = Returned (JObj fields).
Proof.
  unfold cached_get, http_get, json_decode.
  intros [[Hh Hg] | [Hh (body & Hn & Hp)]]; cbn [bind perform exec handle]; rewrite Hh.
  - cbn [bind perform exec handle cache W.emit]. rewrite exec_lift, Hg. reflexivity.
  - cbn [bind perform exec handle net W.emit]. rewrite Hn. cbn [bind exec]. rewrite Hp.
    cbn [bind perform exec handle]. rewrite Z.eqb_refl. cbn [exec handle].
    rewrite exec_lift. reflexivity.
Qed.

Lemma getHadith_exec c h w n :
  total_books w c n ->
  fst (exec (getHadith c h None) w) =
    match first_match w c h (Z.to_nat n) 1 with
    | Some hadith => Returned hadith
    | None => Thrown (hadith_not_found c h)
    end /\
  Loop.requests (trace (snd (exec (getHadith c h None) w))) =
    (Loop.requests (trace w) ++
     (if W.map_has (collection_key c) (cache w) then [] else [collection_url c]) ++
     scan_requests w c h (Z.to_nat n) 1)%list.
Proof.
  intros (fields & Htotal & Hdoc).
  assert (Hcoll : fst (exec (getCollection c) w) = Returned (JObj fields))
    by exact (cached_get_document _ _ _ w fields Hdoc).
  unfold getHadith.
  rewrite exec_bind. destruct (getCollection_frame c w) as (Hn & Hc & Hr).
  destruct (exec (getCollection c) w) as [o w1]. cbn [fst snd] in *. subst o.
  assert (Ht : totalBooks (JObj fields) = Returned n)
    by (unfold totalBooks; cbn [at_key]; rewrite Htotal; reflexivity).
  rewrite exec_bind, exec_lift, Ht.
  destruct (scan_books_exec c h (Z.to_nat n) 1 w1) as (w' & He & Hr'). rewrite He.
  assert (Ha : agree_from c 1 w w1).
  { split; [exact Hn|]. intros b _. apply Hc, collection_key_not_book. }
  rewrite (first_match_agree c h w w1 _ 1 Ha) in *.
  rewrite (scan_requests_agree c h w w1 _ 1 Ha) in *.
  cbn [fst snd]. split; [reflexivity|]. rewrite Hr', Hr, app_assoc. reflexivity.
Qed.

(** C8. With the collection document at hand and its [totalBooks]
    equal to [n], [getHadith(collection, h)] scans the books 1, 2, ..., n
    in ascending order. When book [k] is the first book that has a record
    with the [hadithNumber] [h], the call returns the first such record
    of book [k], and the books it has requested are the books 1..k, in
    that order (none of them being cached). When no book in 1..n has such
    a record, it throws the not-found exception, after requesting all the
    books 1..n in order. It does nothing else: whatever it returns is the
    first matching record of the first book that has one, and the only
    error it ends with is the not-found exception, which means that no
    book in 1..n has such a record. (A book has a record when its
    document is at hand, cached or served with status 200, and the record
    is in its [content].) *)
Theorem getHadith_scans_books_in_order c h w n :
  total_books w c n ->
  let r := exec (getHadith c h None) w in
  let sent :=
    (Loop.requests (trace w) ++
     if W.map_has (collection_key c) (cache w) then [] else [collection_url c])%list in
  (forall k d,
     1 <= k <= n ->
     has_hadith w c h k d ->
     (forall j d', 1 <= j < k -> ~ has_hadith w c h j d') ->
     fst r = Returned d /\
     ((forall j, 1 <= j <= k -> W.map_has (book_key c j) (cache w) = false) ->
      Loop.requests (trace (snd r)) = (sent ++ book_urls c (Z.to_nat k) 1)%list)) /\
  ((forall j d, 1 <= j <= n -> ~ has_hadith w c h j d) ->
   fst r = Thrown (hadith_not_found c h) /\
   ((forall j, 1 <= j <= n -> W.map_has (book_key c j) (cache w) = false) ->
    Loop.requests (trace (snd r)) = (sent ++ book_urls c (Z.to_nat n) 1)%list)) /\
  (forall d,
     fst r = Returned d ->
     exists k, 1 <= k <= n /\ has_hadith w c h k d /\
               forall j d', 1 <= j < k -> ~ has_hadith w c h j d') /\
  (forall e,
     fst r = Thrown e ->
     e = hadith_not_found c h /\ forall j d, 1 <= j <= n -> ~ has_hadith w c h j d).
Proof.
  intros Htotal r sent. subst r sent.
  destruct (getHadith_exec c h w n Htotal) as [-> ->].
  split; [|split; [|split]].
  - intros k d Hk Hd Hbefore.
    destruct (first_match_at w c h (Z.to_nat n) 1 k d) as [Hm Hr].
    + lia.
    + apply yield_has_hadith, Hd.
    + intros j Hj. apply yield_none. intros d'. apply Hbefore. lia.
    + rewrite Hm. split; [reflexivity|]. intros Hmiss.
      rewrite Hr by (intros; apply Hmiss; lia).
      replace (k - 1 + 1) with k by lia. rewrite app_assoc. reflexivity.
  - intros Hnone.
    destruct (first_match_nowhere w c h (Z.to_nat n) 1) as [Hm Hr].
    + intros j Hj. apply yield_none. intros d. apply Hnone. lia.
    + rewrite Hm. split; [reflexivity|]. intros Hmiss.
      rewrite Hr by (intros; apply Hmiss; lia). rewrite app_assoc. reflexivity.
  - intros d Hd. destruct (first_match w c h (Z.to_nat n) 1) as [d0|] eqn:Hf; [|discriminate].
    injection Hd as ->.
    destruct (first_match_some _ _ _ _ _ _ Hf) as (k & Hk & Hy & Hb).
    exists k. split; [lia|]. split; [apply yield_has_hadith, Hy|].
    intros j d' Hj. apply yield_none. apply Hb. lia.
  - intros e He. destruct (first_match w c h (Z.to_nat n) 1) as [d0|] eqn:Hf; [discriminate|].
    injection He as <-. split; [reflexivity|].
    intros j d Hj. apply yield_none. apply (first_match_none _ _ _ _ _ Hf). lia.
Qed.

Lemma getHadith_scans_books_in_order_witness :
  (fst (exec (getHadith "bukhari" 7 None) hadith_world)
     = Returned (JObj [("hadithNumber", JNum 7)]) /\
   Loop.requests (trace (snd (exec (getHadith "bukhari" 7 None) hadith_world)))
     = [collection_url "bukhari"; book_url "bukhari" 1; book_url "bukhari" 2]) /\
  (fst (exec (getHadith "bukhari" 2 None) hadith_world)
     = Returned (JObj [("hadithNumber", JNum 2)]) /\
   Loop.requests (trace (snd (exec (getHadith "bukhari" 2 None) hadith_world)))
     = [collection_url "bukhari"; book_url "bukhari" 1]) /\
  fst (exec (getHadith "bukhari" 9 None) hadith_world)
    = Thrown (hadith_not_found "bukhari" 9).
Proof.
  assert (Ht : total_books hadith_world "bukhari" 2).
  { exists [("totalBooks", JNum 2)]. split; [reflexivity|]. right. split; [reflexivity|].
    exists (Json.stringify (JObj [("totalBooks", JNum 2)])).
    split; vm_compute; reflexivity. }
  assert (Hmiss : forall k j, 1 <= j <= k ->
            W.map_has (book_key "bukhari" j) (cache hadith_world) = false)
    by (intros; reflexivity).
  assert (Hno : forall h j, yield hadith_world "bukhari" h j = None ->
            forall d, ~ has_hadith hadith_world "bukhari" h j d)
    by (intros h j Hy; apply yield_none, Hy).
  split; [|split].
  - destruct (proj1 (getHadith_scans_books_in_order "bukhari" 7 hadith_world 2 Ht)
                2 (JObj [("hadithNumber", JNum 7)])) as [Hr Hq].
    + lia.
    + apply yield_has_hadith. vm_compute. reflexivity.
    + intros j d' Hj. assert (j = 1) as -> by lia.
      apply Hno. vm_compute. reflexivity.
    + split; [exact Hr|]. rewrite (Hq (Hmiss 2)). reflexivity.
  - destruct (proj1 (getHadith_scans_books_in_order "bukhari" 2 hadith_world 2 Ht)
                1 (JObj [("hadithNumber", JNum 2)])) as [Hr Hq].
    + lia.
    + apply yield_has_hadith. vm_compute. reflexivity.
    + intros j d' Hj. lia.
    + split; [exact Hr|]. rewrite (Hq (Hmiss 1)). reflexivity.
  - apply (proj1 (proj2 (getHadith_scans_books_in_order "bukhari" 9 hadith_world 2 Ht))).
    intros j d Hj. assert (Hcases : j = 1 \/ j = 2) by lia.
    destruct Hcases as [-> | ->]; apply Hno; vm_compute; reflexivity.
Defined.

End DartFacts.

Module RangeFacts.
Import Prog ProgFacts Spec.

(** C3, as stated, fails for the Dart accessor: [getChapter] has no
    range check, and for chapter 0 it reads its cache and sends the
    request for [000.json] before it fails on the answer. *)
Lemma dart_getChapter_has_no_range_check :
  exec (Dart.getChapter 0) hadith_world =
  (Thrown (Error "Failed to load chapter 0"),
   World [] undefined ∅ quiet hadith_net 0
     [CacheRead "chapter_0";
      Fetch "https://cdn.jsdelivr.net/gh/yourusername/justdeen-data@main/data/quran/chapters/000.json"]
     []).
Proof. vm_compute. reflexivity. Qed.

Ltac other :=
  match goal with
  | H : Resp _ _ = Resp _ _ |- _ => injection H; intros; subst
  end;
  first [contradiction | congruence].

Ltac sent :=
  eexists; cbn [snd trace W.emit W.set_cache]; rewrite <- !app_assoc; reflexivity.

(** C3 (amended). For a chapter number below 1 or above 114, the
    JavaScript [loadChapter] throws the invalid-chapter error and leaves
    the world as it was: no read of the memory cache, no read of the
    storage, no request, no output; started as a call in the event loop
    it is settled at once. The Dart [getChapter] has no range check: for
    the same number, when its cache has no entry for it, it reads the
    cache and then sends the request for the chapter file, and the
    outcome depends on the response alone: a response with status 200
    whose body is a JSON object is returned as the chapter; without a
    response, with another status, or with a body that is not JSON or not
    a JSON object, the call throws the error of that failure. *)
Theorem only_loadChapter_checks_the_range this n w :
  n < 1 \/ n > 114 ->
  (exec (QuranService.loadChapter this n) w = (Thrown QuranService.invalid_chapter, w) /\
   Loop.start (QuranService.loadChapter this n) w
     = (Done (Thrown QuranService.invalid_chapter), w)) /\
  (W.map_has ("chapter_" +:+ Str.of_Z n) (cache w) = false ->
   let url := Dart.baseUrl +:+ "data/quran/chapters/" +:+
              Str.padStart 3 "0" (Str.of_Z n) +:+ ".json" in
   let r := exec (Dart.getChapter n) w in
   (exists rest,
      trace (snd r) =
      (trace w ++ CacheRead ("chapter_" +:+ Str.of_Z n) :: Fetch url :: rest)%list) /\
   (net w url = NetFail -> fst r = Thrown (Error "ClientException")) /\
   (forall status body,
      net w url = Resp status body -> status <> 200 ->
      fst r = Thrown (Error ("Failed to load chapter " +:+ Str.of_Z n))) /\
   (forall body,
      net w url = Resp 200 body -> Json.parse body = None ->
      fst r = Thrown SyntaxError) /\
   (forall body l,
      net w url = Resp 200 body -> Json.parse body = Some (JObj l) ->
      fst r = Returned (JObj l)) /\
   (forall body v,
      net w url = Resp 200 body -> Json.parse body = Some v ->
      (forall l, v <> JObj l) ->
      exists msg, fst r = Thrown (TypeError msg))).
Proof.
  intros H. split.
  - unfold QuranService.loadChapter.
    assert (E : (n <? 1) || (n >? 114) = true).
    { apply orb_true_iff. destruct H; [left; apply Z.ltb_lt | right; apply Z.gtb_lt]; lia. }
    rewrite E. split; reflexivity.
  - intros Hmiss url r. subst url r.
    unfold Dart.getChapter, Dart.cached_get, Dart.http_get, Dart.json_decode.
    cbn [bind perform exec handle]. rewrite Hmiss.
    cbn [bind perform exec handle net W.emit trace].
    destruct (net w _) as [|status body]; cbn [bind exec fst snd].
    { split; [sent|]. repeat split; intros; try discriminate; reflexivity. }
    destruct (Z.eqb_spec status 200) as [->|Hst]; cbn [bind exec fst snd].
    2:{ split; [sent|]. split; [discriminate|]. split; [reflexivity|].
        repeat split; intros; other. }
    destruct (Json.parse body) as [data|] eqn:Hp; cbn [bind perform exec handle fst snd].
    2:{ split; [sent|]. split; [discriminate|].
        split; [intros; other|]. split; [reflexivity|]. split; intros; other. }
    rewrite exec_lift. split; [destruct (Dart.as_map data); sent|].
    split; [discriminate|]. split; [intros; other|]. split; [intros; other|].
    split.
    + intros body0 l Hr Hq. injection Hr as <-. rewrite Hp in Hq. injection Hq as ->.
      reflexivity.
    + intros body0 v Hr Hq Hv. injection Hr as <-. rewrite Hp in Hq. injection Hq as ->.
      destruct v; cbn [Dart.as_map fst]; eauto. exfalso. exact (Hv _ eq_refl).
Qed.

Lemma only_loadChapter_checks_the_range_witness :
  let w := World [] undefined ∅ quiet (fun _ => Resp 200 "{}") 0 [] [] in
  exec (QuranService.loadChapter QuranService.default_config 115) w
    = (Thrown QuranService.invalid_chapter, w) /\
  (exists rest,
     trace (snd (exec (Dart.getChapter 115) w)) =
     CacheRead "chapter_115" ::
     Fetch "https://cdn.jsdelivr.net/gh/yourusername/justdeen-data@main/data/quran/chapters/115.json"
     :: rest) /\
  fst (exec (Dart.getChapter 115) w) = Returned (JObj []).
Proof.
  intros w.
  assert (Hn : 115 < 1 \/ 115 > 114) by (right; lia).
  assert (Hp : Json.parse "{}" = Some (JObj [])) by (vm_compute; reflexivity).
  destruct (only_loadChapter_checks_the_range QuranService.default_config 115 w Hn)
    as [[Hjs _] Hdart].
  destruct (Hdart eq_refl) as (Htr & _ & _ & _ & Hok & _).
  split; [exact Hjs|]. split; [exact Htr|]. exact (Hok "{}" [] eq_refl Hp).
Defined.

End RangeFacts.

Module LoopFacts.
Import Prog Loop ProgFacts Footprint Spec.

Lemma no_request_one {A} (p : prog A) : no_request p -> one_request p.
Proof.
  induction p as [a | e | X e k IH]; cbn; auto.
  intros [He Hk]. rewrite He. intros x. apply IH, Hk.
Qed.

Lemma no_request_bind {A B} (p : prog A) (f : A -> prog B) :
  no_request p -> (forall a, no_request (f a)) -> no_request (bind p f).
Proof. apply only_bind. Qed.

Lemma no_request_try_catch {A} (p : prog A) (h : error -> prog A) :
  no_request p -> (forall e, no_request (h e)) -> no_request (try_catch p h).
Proof. apply only_try_catch. Qed.

Lemma one_request_bind {A B} (p : prog A) (f : A -> prog B) :
  one_request p -> (forall a, no_request (f a)) -> one_request (bind p f).
Proof.
  intros Hp Hf. induction p as [a | e | X e k IH]; cbn [bind one_request] in *.
  - apply no_request_one, Hf.
  - exact I.
  - destruct (as_request e) as [[url c]|].
    + intros r. apply no_request_bind; auto.
    + intros x. apply IH, Hp.
Qed.

Lemma one_request_bind_after {A B} (p : prog A) (f : A -> prog B) :
  no_request p -> (forall a, one_request (f a)) -> one_request (bind p f).
Proof.
  intros Hp Hf. induction p as [a | e | X e k IH]; cbn [bind one_request] in *; auto.
  destruct Hp as [He Hk]. rewrite He. intros x. apply IH, Hk.
Qed.

Lemma one_request_try_catch {A} (p : prog A) (h : error -> prog A) :
  one_request p -> (forall e, no_request (h e)) -> one_request (try_catch p h).
Proof.
  intros Hp Hh. induction p as [a | e | X e k IH]; cbn [try_catch one_request] in *.
  - exact I.
  - apply no_request_one, Hh.
  - destruct (as_request e) as [[url c]|].
    + intros r. apply no_request_try_catch; auto.
    + intros x. apply IH, Hp.
Qed.

Lemma handle_requests {X} (e : eff X) w :
  as_request e = None ->
  requests (trace (snd (handle e w))) = requests (trace w).
Proof.
  destruct e; cbn; intros H; try discriminate H; try reflexivity;
    try match goal with |- context [if ?b then _ else _] => destruct b end;
    cbn [snd trace W.emit W.set_cache W.set_storage];
    rewrite SearchFacts.requests_emit; apply app_nil_r.
Qed.






(** *** Calls awaited together *)





End LoopFacts.

Module PreloadFacts.
Import Prog Loop QuranService ProgFacts Footprint LoopFacts Spec.

#[local] Opaque Json.parse Json.stringify.

(** *** The requests of the call chains *)

Lemma getCachedData_no_request key : no_request (getCachedData key).
Proof.
  unfold no_request, getCachedData, json_parse.
  repeat (cbn; first [ exact I | reflexivity | split | intro | CacheFacts.case_step ]).
Qed.

Lemma setCachedData_no_request key data ttl : no_request (setCachedData key data ttl).
Proof.
  unfold no_request, setCachedData.
  repeat (cbn; first [ exact I | reflexivity | split | intro | CacheFacts.case_step ]).
Qed.

Ltac no_request_step :=
  first
    [ exact I
    | reflexivity
    | apply getCachedData_no_request
    | apply setCachedData_no_request
    | apply only_lift
    | apply no_request_bind
    | apply no_request_try_catch
    | progress cbn [only perform attempt as_request]
    | split
    | intro
    | match goal with
      | |- no_request (if ?b then _ else _) => destruct b
      | |- no_request (match ?x with _ => _ end) => destruct x
      | |- only _ (if ?b then _ else _) => destruct b
      | |- only _ (match ?x with _ => _ end) => destruct x
      end ].

Ltac one_request_step :=
  first
    [ exact I
    | progress cbn [one_request perform attempt as_request fetch bind try_catch]
    | intro
    | match goal with
      | |- one_request (if ?b then _ else _) => destruct b
      | |- one_request (match ?x with _ => _ end) => destruct x
      | |- one_request (bind (getCachedData _) _) =>
          apply one_request_bind_after; [apply getCachedData_no_request|]
      | |- one_request (bind (if _ then _ else _) _) => apply one_request_bind_after
      | |- one_request (Ret _) => exact I
      end
    | solve [unfold no_request; repeat no_request_step] ].


Lemma loadQuranIndex_one_request this : one_request (loadQuranIndex this).
Proof.
  unfold loadQuranIndex, json_parse.
  repeat one_request_step.
Qed.

(** *** The background task *)






(** *** The caller of [initialize] *)














End PreloadFacts.

(** * Further properties of the services *)

Module StoreFacts.
Import Prog QuranService ProgFacts Footprint Spec.

#[local] Opaque Json.parse Json.stringify.

Lemma same_client_refl w : same_client w w.
Proof. repeat split. Qed.

Lemma same_client_trans w1 w2 w3 :
  same_client w1 w2 -> same_client w2 w3 -> same_client w1 w3.
Proof.
  intros (A1 & A2 & A3 & A4 & A5 & A6) (B1 & B2 & B3 & B4 & B5 & B6).
  repeat split; congruence.
Qed.

Lemma same_client_step X (e : eff X) w :
  storage_effect X e -> same_client w (snd (handle e w)).
Proof.
  destruct e; cbn; intros H; try contradiction; try (repeat split; reflexivity);
    match goal with |- context [if ?b then _ else _] => destruct b end;
    repeat split; cbn; rewrite ?SearchFacts.requests_emit, ?app_nil_r; reflexivity.
Qed.

Lemma storage_effect_exec {A} (p : prog A) w :
  only storage_effect p -> same_client w (snd (exec p w)).
Proof.
  apply (only_exec storage_effect same_client);
    [ apply same_client_refl | apply same_client_trans | apply same_client_step ].
Qed.

Lemma getCachedData_storage_effect key : only storage_effect (getCachedData key).
Proof.
  unfold getCachedData, json_parse.
  repeat (cbn; first [ exact I | split | intro | CacheFacts.case_step ]).
Qed.

Lemma setCachedData_storage_effect key data ttl :
  only storage_effect (setCachedData key data ttl).
Proof.
  unfold setCachedData.
  repeat (cbn; first [ exact I | split | intro | CacheFacts.case_step ]).
Qed.

Lemma getCachedData_same_client key w :
  same_client w (snd (exec (getCachedData key) w)).
Proof. apply storage_effect_exec, getCachedData_storage_effect. Qed.

Lemma setCachedData_same_client key data ttl w :
  same_client w (snd (exec (setCachedData key data ttl) w)).
Proof. apply storage_effect_exec, setCachedData_storage_effect. Qed.

(** What [setCachedData] does when the backend raises on the write. *)
Lemma setCachedData_raise key data ttl w :
  raises w (OpSet ("quran-" +:+ key)) = true ->
  exec (setCachedData key data ttl) w =
  (Returned tt,
   W.print LWarn ("Failed to cache data for " +:+ key +:+ ":")
     (W.emit (StorageSet ("quran-" +:+ key)) w)).
Proof.
  intros H. unfold setCachedData. destruct (ttl >? 0); cbn; rewrite H; reflexivity.
Qed.

Lemma setCachedData_returns key data ttl w :
  fst (exec (setCachedData key data ttl) w) = Returned tt.
Proof.
  destruct (raises w (OpSet ("quran-" +:+ key))) eqn:E.
  - rewrite setCachedData_raise by exact E. reflexivity.
  - rewrite CacheFacts.setCachedData_exec by exact E. reflexivity.
Qed.

(** X1. [setCachedData] never throws: it returns whatever the backend
    does; it leaves the rest of the client and every other item of the
    storage as they were; when the backend raises on the write, the
    storage is unchanged and a warning is printed. *)
Theorem setCachedData_never_throws key data ttl w :
  let r := exec (setCachedData key data ttl) w in
  fst r = Returned tt /\
  same_client w (snd r) /\
  (forall k, k <> "quran-" +:+ key -> storage (snd r) !! k = storage w !! k) /\
  (raises w (OpSet ("quran-" +:+ key)) = true ->
     storage (snd r) = storage w /\
     console (snd r) = (console w ++ [(LWarn, "Failed to cache data for " +:+ key +:+ ":")])%list).
Proof.
  intros r. subst r. split; [|split; [apply setCachedData_same_client|]].
  - destruct (raises w (OpSet ("quran-" +:+ key))) eqn:E.
    + rewrite setCachedData_raise by exact E. reflexivity.
    + rewrite CacheFacts.setCachedData_exec by exact E. reflexivity.
  - destruct (raises w (OpSet ("quran-" +:+ key))) eqn:E.
    + rewrite setCachedData_raise by exact E. split; [reflexivity|]. intros _. split; reflexivity.
    + rewrite CacheFacts.setCachedData_exec by exact E. split; [|discriminate].
      intros k Hk. cbn. apply lookup_insert_ne. congruence.
Qed.

Lemma setCachedData_never_throws_witness :
  let w := World [] undefined {[ "quran-k" := "old" ]}
             (fun op => match op with OpSet _ => true | _ => false end)
             (fun _ => NetFail) 1000 [] [] in
  fst (exec (setCachedData "k" (JNum 7) 5) w) = Returned tt /\
  storage (snd (exec (setCachedData "k" (JNum 7) 5) w)) = {[ "quran-k" := "old" ]}.
Proof.
  intros w. destruct (setCachedData_never_throws "k" (JNum 7) 5 w) as (Hr & _ & _ & Hs).
  split; [exact Hr|]. exact (proj1 (Hs eq_refl)).
Defined.

(** The loop of [clearCache], whatever the backend does: only items
    under the prefix are removed. *)
Lemma exec_sweep_any keys w :
  let r := exec (for_each keys (fun key =>
             if Str.startsWith key "quran-" then attempt (RemoveItem key) else Ret tt)) w in
  cache (snd r) = cache w /\
  forall k, Str.startsWith k "quran-" = false -> storage (snd r) !! k = storage w !! k.
Proof.
  revert w. induction keys as [|k keys IH]; intros w; cbn zeta.
  - split; [reflexivity|]. intros; reflexivity.
  - cbn [for_each]. rewrite exec_bind. destruct (Str.startsWith k "quran-") eqn:Hk.
    + cbn [attempt exec handle]. destruct (raises w (OpRemove k)).
      * cbn. split; [reflexivity|]. intros; reflexivity.
      * cbv iota beta. cbn [exec].
        destruct (IH (W.emit (StorageRemove k) (W.set_storage (delete k) w))) as [Hc Hs].
        split; [exact Hc|]. intros k' Hk'. rewrite Hs by exact Hk'. cbn.
        apply lookup_delete_ne. congruence.
    + cbn [exec]. apply IH.
Qed.

(** X2. [clearCache] never throws and always empties the memory cache. It
    never touches an item outside the prefix [quran-], and when the
    backend raises on listing the keys it removes nothing at all. *)
Theorem clearCache_never_throws w :
  let r := exec clearCache w in
  fst r = Returned tt /\
  cache (snd r) = [] /\
  (forall k, Str.startsWith k "quran-" = false -> storage (snd r) !! k = storage w !! k) /\
  (raises w OpKeys = true -> storage (snd r) = storage w).
Proof.
  intros r. subst r. unfold clearCache.
  cbn [bind try_catch perform attempt exec handle].
  cbn [W.emit W.set_cache W.print raises storage cache].
  destruct (raises w OpKeys) eqn:Hk.
  - cbn. repeat split; intros; reflexivity.
  - cbv iota beta. rewrite exec_try_catch, exec_bind. cbn [exec]. rewrite exec_bind.
    match goal with |- context [exec (for_each ?l ?f) ?w0] =>
      pose proof (exec_sweep_any l w0) as [Hc Hs];
      destruct (exec (for_each l f) w0) as [[[]|e] w'] end;
      cbn [fst snd] in *; cbn [exec handle perform fst snd cache storage W.print] in *.
    + repeat split; [exact Hc | exact Hs | discriminate].
    + repeat split; [exact Hc | exact Hs | discriminate].
Qed.

Lemma clearCache_never_throws_witness :
  let w := World [("chapter-1", J JNull)] undefined {[ "quran-chapter-1" := "x" ]}
             (fun _ => true) (fun _ => NetFail) 0 [] [] in
  fst (exec clearCache w) = Returned tt /\
  cache (snd (exec clearCache w)) = [] /\
  storage (snd (exec clearCache w)) = {[ "quran-chapter-1" := "x" ]}.
Proof.
  intros w. destruct (clearCache_never_throws w) as (Hr & Hc & _ & Hs).
  split; [exact Hr|]. split; [exact Hc|]. exact (Hs eq_refl).
Defined.

End StoreFacts.

Module StatsFacts.
Import Prog QuranService ProgFacts Footprint Spec StoreFacts.

#[local] Opaque Json.parse Json.stringify.

Lemma same_client_emit e w :
  match e with Fetch _ => False | _ => True end -> same_client w (W.emit e w).
Proof.
  intros H. repeat split. cbn. rewrite SearchFacts.requests_emit.
  destruct e; try contradiction; apply app_nil_r.
Qed.

(** The loop always ends, and changes nothing but the log. *)
Lemma count_items_total keys i s w :
  exists r w', exec (count_items keys i s) w = (Returned r, w') /\
    same_client w w' /\ storage w' = storage w /\ console w' = console w.
Proof.
  revert i s w. induction keys as [|k keys IH]; intros i s w; cbn [count_items].
  - exists (i, s, None), w. repeat split.
  - destruct (Str.startsWith k "quran-"); [|apply IH].
    cbn [exec handle].
    destruct (raises w (OpGet k)); [|destruct (storage w !! k) as [item|]].
    + eexists _, _. split; [reflexivity|]. split; [|split; reflexivity].
      apply same_client_emit. exact I.
    + destruct (IH (i + 1) (s + Z.of_nat (String.length item)) (W.emit (StorageGet k) w))
        as (r & w' & He & Hc & Hs & Hp).
      exists r, w'. split; [exact He|]. split; [|split; assumption].
      eapply same_client_trans; [|exact Hc]. apply same_client_emit. exact I.
    + eexists _, _. split; [reflexivity|]. split; [|split; reflexivity].
      apply same_client_emit. exact I.
Qed.

(** With a backend that does not raise, the loop counts the items under
    the prefix and adds up their lengths. *)
Lemma count_items_exec kvs i s w :
  (forall k, raises w (OpGet k) = false) ->
  (forall k v, In (k, v) kvs -> storage w !! k = Some v) ->
  let found := List.filter (fun kv => Str.startsWith (fst kv) "quran-") kvs in
  fst (exec (count_items (map fst kvs) i s) w) =
  Returned (i + Z.of_nat (length found), s + stored_length found, None).
Proof.
  revert i s w. induction kvs as [|[k v] kvs IH]; intros i s w Hq Hs; cbn zeta.
  - cbn. rewrite !Z.add_0_r. reflexivity.
  - cbn [map fst count_items List.filter].
    destruct (Str.startsWith k "quran-").
    + cbn [exec handle]. rewrite Hq, (Hs k v) by (left; reflexivity).
      cbv iota beta.
      rewrite IH; [| exact Hq | intros k' v' Hin; apply Hs; right; exact Hin ].
      cbn [length stored_length fold_right snd]. unfold stored_length.
      f_equal. f_equal. f_equal; lia.
    + apply IH; [exact Hq | intros k' v' Hin; apply Hs; right; exact Hin].
Qed.

Lemma getCacheStats_quiet w :
  raises w OpKeys = false -> (forall k, raises w (OpGet k) = false) ->
  fst (exec getCacheStats w) =
  Returned (CacheStats (Z.of_nat (length (cache w)))
              (Z.of_nat (length (namespaced (storage w))))
              (Str.of_Z ((stored_length (namespaced (storage w)) + 512) / 1024) +:+ "KB")).
Proof.
  intros Hk Hg. unfold getCacheStats.
  cbn [bind perform exec handle raises storage W.emit]. rewrite Hk.
  cbv iota beta. rewrite exec_bind.
  pose proof (count_items_exec (map_to_list (storage w)) 0 0
                (W.emit StorageKeys (W.emit CacheScan w)) Hg) as Hc.
  cbn zeta in Hc. fold (namespaced (storage w)) in Hc.
  destruct (exec (count_items _ 0 0) _) as [o w'].
  cbn [fst] in Hc. rewrite Hc.
  - cbn. rewrite !Z.add_0_l. reflexivity.
  - intros k v Hin. cbn. apply elem_of_map_to_list, list_elem_of_In, Hin.
Qed.

(** X3. [getCacheStats] never throws and changes nothing but the logs; it
    reports the number of entries of the memory cache; with a backend that
    does not raise it reports the number of stored items under the prefix
    [quran-] and the sum of their lengths in units of 1024, rounded half
    up. *)
Theorem getCacheStats_counts w :
  (exists stats w',
     exec getCacheStats w = (Returned stats, w') /\
     memory_items stats = Z.of_nat (length (cache w)) /\
     same_client w w' /\ storage w' = storage w) /\
  (raises w OpKeys = false -> (forall k, raises w (OpGet k) = false) ->
   fst (exec getCacheStats w) =
   Returned (CacheStats (Z.of_nat (length (cache w)))
               (Z.of_nat (length (namespaced (storage w))))
               (Str.of_Z ((stored_length (namespaced (storage w)) + 512) / 1024) +:+ "KB"))).
Proof.
  split; [|apply getCacheStats_quiet].
  unfold getCacheStats. cbn [bind perform exec handle raises storage W.emit].
  destruct (raises w OpKeys).
  - cbn. eexists _, _. split; [reflexivity|]. split; [reflexivity|].
    split; [|reflexivity]. repeat split. cbn.
    rewrite !SearchFacts.requests_emit, !app_nil_r. reflexivity.
  - cbv iota beta. rewrite exec_bind.
    destruct (count_items_total (map fst (map_to_list (storage w))) 0 0
                (W.emit StorageKeys (W.emit CacheScan w)))
      as ([[items size] err] & w' & He & Hc & Hs & Hp).
    rewrite He.
    assert (H0 : same_client w w').
    { eapply same_client_trans; [|exact Hc].
      eapply same_client_trans; apply same_client_emit; exact I. }
    destruct err; cbn; eexists _, _; (split; [reflexivity|]); (split; [reflexivity|]);
      (split; [|exact Hs]); [|exact H0].
    eapply same_client_trans; [exact H0|]. repeat split.
Qed.

Lemma getCacheStats_counts_witness :
  let w := World [("chapter-1", J JNull)] undefined
             {[ "quran-chapter-1" := string_of_list_ascii (repeat "x"%char 512);
                "theme" := "dark" ]}
             quiet (fun _ => NetFail) 0 [] [] in
  fst (exec getCacheStats w) = Returned (CacheStats 1 1 "1KB").
Proof.
  intros w.
  refine (eq_trans (proj2 (getCacheStats_counts w) eq_refl (fun _ => eq_refl)) _).
  vm_compute. reflexivity.
Defined.

(** [clearCache] with a backend that does not raise. *)
Lemma clearCache_exec w :
  (forall op, raises w op = false) ->
  exists w',
    exec clearCache w = (Returned tt, w') /\
    cache w' = [] /\ raises w' = raises w /\
    forall k, storage w' !! k = if Str.startsWith k "quran-" then None else storage w !! k.
Proof.
  intros Hq. unfold clearCache.
  cbn [bind try_catch perform attempt exec handle].
  cbn [W.emit W.set_cache W.print raises storage cache].
  rewrite Hq. rewrite exec_try_catch, exec_bind. cbn [exec]. rewrite exec_bind.
  match goal with |- context [exec (for_each ?l ?f) ?w0] =>
    destruct (CacheFacts.exec_sweep l w0) as (w' & He & Hs & Hc & Hr);
      [intros k; apply Hq|] end.
  rewrite He. cbn [exec handle perform]. eexists. split; [reflexivity|].
  cbn [cache storage raises W.print]. split; [exact Hc|]. split; [exact Hr|].
  intros k. rewrite Hs, CacheFacts.sweep_lookup. cbn [storage W.emit W.set_cache W.print].
  destruct (Str.startsWith k "quran-") eqn:Hk; [|reflexivity]. cbn [andb].
  destruct (storage w !! k) as [v|] eqn:Hl.
  - rewrite bool_decide_eq_true_2; [reflexivity|].
    apply list_elem_of_fmap. exists (k, v). split; [reflexivity|].
    apply elem_of_map_to_list, Hl.
  - destruct (bool_decide _); reflexivity.
Qed.

Lemma namespaced_empty (m : gmap string string) :
  (forall k, Str.startsWith k "quran-" = true -> m !! k = None) -> namespaced m = [].
Proof.
  intros H. unfold namespaced.
  assert (Hall : forall kv, In kv (map_to_list m) -> Str.startsWith (fst kv) "quran-" = false).
  { intros [k v] Hin. apply list_elem_of_In, elem_of_map_to_list in Hin. cbn.
    destruct (Str.startsWith k "quran-") eqn:E; [|reflexivity].
    rewrite (H k E) in Hin. discriminate. }
  induction (map_to_list m) as [|kv l IH]; [reflexivity|].
  cbn [List.filter]. rewrite (Hall kv) by (left; reflexivity).
  apply IH. intros kv' Hin. apply Hall. right. exact Hin.
Qed.

(** X4. After [clearCache], with a backend that does not raise, the
    statistics are all zero. *)
Theorem clearCache_resets_stats w :
  (forall op, raises w op = false) ->
  fst (exec (clearCache ;;; getCacheStats) w) = Returned (CacheStats 0 0 "0KB").
Proof.
  intros Hq. rewrite exec_bind.
  destruct (clearCache_exec w Hq) as (w' & He & Hc & Hr & Hs).
  rewrite He.
  assert (Hq' : forall op, raises w' op = false) by (intros op; rewrite Hr; apply Hq).
  rewrite (getCacheStats_quiet w' (Hq' OpKeys) (fun k => Hq' (OpGet k))).
  rewrite Hc, namespaced_empty; [reflexivity|].
  intros k Hk. rewrite Hs, Hk. reflexivity.
Qed.

Lemma clearCache_resets_stats_witness :
  let w := World [("chapter-1", J JNull)] undefined
             {[ "quran-chapter-1" := "{}"; "theme" := "dark" ]}
             quiet (fun _ => NetFail) 0 [] [] in
  fst (exec (clearCache ;;; getCacheStats) w) = Returned (CacheStats 0 0 "0KB").
Proof. intros w. exact (clearCache_resets_stats w (fun _ => eq_refl)). Defined.

End StatsFacts.

Module ChapterFacts.
Import Prog QuranService ProgFacts Footprint Spec StoreFacts.

#[local] Opaque Json.parse Json.stringify.
#[local] Arguments getCachedData : simpl never.
#[local] Arguments setCachedData : simpl never.

Lemma map_has_set k v m : W.map_has k (W.map_set k v m) = true.
Proof.
  induction m as [|[k' v'] m IH]; cbn.
  - rewrite String.eqb_refl. reflexivity.
  - destruct (String.eqb k k') eqn:E; cbn; rewrite ?String.eqb_refl, ?E; auto.
Qed.

(** Runs the persistent cache as a black box that keeps the client. *)
Ltac black_box :=
  match goal with
  | |- context [exec (getCachedData ?k) ?w0] =>
      let H := fresh "Hsame" in
      pose proof (getCachedData_same_client k w0) as H;
      let o := fresh "cached" in let w' := fresh "w" in
      destruct (exec (getCachedData k) w0) as [[o|?] w']; cbn [snd] in H;
      destruct H as (? & _)
  | |- context [exec (setCachedData ?k ?d ?t) ?w0] =>
      let H := fresh "Hsame" in
      pose proof (setCachedData_same_client k d t w0) as H;
      let w' := fresh "w" in
      destruct (exec (setCachedData k d t) w0) as [[[]|?] w']; cbn [snd] in H;
      destruct H as (? & _)
  end.

Ltac path :=
  repeat first
    [ rewrite exec_bind
    | rewrite exec_try_catch
    | black_box
    | progress cbn [exec handle perform attempt fetch lift fst snd negb json_parse
                    bind try_catch net now raises storage cache
                    W.emit W.print W.set_cache W.set_storage]
    | progress cbv zeta
    | match goal with
      | |- context [if ?b then _ else _] => destruct b eqn:?
      | |- context [match net ?w0 ?u with _ => _ end] => destruct (net w0 u) as [|? ?] eqn:?
      | |- context [match Json.parse ?t with _ => _ end] => destruct (Json.parse t) eqn:?
      end ].

(** Whatever way [loadChapter] returns a chapter, the chapter is in the
    memory cache afterwards. *)
Lemma loadChapter_returns_cached this n w v w1 :
  exec (loadChapter this n) w = (Returned v, w1) ->
  W.map_has (chapter_key n) (cache w1) = true /\
  W.map_get (chapter_key n) (cache w1) = v.
Proof.
  unfold loadChapter, json_parse. fold (chapter_key n).
  destruct ((n <? 1) || (n >? 114)); [discriminate|].
  cbn [bind perform exec handle].
  destruct (W.map_has (chapter_key n) (cache w)) eqn:Hm.
  - cbn. intros H. injection H as <- <-. cbn. auto.
  - path.
    all: intros Hret; try discriminate Hret; injection Hret as <- <-.
    all: cbn [cache W.emit W.print W.set_cache].
    all: repeat match goal with H : cache _ = _ |- _ => rewrite H; clear H end.
    all: cbn [cache W.emit W.print W.set_cache].
    all: split; [apply map_has_set | apply LoadFacts.map_get_set].
Qed.


Lemma loadChapter_memory_hit this n w :
  W.map_has (chapter_key n) (cache w) = true ->
  (n <? 1) || (n >? 114) = false ->
  exec (loadChapter this n) w =
  (Returned (W.map_get (chapter_key n) (cache w)),
   W.emit (CacheRead (chapter_key n))
     (W.print LLog ("Loaded chapter " +:+ Str.of_Z n +:+ " from memory")
        (W.emit (CacheRead (chapter_key n)) w))).
Proof.
  intros Hm Hr. unfold loadChapter. fold (chapter_key n). rewrite Hr.
  cbn [bind perform exec handle]. rewrite Hm. reflexivity.
Qed.

(** X5. Once [loadChapter] has returned a chapter, by whatever way, the
    next call for the same number returns the same value from the memory
    cache: it reads the memory cache and nothing else, so it touches
    neither the storage nor the network. *)
Theorem loadChapter_again_from_memory this n w v w1 :
  exec (loadChapter this n) w = (Returned v, w1) ->
  let r := exec (loadChapter this n) w1 in
  fst r = Returned v /\
  cache (snd r) = cache w1 /\
  storage (snd r) = storage w1 /\
  trace (snd r) = (trace w1 ++ [CacheRead (chapter_key n); CacheRead (chapter_key n)])%list.
Proof.
  intros H r. subst r.
  destruct (loadChapter_returns_cached this n w v w1 H) as [Hh Hg].
  assert (Hr : (n <? 1) || (n >? 114) = false).
  { unfold loadChapter in H. destruct ((n <? 1) || (n >? 114)); [discriminate H | reflexivity]. }
  rewrite (loadChapter_memory_hit this n w1 Hh Hr). cbn [fst snd].
  repeat split; [congruence|]. cbn. rewrite <- app_assoc. reflexivity.
Qed.

Lemma loadChapter_again_from_memory_witness :
  let w := World [] undefined ∅ quiet (fun _ => Resp 200 "{}") 1000 [] [] in
  let w1 := snd (exec (loadChapter default_config 1) w) in
  fst (exec (loadChapter default_config 1) w1) = Returned (J (JObj [])) /\
  Loop.requests (trace (snd (exec (loadChapter default_config 1) w1))) =
  Loop.requests (trace w1).
Proof.
  intros w w1.
  assert (H : exec (loadChapter default_config 1) w = (Returned (J (JObj [])), w1)).
  { unfold w1. rewrite (surjective_pairing (exec (loadChapter default_config 1) w)) at 1.
    f_equal; vm_compute; reflexivity. }
  destruct (loadChapter_again_from_memory default_config 1 w _ w1 H) as (Hv & _ & _ & Ht).
  split; [exact Hv|]. rewrite Ht.
  unfold Loop.requests. rewrite omap_app. cbn. apply app_nil_r.
Defined.



(** The first load of a chapter, from the network. *)
Lemma loadChapter_fetch this n w status body data :
  1 <= n <= 114 ->
  W.map_has (chapter_key n) (cache w) = false ->
  raises w (OpGet ("quran-" +:+ chapter_key n)) = false ->
  storage w !! ("quran-" +:+ chapter_key n) = None ->
  net w (chapter_url this n) = Resp status body ->
  Js.ok status = true ->
  Json.parse body = Some data ->
  exec (loadChapter this n) w =
  (Returned (J data),
   W.print LLog ("Loaded chapter " +:+ Str.of_Z n +:+ " successfully")
     (snd (exec (setCachedData (chapter_key n) data 604800000)
             (W.emit (CacheWrite (chapter_key n))
                (W.set_cache (W.map_set (chapter_key n) (J data))
                   (W.emit (Fetch (chapter_url this n)) (before_fetch this n w))))))).
Proof.
  intros Hn Hm Hg Hs Hnet Hok Hp. unfold loadChapter, json_parse, before_fetch.
  rewrite (LoadFacts.in_range n Hn). fold (chapter_key n). fold (chapter_url this n).
  change (7 * 24 * 60 * 60 * 1000) with 604800000.
  cbn [bind perform exec handle]. rewrite Hm.
  destruct (offlineFirst this).
  - LoadFacts.walk. rewrite Hp. LoadFacts.walk.
    match goal with |- context [exec (setCachedData ?k ?d ?t) ?w0] =>
      pose proof (setCachedData_returns k d t w0) as E;
      destruct (exec (setCachedData k d t) w0) as [[[]|e] w1] end;
      [reflexivity | discriminate E].
  - LoadFacts.walk. rewrite Hp. LoadFacts.walk.
    match goal with |- context [exec (setCachedData ?k ?d ?t) ?w0] =>
      pose proof (setCachedData_returns k d t w0) as E;
      destruct (exec (setCachedData k d t) w0) as [[[]|e] w1] end;
      [reflexivity | discriminate E].
Qed.


(** What the first load leaves in the storage. *)
Lemma loadChapter_fetch_storage this n w status body data :
  1 <= n <= 114 ->
  W.map_has (chapter_key n) (cache w) = false ->
  raises w (OpGet ("quran-" +:+ chapter_key n)) = false ->
  storage w !! ("quran-" +:+ chapter_key n) = None ->
  net w (chapter_url this n) = Resp status body ->
  Js.ok status = true ->
  Json.parse body = Some data ->
  raises w (OpSet ("quran-" +:+ chapter_key n)) = false ->
  storage (snd (exec (loadChapter this n) w)) =
  <[ "quran-" +:+ chapter_key n :=
       Json.stringify (envelope data (JNum (now w + 604800000)) (now w)) ]> (storage w).
Proof.
  intros Hn Hm Hg Hs Hnet Hok Hp Hset.
  rewrite (loadChapter_fetch this n w status body data Hn Hm Hg Hs Hnet Hok Hp).
  cbn [snd]. rewrite CacheFacts.setCachedData_exec.
  - unfold before_fetch. destruct (offlineFirst this); reflexivity.
  - unfold before_fetch. destruct (offlineFirst this); exact Hset.
Qed.

(** X6. The first load of a chapter: with nothing in the memory cache and
    nothing in the storage, a response with a status in 200..299 and a
    JSON body makes [loadChapter] return the parsed body, put it into the
    memory cache and send exactly one request. The body is stored with an
    expiry of seven days; when the backend raises on that write, the load
    succeeds all the same and the storage is unchanged. *)
Theorem loadChapter_first_load this n w status body data :
  1 <= n <= 114 ->
  W.map_has (chapter_key n) (cache w) = false ->
  raises w (OpGet ("quran-" +:+ chapter_key n)) = false ->
  storage w !! ("quran-" +:+ chapter_key n) = None ->
  net w (chapter_url this n) = Resp status body ->
  Js.ok status = true ->
  Json.parse body = Some data ->
  let r := exec (loadChapter this n) w in
  fst r = Returned (J data) /\
  W.map_get (chapter_key n) (cache (snd r)) = J data /\
  Loop.requests (trace (snd r)) = (Loop.requests (trace w) ++ [chapter_url this n])%list /\
  (raises w (OpSet ("quran-" +:+ chapter_key n)) = false ->
     storage (snd r) =
     <[ "quran-" +:+ chapter_key n :=
          Json.stringify (envelope data (JNum (now w + 604800000)) (now w)) ]> (storage w)) /\
  (raises w (OpSet ("quran-" +:+ chapter_key n)) = true -> storage (snd r) = storage w).
Proof.
  intros Hn Hm Hg Hs Hnet Hok Hp r. subst r.
  split; [|split; [|split; [|split]]].
  - rewrite (loadChapter_fetch this n w status body data Hn Hm Hg Hs Hnet Hok Hp). reflexivity.
  - rewrite (loadChapter_fetch this n w status body data Hn Hm Hg Hs Hnet Hok Hp).
    cbn [snd cache W.print].
    match goal with |- context [exec (setCachedData ?k ?d ?t) ?w0] =>
      destruct (setCachedData_same_client k d t w0) as (Hc & _) end.
    rewrite Hc. cbn [cache W.emit W.set_cache]. apply LoadFacts.map_get_set.
  - rewrite (loadChapter_fetch this n w status body data Hn Hm Hg Hs Hnet Hok Hp).
    cbn [snd trace W.print].
    match goal with |- context [exec (setCachedData ?k ?d ?t) ?w0] =>
      destruct (setCachedData_same_client k d t w0) as (_ & _ & _ & _ & _ & Hq) end.
    rewrite Hq. unfold before_fetch.
    destruct (offlineFirst this); cbn [trace W.emit W.set_cache W.print];
      rewrite !SearchFacts.requests_emit, ?app_nil_r; reflexivity.
  - apply (loadChapter_fetch_storage this n w status body data); assumption.
  - intros Hset.
    rewrite (loadChapter_fetch this n w status body data Hn Hm Hg Hs Hnet Hok Hp).
    cbn [snd]. rewrite setCachedData_raise.
    + unfold before_fetch. destruct (offlineFirst this); reflexivity.
    + unfold before_fetch. destruct (offlineFirst this); exact Hset.
Qed.

Lemma loadChapter_first_load_witness :
  let w := World [] undefined ∅ (fun op => match op with OpSet _ => true | _ => false end)
             (fun _ => Resp 200 "{}") 1000 [] [] in
  fst (exec (loadChapter default_config 1) w) = Returned (J (JObj [])) /\
  storage (snd (exec (loadChapter default_config 1) w)) = ∅.
Proof.
  intros w.
  assert (Hn : 1 <= 1 <= 114) by lia.
  destruct (loadChapter_first_load default_config 1 w 200 "{}" (JObj [])
              Hn eq_refl eq_refl eq_refl eq_refl eq_refl)
    as (Hv & _ & _ & _ & Hs).
  - vm_compute. reflexivity.
  - split; [exact Hv | exact (Hs eq_refl)].
Defined.

(** A chapter in the storage, not expired, read by a client whose
    memory cache does not have it. *)
Lemma loadChapter_storage_hit this n w data expires cached :
  offlineFirst this = true ->
  1 <= n <= 114 ->
  W.map_has (chapter_key n) (cache w) = false ->
  raises w (OpGet ("quran-" +:+ chapter_key n)) = false ->
  storage w !! ("quran-" +:+ chapter_key n)
    = Some (Json.stringify (envelope data expires cached)) ->
  expired_at (now w) expires = false ->
  Json.truthy data = true ->
  exec (loadChapter this n) w =
  (Returned (J data),
   W.print LLog ("Loaded chapter " +:+ Str.of_Z n +:+ " from cache")
     (W.emit (CacheWrite (chapter_key n))
        (W.set_cache (W.map_set (chapter_key n) (J data))
           (W.emit (StorageGet ("quran-" +:+ chapter_key n))
              (W.emit (CacheRead (chapter_key n)) w))))).
Proof.
  intros Ho Hn Hm Hg Hs He Ht. unfold loadChapter, json_parse, expired_at in *.
  rewrite (LoadFacts.in_range n Hn), Ho. fold (chapter_key n).
  cbn [bind perform exec handle]. rewrite Hm.
  LoadFacts.walk; reflexivity.
Qed.

(** X7. A chapter loaded from the network is served from the storage
    afterwards: a client with [offlineFirst] whose memory cache does not
    have the chapter (after a restart, say) and whose storage still holds
    the item gets the same chapter without a request, whatever the network
    does, up to and including the instant seven days after the load. *)
Theorem stored_chapter_survives_restart this n w status body data w2 :
  offlineFirst this = true ->
  1 <= n <= 114 ->
  0 <= now w ->
  W.map_has (chapter_key n) (cache w) = false ->
  raises w (OpGet ("quran-" +:+ chapter_key n)) = false ->
  raises w (OpSet ("quran-" +:+ chapter_key n)) = false ->
  storage w !! ("quran-" +:+ chapter_key n) = None ->
  net w (chapter_url this n) = Resp status body ->
  Js.ok status = true ->
  Json.parse body = Some data ->
  Json.truthy data = true ->
  let w1 := snd (exec (loadChapter this n) w) in
  storage w2 !! ("quran-" +:+ chapter_key n) = storage w1 !! ("quran-" +:+ chapter_key n) ->
  W.map_has (chapter_key n) (cache w2) = false ->
  raises w2 (OpGet ("quran-" +:+ chapter_key n)) = false ->
  now w2 <= now w + 604800000 ->
  let r := exec (loadChapter this n) w2 in
  fst r = Returned (J data) /\
  W.map_get (chapter_key n) (cache (snd r)) = J data /\
  Loop.requests (trace (snd r)) = Loop.requests (trace w2).
Proof.
  intros Ho Hn Hnow Hm Hg Hset Hs Hnet Hok Hp Ht w1 Hs2 Hm2 Hg2 Hlate r. subst w1 r.
  rewrite (loadChapter_fetch_storage this n w status body data Hn Hm Hg Hs Hnet Hok Hp Hset),
    lookup_insert_eq in Hs2.
  rewrite (loadChapter_storage_hit this n w2 data _ _ Ho Hn Hm2 Hg2 Hs2); [| |exact Ht].
  - cbn [fst snd cache trace W.emit W.print W.set_cache].
    split; [reflexivity|]. split; [apply LoadFacts.map_get_set|].
    rewrite !SearchFacts.requests_emit, !app_nil_r. reflexivity.
  - apply not_true_is_false. intros He. apply LoadFacts.expired_at_num in He. lia.
Qed.

Lemma stored_chapter_survives_restart_witness :
  let w := World [] undefined ∅ quiet (fun _ => Resp 200 "{}") 1000 [] [] in
  let w1 := snd (exec (loadChapter default_config 1) w) in
  let w2 := World [] undefined (storage w1) quiet (fun _ => NetFail) 604801000 [] [] in
  fst (exec (loadChapter default_config 1) w2) = Returned (J (JObj [])) /\
  Loop.requests (trace (snd (exec (loadChapter default_config 1) w2))) = [].
Proof.
  intros w w1 w2.
  assert (Hn : 1 <= 1 <= 114) by lia.
  assert (Hnow : 0 <= now w) by (cbn; lia).
  assert (Hlate : now w2 <= now w + 604800000) by (cbn; lia).
  assert (Hs : storage w !! ("quran-" +:+ chapter_key 1) = None) by (vm_compute; reflexivity).
  assert (Hp : Json.parse "{}" = Some (JObj [])) by (vm_compute; reflexivity).
  assert (Hs2 : storage w2 !! ("quran-" +:+ chapter_key 1)
                = storage w1 !! ("quran-" +:+ chapter_key 1)) by reflexivity.
  destruct (stored_chapter_survives_restart default_config 1 w 200 "{}" (JObj []) w2
              eq_refl Hn Hnow eq_refl eq_refl eq_refl Hs eq_refl eq_refl Hp eq_refl
              Hs2 eq_refl eq_refl Hlate)
    as (Hv & _ & Hq).
  split; [exact Hv | exact Hq].
Defined.

End ChapterFacts.

Module IndexFacts.
Import Prog QuranService ProgFacts Footprint Spec StoreFacts.

#[local] Opaque Json.parse Json.stringify.
#[local] Arguments getCachedData : simpl never.
#[local] Arguments setCachedData : simpl never.

(** The load of the index from the network. *)
Lemma loadQuranIndex_fetch this w status body data :
  raises w (OpGet "quran-quran-index") = false ->
  storage w !! "quran-quran-index" = None ->
  net w (index_url this) = Resp status body ->
  Js.ok status = true ->
  Json.parse body = Some data ->
  exec (loadQuranIndex this) w =
  (Returned (J data),
   W.print LLog "Loaded Quran index from network"
     (snd (exec (setCachedData "quran-index" data 86400000)
             (W.emit (Fetch (index_url this))
                (if offlineFirst this then W.emit (StorageGet "quran-quran-index") w
                 else w))))).
Proof.
  intros Hg Hs Hnet Hok Hp. unfold loadQuranIndex, json_parse.
  fold (index_url this). change (24 * 60 * 60 * 1000) with 86400000.
  destruct (offlineFirst this).
  - LoadFacts.walk. rewrite Hp. LoadFacts.walk.
    change ("quran-" +:+ "quran-index") with "quran-quran-index".
    match goal with |- context [exec (setCachedData ?k ?d ?t) ?w0] =>
      pose proof (setCachedData_returns k d t w0) as E;
      destruct (exec (setCachedData k d t) w0) as [[[]|e] w1] end;
      [reflexivity | discriminate E].
  - LoadFacts.walk. rewrite Hp. LoadFacts.walk.
    change ("quran-" +:+ "quran-index") with "quran-quran-index".
    match goal with |- context [exec (setCachedData ?k ?d ?t) ?w0] =>
      pose proof (setCachedData_returns k d t w0) as E;
      destruct (exec (setCachedData k d t) w0) as [[[]|e] w1] end;
      [reflexivity | discriminate E].
Qed.

(** The index in the storage, not expired. *)
Lemma loadQuranIndex_storage_hit this w data expires cached :
  offlineFirst this = true ->
  raises w (OpGet "quran-quran-index") = false ->
  storage w !! "quran-quran-index" = Some (Json.stringify (envelope data expires cached)) ->
  expired_at (now w) expires = false ->
  Json.truthy data = true ->
  exec (loadQuranIndex this) w =
  (Returned (J data),
   W.print LLog "Loaded Quran index from cache" (W.emit (StorageGet "quran-quran-index") w)).
Proof.
  intros Ho Hg Hs He Ht. unfold loadQuranIndex, json_parse, expired_at in *.
  rewrite Ho. LoadFacts.walk; reflexivity.
Qed.

(** X8. The index is kept for a day. Loaded from the network (nothing was
    stored, the response has a status in 200..299 and a JSON body) it is
    returned and stored; a later call of a client with [offlineFirst]
    whose storage still holds the item returns the same index without a
    request, up to and including the instant 24 hours after the load. *)
Theorem index_is_kept_for_a_day this w status body data w2 :
  offlineFirst this = true ->
  0 <= now w ->
  raises w (OpGet "quran-quran-index") = false ->
  raises w (OpSet "quran-quran-index") = false ->
  storage w !! "quran-quran-index" = None ->
  net w (index_url this) = Resp status body ->
  Js.ok status = true ->
  Json.parse body = Some data ->
  Json.truthy data = true ->
  let r1 := exec (loadQuranIndex this) w in
  storage w2 !! "quran-quran-index" = storage (snd r1) !! "quran-quran-index" ->
  raises w2 (OpGet "quran-quran-index") = false ->
  now w2 <= now w + 86400000 ->
  let r2 := exec (loadQuranIndex this) w2 in
  fst r1 = Returned (J data) /\
  Loop.requests (trace (snd r1)) = (Loop.requests (trace w) ++ [index_url this])%list /\
  fst r2 = Returned (J data) /\
  Loop.requests (trace (snd r2)) = Loop.requests (trace w2).
Proof.
  intros Ho Hnow Hg Hset Hs Hnet Hok Hp Ht r1 Hs2 Hg2 Hlate r2. subst r1 r2.
  rewrite (loadQuranIndex_fetch this w status body data Hg Hs Hnet Hok Hp) in *.
  rewrite Ho in *. cbn [fst snd] in *.
  rewrite CacheFacts.setCachedData_exec in * by exact Hset.
  change ("quran-" +:+ "quran-index") with "quran-quran-index" in *.
  change (86400000 >? 0) with true in *.
  cbn [fst snd storage trace now W.emit W.print W.set_storage] in *.
  rewrite lookup_insert_eq in Hs2.
  rewrite (loadQuranIndex_storage_hit this w2 data _ _ Ho Hg2 Hs2); [| |exact Ht].
  - cbn [fst snd trace W.emit W.print].
    rewrite !SearchFacts.requests_emit, !app_nil_r. repeat split; reflexivity.
  - apply not_true_is_false. intros He. apply LoadFacts.expired_at_num in He. lia.
Qed.

Lemma index_is_kept_for_a_day_witness :
  let w := World [] undefined ∅ quiet (fun _ => Resp 200 "{}") 1000 [] [] in
  let w1 := snd (exec (loadQuranIndex default_config) w) in
  let w2 := World [] undefined (storage w1) quiet (fun _ => NetFail) 86401000 [] [] in
  fst (exec (loadQuranIndex default_config) w2) = Returned (J (JObj [])) /\
  Loop.requests (trace (snd (exec (loadQuranIndex default_config) w2))) = [].
Proof.
  intros w w1 w2.
  assert (Hnow : 0 <= now w) by (cbn; lia).
  assert (Hlate : now w2 <= now w + 86400000) by (cbn; lia).
  assert (Hs : storage w !! "quran-quran-index" = None) by (vm_compute; reflexivity).
  assert (Hp : Json.parse "{}" = Some (JObj [])) by (vm_compute; reflexivity).
  assert (Hs2 : storage w2 !! "quran-quran-index" = storage w1 !! "quran-quran-index")
    by reflexivity.
  destruct (index_is_kept_for_a_day default_config w 200 "{}" (JObj []) w2
              eq_refl Hnow eq_refl eq_refl Hs eq_refl eq_refl Hp eq_refl
              Hs2 eq_refl Hlate)
    as (_ & _ & Hv & Hq).
  split; [exact Hv | exact Hq].
Defined.

End IndexFacts.

Module SearchEdges.
Import Prog QuranService ProgFacts Footprint Spec StoreFacts.

#[local] Opaque Json.parse Json.stringify.

Lemma scan_entries_no_chapter term options entries acc :
  Forall (fun entry => Str.startsWith (fst entry) "chapter-" = false) entries ->
  scan_entries term options entries acc = Returned acc.
Proof.
  induction 1 as [|[k v] entries Hk _ IH]; [reflexivity|].
  cbn [scan_entries]. cbn [fst] in Hk. rewrite Hk. exact IH.
Qed.

(** X9. A search looks into the memory cache only: while no chapter is in
    the memory cache it finds nothing, whatever the storage holds, and it
    touches neither the storage nor the network. *)
Theorem searchVerses_needs_chapters_in_memory this query options w :
  Json.truthy_val (index w) = true ->
  Forall (fun entry => Str.startsWith (fst entry) "chapter-" = false) (cache w) ->
  exec (searchVerses this query options) w =
  (Returned [],
   W.print LLog ("Found 0 results for " +:+ query)
     (W.emit CacheScan (W.print LLog ("Searching for: " +:+ query) w))).
Proof.
  intros Hi Hc. unfold searchVerses. cbn [bind perform exec handle index W.print].
  rewrite Hi. cbn [bind perform exec handle cache W.print W.emit].
  rewrite exec_bind, exec_lift.
  rewrite (scan_entries_no_chapter _ _ _ [] Hc). reflexivity.
Qed.

Lemma searchVerses_needs_chapters_in_memory_witness :
  let item := Json.stringify (envelope (JObj [("chapter", JNum 1)]) JNull 100) in
  let w := World [] (J (JObj [])) {[ "quran-chapter-1" := item ]}
             quiet (fun _ => NetFail) 1000 [] [] in
  fst (exec (searchVerses default_config "praise" default_options) w) = Returned [] /\
  trace (snd (exec (searchVerses default_config "praise" default_options) w)) = [CacheScan].
Proof.
  intros item w.
  rewrite (searchVerses_needs_chapters_in_memory default_config "praise" default_options w
             eq_refl (Forall_nil_2 _)).
  split; reflexivity.
Defined.

(** With a limit of 0 or below, the inner loop stops at the first
    match. *)
Lemma scan_verses_first term options chapter verses rs :
  limit options <= 0 ->
  scan_verses term options chapter verses [] = Returned rs ->
  rs = take 1 (omap (verse_hit term options chapter) verses).
Proof.
  intros Hl. revert rs. induction verses as [|verse verses IH]; intros rs.
  - intros H. injection H as <-. reflexivity.
  - change (omap (verse_hit term options chapter) (verse :: verses))
      with (match verse_hit term options chapter verse with
            | Some m => m :: omap (verse_hit term options chapter) verses
            | None => omap (verse_hit term options chapter) verses
            end).
    cbn [scan_verses].
    destruct (translationText options verse) as [[|[| | |text| |]]|] eqn:Et; try discriminate.
    destruct (Str.includes (Str.toLowerCase text) term) eqn:Ei.
    + destruct (Js.get_prop chapter "chapter") eqn:E1, (Js.get_prop verse "verse") eqn:E2,
        (Js.get_prop verse "arabic") eqn:E3, (Js.get_prop verse "transliteration") eqn:E4;
        try discriminate.
      assert (Hv : verse_hit term options chapter verse = Some (VerseMatch a a0 a1 text a2)).
      { unfold verse_hit. rewrite Et, Ei, E1, E2, E3, E4. reflexivity. }
      rewrite Hv. cbn [app length].
      destruct (Z.geb_spec (Z.of_nat 1) (limit options)) as [Hge|Hlt]; [|lia].
      intros Hr. injection Hr as <-. reflexivity.
    + assert (Hv : verse_hit term options chapter verse = None).
      { unfold verse_hit. rewrite Et, Ei. reflexivity. }
      rewrite Hv. apply IH.
Qed.

Lemma scan_entries_first term options entries rs :
  limit options <= 0 ->
  scan_entries term options entries [] = Returned rs ->
  rs = match first_chapter entries with
       | Some entry => take 1 (chapter_hits term options entry)
       | None => []
       end.
Proof.
  intros Hl. unfold first_chapter. revert rs.
  induction entries as [|[k chapter] entries IH]; intros rs; cbn [scan_entries List.find fst].
  - intros H. injection H as <-. reflexivity.
  - destruct (Str.startsWith k "chapter-") eqn:Hk; cbn [negb]; [|apply IH].
    unfold chapter_hits, verses_of. cbn [fst snd]. rewrite Hk.
    destruct (Js.get_prop chapter "content") as [content|]; [|discriminate].
    destruct (Js.iterate content) as [verses|]; [|discriminate].
    destruct (scan_verses term options chapter verses []) as [rs'|] eqn:E; [|discriminate].
    apply (scan_verses_first _ _ _ _ _ Hl) in E.
    destruct (Z.geb_spec (Z.of_nat (length rs')) (limit options)) as [Hge|Hlt]; [|lia].
    intros Hr. injection Hr as <-. exact E.
Qed.

(** X10. A limit of 0 or below neither switches the cap off nor empties the
    result: the search then looks at the first chapter of the memory cache
    only and returns its first match, if it has one. *)
Theorem searchVerses_with_limit_zero this query options w rs :
  limit options <= 0 ->
  fst (exec (searchVerses this query options) w) = Returned rs ->
  rs = match first_chapter (cache w) with
       | Some entry => take 1 (chapter_hits (Str.toLowerCase query) options entry)
       | None => []
       end.
Proof.
  intros Hl H. apply SearchFacts.searchVerses_scans_cache in H.
  exact (scan_entries_first _ _ _ _ Hl H).
Qed.

Lemma searchVerses_with_limit_zero_witness :
  let w := search_world [("chapter-2", sample_chapter 2 "a" "praise");
                         ("chapter-1", sample_chapter 1 "b" "praise")] in
  let options := SearchOptions "en" "sahih" 0 in
  exists rs,
    fst (exec (searchVerses default_config "praise" options) w) = Returned rs /\
    rs = take 1 (chapter_hits "praise" options ("chapter-2", sample_chapter 2 "a" "praise")).
Proof.
  intros w options. eexists. split; [vm_compute; reflexivity|].
  assert (Hl : limit options <= 0) by (cbn; lia).
  refine (eq_trans (searchVerses_with_limit_zero default_config "praise" options w _ Hl _) _).
  - vm_compute. reflexivity.
  - reflexivity.
Defined.

End SearchEdges.

Module RequestFacts.
Import Prog Loop QuranService ProgFacts Footprint LoopFacts Spec.

#[local] Opaque Json.parse Json.stringify.

Lemma exec_no_request {A} (p : prog A) w :
  no_request p -> requests (trace (snd (exec p w))) = requests (trace w).
Proof.
  intros Hp.
  apply (only_exec (fun X e => as_request e = None)
           (fun w w' => requests (trace w') = requests (trace w)));
    [ reflexivity | intros; congruence | intros X e w0; apply handle_requests | exact Hp ].
Qed.

Lemma handle_net {X} (e : eff X) w : net (snd (handle e w)) = net w.
Proof.
  destruct e; cbn; try reflexivity;
    match goal with |- context [if ?b then _ else _] => destruct b; reflexivity end.
Qed.

(** A call chain that sends at most one request sends the one it
    first waits for, and no other. *)
Lemma exec_one_request {A} (p : prog A) w :
  one_request p ->
  requests (trace (snd (exec p w))) =
  (requests (trace w) ++
   match fst (start p w) with
   | Done _ => []
   | Waiting url _ => [url]
   end)%list.
Proof.
  revert w. induction p as [a | e | X e k IH]; intros w Hp; cbn [exec start fst snd];
    try (rewrite app_nil_r; reflexivity).
  cbn [one_request] in Hp. destruct (as_request e) as [[url c]|] eqn:E.
  - destruct e; try discriminate E. injection E as -> <-.
    cbn [handle fst]. rewrite exec_no_request by apply Hp.
    cbn [trace W.emit]. apply SearchFacts.requests_emit.
  - pose proof (handle_requests e w E) as Hh.
    destruct (handle e w) as [x w']. cbn [snd] in Hh.
    rewrite (IH x w' (Hp x)), Hh. reflexivity.
Qed.

Lemma only_weaken (P Q : forall X, eff X -> Prop) {A} (p : prog A) :
  (forall X e, P X e -> Q X e) -> only P p -> only Q p.
Proof.
  intros H. induction p as [a | e | X e k IH]; cbn [only]; auto.
  intros [He Hk]. auto.
Qed.

Lemma getCachedData_only P key :
  (forall X e, storage_effect X e -> P X e) -> only P (getCachedData key).
Proof. intros H. eapply only_weaken; [exact H | apply StoreFacts.getCachedData_storage_effect]. Qed.

Lemma setCachedData_only P key data ttl :
  (forall X e, storage_effect X e -> P X e) -> only P (setCachedData key data ttl).
Proof. intros H. eapply only_weaken; [exact H | apply StoreFacts.setCachedData_storage_effect]. Qed.

Lemma storage_effect_asks url X (e : eff X) : storage_effect X e -> asks_only url X e.
Proof. destruct e; cbn; intros H; try exact I; contradiction. Qed.

Lemma storage_effect_keeps_index X (e : eff X) : storage_effect X e -> keeps_index X e.
Proof. destruct e; cbn; intros H; try exact I; contradiction. Qed.

Ltac only_prove :=
  repeat first
    [ exact I
    | reflexivity
    | apply getCachedData_only; first [apply storage_effect_asks | apply storage_effect_keeps_index]
    | apply setCachedData_only; first [apply storage_effect_asks | apply storage_effect_keeps_index]
    | apply only_lift
    | apply only_bind
    | apply only_try_catch
    | progress cbn [only perform attempt fetch asks_only keeps_index]
    | split
    | intro
    | match goal with
      | |- only _ (if ?b then _ else _) => destruct b
      | |- only _ (match ?x with _ => _ end) => destruct x
      end ].





Lemma searchVerses_one_request this query options :
  one_request (searchVerses this query options).
Proof.
  unfold searchVerses. cbn [bind perform one_request as_request]. intros _ idx.
  destruct (Json.truthy_val idx).
  - apply no_request_one. unfold no_request. repeat PreloadFacts.no_request_step.
  - apply one_request_bind.
    + apply one_request_bind; [apply PreloadFacts.loadQuranIndex_one_request | intros; exact I].
    + intros []. unfold no_request. repeat PreloadFacts.no_request_step.
Qed.



(** *** Who assigns [this.index] *)

Lemma keeps_index_exec {A} (p : prog A) w :
  only keeps_index p -> index (snd (exec p w)) = index w.
Proof.
  apply (only_exec keeps_index (fun w w' => index w' = index w));
    [ reflexivity | intros; congruence | ].
  intros X e w0. destruct e; cbn; intros H; try reflexivity; try contradiction;
    match goal with |- context [if ?b then _ else _] => destruct b; reflexivity end.
Qed.

Lemma loadQuranIndex_keeps_index this : only keeps_index (loadQuranIndex this).
Proof. unfold loadQuranIndex, json_parse. only_prove. Qed.

Lemma loadChapter_keeps_index this n : only keeps_index (loadChapter this n).
Proof. unfold loadChapter, json_parse. only_prove. Qed.

Lemma searchVerses_keeps_index this query options :
  only keeps_index (searchVerses this query options).
Proof. unfold searchVerses, loadQuranIndex, json_parse. only_prove. Qed.

(** The first request of a search on a client whose index is unset
    and that does not read the storage first. *)
Lemma searchVerses_start this query options w :
  Json.truthy_val (index w) = false ->
  offlineFirst this = false ->
  exists k w', start (searchVerses this query options) w = (Waiting (index_url this) k, w').
Proof.
  intros Hi Ho. unfold searchVerses, loadQuranIndex. rewrite Ho.
  cbn [bind perform start as_request handle index W.print]. rewrite Hi.
  cbn [bind try_catch fetch start as_request]. eexists _, _. reflexivity.
Qed.

(** X12. [searchVerses] loads the index when [this.index] is unset, but it
    does not keep it: neither the search nor [loadQuranIndex] assigns
    [this.index]. So a client that was not initialized is in the same
    position after a search as before it, and with [offlineFirst]
    disabled such a search sends a request for the index. *)
Theorem searchVerses_does_not_keep_the_index this query options w :
  let r := exec (searchVerses this query options) w in
  index (snd r) = index w /\
  index (snd (exec (loadQuranIndex this) w)) = index w /\
  (Json.truthy_val (index w) = false -> offlineFirst this = false ->
   Loop.requests (trace (snd r)) = (Loop.requests (trace w) ++ [index_url this])%list).
Proof.
  intros r. subst r. split; [|split].
  - apply keeps_index_exec, searchVerses_keeps_index.
  - apply keeps_index_exec, loadQuranIndex_keeps_index.
  - intros Hi Ho.
    rewrite (exec_one_request _ w (searchVerses_one_request this query options)).
    destruct (searchVerses_start this query options w Hi Ho) as (k & w' & E).
    rewrite E. reflexivity.
Qed.

Lemma searchVerses_does_not_keep_the_index_witness :
  let w := World [] undefined ∅ quiet (fun _ => Resp 200 "{}") 1000 [] [] in
  let online := Config (baseUrl default_config) false [] [] in
  let w1 := snd (exec (searchVerses online "praise" default_options) w) in
  let w2 := snd (exec (searchVerses online "praise" default_options) w1) in
  index w2 = undefined /\
  Loop.requests (trace w2) = [index_url online; index_url online].
Proof.
  intros w online w1 w2.
  destruct (searchVerses_does_not_keep_the_index online "praise" default_options w)
    as (Hi1 & _ & Hr1).
  destruct (searchVerses_does_not_keep_the_index online "praise" default_options w1)
    as (Hi2 & _ & Hr2).
  fold w1 in Hi1, Hr1. fold w2 in Hi2, Hr2.
  assert (E1 : index w1 = undefined) by (rewrite Hi1; reflexivity).
  split; [rewrite Hi2; exact E1|].
  rewrite Hr2; [| rewrite E1; reflexivity | reflexivity].
  rewrite Hr1; reflexivity.
Defined.

End RequestFacts.

Module NumberFacts.
Import Js Spec JsonFacts.

Lemma digit_no_space c : Str.is_digit c = true -> is_space c = false.
Proof. destruct c as [[] [] [] [] [] [] [] []]; try discriminate; reflexivity. Qed.

Lemma digit_no_radix c :
  Str.is_digit c = true ->
  (Ascii.eqb c "x" || Ascii.eqb c "X") = false /\
  (Ascii.eqb c "o" || Ascii.eqb c "O") = false /\
  (Ascii.eqb c "b" || Ascii.eqb c "B") = false.
Proof. destruct c as [[] [] [] [] [] [] [] []]; try discriminate; repeat split. Qed.

Lemma digit_no_sign c : Str.is_digit c = true -> c <> "-"%char /\ c <> "+"%char.
Proof. destruct c as [[] [] [] [] [] [] [] []]; try discriminate; split; discriminate. Qed.

Lemma all_digits_uint d : all_digits (NilEmpty.string_of_uint d) = true.
Proof. induction d; cbn [NilEmpty.string_of_uint all_digits]; auto. Qed.

Lemma trim_end_digits s : all_digits s = true -> trim_end s = s.
Proof.
  induction s as [|c s IH]; [reflexivity|]. cbn [all_digits trim_end].
  intros H. apply andb_true_iff in H as [Hc Hs]. rewrite (IH Hs).
  destruct s; [rewrite (digit_no_space c Hc)|]; reflexivity.
Qed.

Lemma span_digits_all s : all_digits s = true -> Json.span_digits s = (s, EmptyString).
Proof.
  induction s as [|c s IH]; [reflexivity|]. cbn [all_digits Json.span_digits].
  intros H. apply andb_true_iff in H as [Hc Hs]. rewrite Hc, (IH Hs). reflexivity.
Qed.

Lemma radix_literal_digits s : all_digits s = true -> radix_literal s = None.
Proof.
  destruct s as [|c [|x s]]; [reflexivity | |].
  - intros _. destruct c as [[] [] [] [] [] [] [] []]; reflexivity.
  - cbn [all_digits]. intros H.
    apply andb_true_iff in H as [_ H]. apply andb_true_iff in H as [Hx _].
    destruct (digit_no_radix x Hx) as (H1 & H2 & H3).
    unfold radix_literal. rewrite H1, H2, H3.
    destruct c as [[] [] [] [] [] [] [] []]; destruct s; reflexivity.
Qed.

(** A string of digits reads as its value. *)
Lemma decimal_literal_of_N n : decimal_literal (Str.of_N n) = Some (Z.of_N n).
Proof.
  unfold decimal_literal, Str.of_N.
  rewrite (span_digits_all _ (all_digits_uint _)).
  destruct (of_N_head n) as (c & s & E & _). unfold Str.of_N in E. rewrite E.
  cbn [exponent_part String.length Z.of_nat]. rewrite str_app_nil_r, <- E.
  unfold decimal_value. rewrite NilEmpty.usu, DecimalN.Unsigned.of_to.
  destruct (Z.eqb_spec (Z.of_N n) 0) as [->|_]; [reflexivity|].
  cbn. rewrite Z.mul_1_r. reflexivity.
Qed.

Lemma string_to_number_of_Z z : string_to_number (Str.of_Z z) = Some z.
Proof.
  unfold string_to_number, Str.of_Z.
  destruct (of_N_head (Z.to_N z)) as (c & s & E & Hc).
  destruct (of_N_head (Z.to_N (- z))) as (c' & s' & E' & Hc').
  pose proof (all_digits_uint (N.to_uint (Z.to_N z))) as Hd.
  pose proof (all_digits_uint (N.to_uint (Z.to_N (- z)))) as Hd'.
  fold (Str.of_N (Z.to_N z)) in Hd. fold (Str.of_N (Z.to_N (- z))) in Hd'.
  destruct (Z.ltb_spec z 0).
  - cbn [trim_start]. change (is_space "-") with false. cbv iota.
    cbn [trim_end]. rewrite (trim_end_digits _ Hd'), E'. rewrite <- E'.
    rewrite decimal_literal_of_N. cbn [option_map]. f_equal. lia.
  - rewrite E. cbn [trim_start]. rewrite (digit_no_space c Hc). rewrite <- E.
    rewrite (trim_end_digits _ Hd), E.
    destruct (digit_no_sign c Hc) as [Hm Hp].
    assert (Hr : radix_literal (String c s) = None)
      by (rewrite <- E; apply radix_literal_digits, Hd).
    assert (Hl : decimal_literal (String c s) = Some z)
      by (rewrite <- E, decimal_literal_of_N; f_equal; lia).
    destruct c as [[] [] [] [] [] [] [] []]; try contradiction;
      try (rewrite Hr, Hl; reflexivity); discriminate Hc.
Qed.

End NumberFacts.

Module VerseFacts.
Import Prog QuranService ProgFacts Footprint Spec JsonFacts.

#[local] Opaque Json.parse Json.stringify.

Lemma split_no_colon s : no_colon s = true -> Str.split ":" s = [s].
Proof.
  induction s as [|c s IH]; [reflexivity|]. cbn [no_colon Str.split].
  intros H. apply andb_true_iff in H as [Hc Hs]. apply negb_true_iff in Hc.
  rewrite Hc, (IH Hs). reflexivity.
Qed.

Lemma split_at_colon s t :
  no_colon s = true -> Str.split ":" (s +:+ String ":" t) = s :: Str.split ":" t.
Proof.
  induction s as [|c s IH]; intros H.
  - reflexivity.
  - cbn [no_colon] in H. apply andb_true_iff in H as [Hc Hs]. apply negb_true_iff in Hc.
    rewrite str_app_cons. cbn [Str.split]. rewrite Hc, (IH Hs). reflexivity.
Qed.

Lemma no_colon_uint d : no_colon (NilEmpty.string_of_uint d) = true.
Proof. induction d; cbn; auto. Qed.

Lemma no_colon_of_Z z : no_colon (Str.of_Z z) = true.
Proof.
  unfold Str.of_Z, Str.of_N. destruct (z <? 0); cbn [no_colon]; rewrite no_colon_uint; reflexivity.
Qed.

Lemma to_number_of_Z z : Js.to_number (JStr (Str.of_Z z)) = Some z.
Proof. cbn [Js.to_number]. apply NumberFacts.string_to_number_of_Z. Qed.

Lemma numbers_of_reference c v :
  map (fun part => Js.to_number (JStr part)) (Str.split ":" (reference_of c v))
  = [Some c; Some v].
Proof.
  unfold reference_of.
  change (Str.of_Z c +:+ ":" +:+ Str.of_Z v) with (Str.of_Z c +:+ String ":" (Str.of_Z v)).
  rewrite split_at_colon by apply no_colon_of_Z.
  rewrite split_no_colon by apply no_colon_of_Z.
  cbn [map]. rewrite !to_number_of_Z. reflexivity.
Qed.


(** X13. [getVerse] rejects a reference without a colon, and a reference
    whose chapter or verse number is 0, with the format error, before any
    I/O: the world is as it was. *)
Theorem getVerse_rejects_malformed_reference this reference w :
  no_colon reference = true \/
  (exists v, reference = reference_of 0 v) \/
  (exists c, reference = reference_of c 0) ->
  exec (getVerse this reference) w = (Thrown invalid_reference, w).
Proof.
  intros [H | [[v ->] | [c ->]]]; unfold getVerse.
  - rewrite (split_no_colon reference H). cbn [map].
    destruct (Js.to_number (JStr reference)); reflexivity.
  - rewrite numbers_of_reference. reflexivity.
  - rewrite numbers_of_reference. rewrite Z.eqb_refl, orb_true_r. reflexivity.
Qed.

Lemma getVerse_rejects_malformed_reference_witness :
  let w := World [] undefined ∅ quiet (fun _ => Resp 200 "{}") 0 [] [] in
  exec (getVerse default_config "Al-Fatihah") w = (Thrown invalid_reference, w) /\
  exec (getVerse default_config "0:7") w = (Thrown invalid_reference, w).
Proof.
  intros w. split.
  - apply getVerse_rejects_malformed_reference. left. reflexivity.
  - apply getVerse_rejects_malformed_reference. right. left. exists 7. reflexivity.
Defined.

Lemma get_prop_object v k x :
  Js.get_prop v k = Returned (J x) ->
  forall k', Js.get_prop v k' = Returned (Js.get_prop_opt v k').
Proof.
  intros H k'. unfold Js.get_prop_opt.
  destruct v as [|[| | | | |l]]; try discriminate H.
  - cbn. destruct (Json.field k' l); reflexivity.
Qed.

(** [find] stops at the first element with the verse number. *)
Lemma find_verse_first v before verse after :
  Forall (not_verse v) before ->
  Js.get_prop (J verse) "verse" = Returned (J (JNum v)) ->
  find_verse v (map J (before ++ verse :: after)) = Returned (Some (J verse)).
Proof.
  intros Hb Hv. induction Hb as [|x before (y & Hy & Hne) _ IH]; cbn [app map find_verse].
  - rewrite Hv, Z.eqb_refl. reflexivity.
  - rewrite Hy. destruct y as [|[| |z| | |]]; try exact IH.
    destruct (Z.eqb_spec z v) as [->|_]; [contradiction | exact IH].
Qed.

Lemma find_verse_absent v verses :
  Forall (not_verse v) verses -> find_verse v (map J verses) = Returned None.
Proof.
  intros H. induction H as [|x verses (y & Hy & Hne) _ IH]; cbn [map find_verse];
    [reflexivity|].
  rewrite Hy. destruct y as [|[| |z| | |]]; try exact IH.
  destruct (Z.eqb_spec z v) as [->|_]; [contradiction | exact IH].
Qed.

(** X14. [getVerse("c:v")], for numbers other than 0, does what
    [loadChapter(c)] does and nothing more. When the load fails, it fails
    with the same error. When the chapter has a content array, it returns
    the first element whose [verse] is the number [v] (no element before
    it has that number), together with the chapter's [chapter] and
    [name]; when no element of the content has that number, it throws the
    not-found error. *)
Theorem getVerse_finds_the_verse this c v w :
  c <> 0 -> v <> 0 ->
  let r := exec (getVerse this (reference_of c v)) w in
  let l := exec (loadChapter this c) w in
  snd r = snd l /\
  (forall e, fst l = Thrown e -> fst r = Thrown e) /\
  (forall chapter before verse after,
     fst l = Returned chapter ->
     Js.get_prop chapter "content" = Returned (J (JArr (before ++ verse :: after))) ->
     Forall (not_verse v) before ->
     Js.get_prop (J verse) "verse" = Returned (J (JNum v)) ->
     fst r = Returned
               (VerseInfo (Js.get_prop_opt chapter "chapter")
                  (Js.get_prop_opt chapter "name")
                  (J (JNum v))
                  (Js.get_prop_opt (J verse) "arabic")
                  (Js.get_prop_opt (J verse) "translations")
                  (Js.get_prop_opt (J verse) "transliteration")
                  (Js.get_prop_opt (J verse) "tafsir"))) /\
  (forall chapter verses,
     fst l = Returned chapter ->
     Js.get_prop chapter "content" = Returned (J (JArr verses)) ->
     Forall (not_verse v) verses ->
     fst r = Thrown (verse_not_found (reference_of c v))).
Proof.
  intros Hc Hv r l. subst r l. unfold getVerse.
  rewrite numbers_of_reference.
  rewrite (proj2 (Z.eqb_neq c 0) Hc), (proj2 (Z.eqb_neq v 0) Hv). cbn [orb].
  rewrite exec_bind.
  destruct (exec (loadChapter this c) w) as [[chapter|e] w1]; cbn [fst snd].
  - split; [|split; [discriminate|split]].
    + rewrite exec_bind, exec_lift.
      destruct (Js.get_prop chapter "content") as [content|]; [|reflexivity].
      rewrite exec_bind, exec_lift.
      destruct (find_in_content v content) as [[verse|]|]; try reflexivity.
      repeat (rewrite exec_bind, exec_lift;
              match goal with |- context [match ?o with Returned _ => _ | Thrown _ => _ end] =>
                destruct o; [|reflexivity] end).
      reflexivity.
    + intros chapter' before verse after H Hcontent Hbefore Hverse. injection H as <-.
      rewrite exec_bind, exec_lift, Hcontent, exec_bind, exec_lift.
      cbn [find_in_content]. rewrite (find_verse_first v before verse after Hbefore Hverse).
      rewrite !exec_bind, !exec_lift.
      rewrite !(get_prop_object chapter "content" _ Hcontent).
      cbn [exec bind lift]. rewrite !exec_bind, !exec_lift, Hverse.
      rewrite !(get_prop_object (J verse) "verse" _ Hverse).
      cbn [exec bind lift]. rewrite ?exec_bind, ?exec_lift. reflexivity.
    + intros chapter' verses H Hcontent Hnone. injection H as <-.
      rewrite exec_bind, exec_lift, Hcontent, exec_bind, exec_lift.
      cbn [find_in_content]. rewrite (find_verse_absent v verses Hnone). reflexivity.
  - split; [reflexivity|].
    split; [intros e' H; injection H as <-; reflexivity|].
    split; intros; discriminate.
Qed.

Lemma getVerse_finds_the_verse_witness :
  let w := search_world [("chapter-1", doubled_chapter)] in
  fst (exec (getVerse default_config "1:2") w)
  = Returned (VerseInfo (J (JNum 1)) (J (JStr "Al-Fatihah")) (J (JNum 2)) (J (JStr "two"))
                undefined undefined undefined) /\
  fst (exec (getVerse default_config "1:3") w) = Thrown (verse_not_found "1:3").
Proof.
  intros w.
  assert (H1 : 1 <> 0) by lia. assert (H2 : 2 <> 0) by lia. assert (H3 : 3 <> 0) by lia.
  assert (Hl : fst (exec (loadChapter default_config 1) w) = Returned doubled_chapter)
    by reflexivity.
  split.
  - destruct (getVerse_finds_the_verse default_config 1 2 w H1 H2) as (_ & _ & Hfound & _).
    refine (Hfound doubled_chapter
              [JObj [("verse", JNum 1); ("arabic", JStr "one")]]
              (JObj [("verse", JNum 2); ("arabic", JStr "two")])
              [JObj [("verse", JNum 2); ("arabic", JStr "again")]] Hl eq_refl _ eq_refl).
    apply Forall_cons_2; [|apply Forall_nil_2].
    exists (J (JNum 1)). split; [reflexivity | discriminate].
  - destruct (getVerse_finds_the_verse default_config 1 3 w H1 H3) as (_ & _ & _ & Hnone).
    refine (Hnone doubled_chapter _ Hl eq_refl _).
    repeat (apply Forall_cons_2; [eexists; split; [reflexivity | discriminate]|]).
    apply Forall_nil_2.
Defined.

End VerseFacts.

Module ChaptersFacts.
Import Prog Loop QuranService ProgFacts Footprint LoopFacts Spec.

#[local] Opaque Json.parse Json.stringify.

Lemma same_host_trans w1 w2 w3 : same_host w1 w2 -> same_host w2 w3 -> same_host w1 w3.
Proof. intros (A1 & A2 & A3) (B1 & B2 & B3). repeat split; congruence. Qed.

Lemma omap_cons_eq {A B} (f : A -> option B) x l :
  omap f (x :: l) = match f x with Some y => y :: omap f l | None => omap f l end.
Proof. reflexivity. Qed.

(** A load that the range check or the memory cache settles at once. *)
Lemma start_settled this n w :
  ((n <? 1) || (n >? 114) = false -> W.map_has (chapter_key n) (cache w) = true) ->
  exists w',
    start (loadChapter this n) w =
      (Done (if (n <? 1) || (n >? 114) then Thrown invalid_chapter
             else Returned (W.map_get (chapter_key n) (cache w))), w') /\
    same_host w w'.
Proof.
  intros H. unfold loadChapter. fold (chapter_key n).
  destruct ((n <? 1) || (n >? 114)).
  - exists w. split; [reflexivity|]. repeat split.
  - cbn [bind perform start as_request handle]. rewrite (H eq_refl).
    cbn [bind perform start as_request handle cache W.emit W.print].
    eexists. split; [reflexivity|]. repeat split. cbn.
    rewrite !SearchFacts.requests_emit, !app_nil_r. reflexivity.
Qed.

Lemma start_all_settled this ns w :
  Forall (fun n => (n <? 1) || (n >? 114) = false ->
                   W.map_has (chapter_key n) (cache w) = true) ns ->
  exists os w',
    start_all (map (loadChapter this) ns) w = (map Done os, w') /\
    omap (fun o => match o with Returned v => Some v | Thrown _ => None end) os
      = served (cache w) ns /\
    length os = length ns /\
    same_host w w'.
Proof.
  revert w. induction ns as [|n ns IH]; intros w Hall.
  - exists [], w. repeat split.
  - inversion Hall as [|? ? Hn Hns]; subst.
    destruct (start_settled this n w Hn) as (w1 & E1 & H1).
    assert (Hc : cache w1 = cache w) by apply H1.
    destruct (IH w1) as (os & w' & E & Hs & Hl & H2).
    { rewrite Hc. exact Hns. }
    exists ((if (n <? 1) || (n >? 114) then Thrown invalid_chapter
             else Returned (W.map_get (chapter_key n) (cache w))) :: os), w'.
    cbn [map start_all]. rewrite E1, E. split; [reflexivity|].
    split; [|split; [cbn; congruence | eapply same_host_trans; eassumption]].
    unfold served in *. rewrite Hc in Hs. rewrite !omap_cons_eq, Hs.
    destruct ((n <? 1) || (n >? 114)); [reflexivity|].
    rewrite (Hn eq_refl). reflexivity.
Qed.

Lemma all_done_map_Done os : all_done (map Done os) = Some os.
Proof. induction os as [|o os IH]; cbn; [reflexivity|]. rewrite IH. reflexivity. Qed.

(** X15. [loadChapters] on numbers that are out of range or in the memory
    cache: it ends in the turn in which it is called, never throws, and
    returns the chapters the memory cache holds for the numbers in 1..114,
    in the order of the list; numbers out of range are dropped. It sends no
    request and touches neither the storage nor the memory cache. *)
Theorem loadChapters_from_memory this ns m :
  Forall (fun n => 1 <= n <= 114 -> W.map_has (chapter_key n) (cache (host m)) = true) ns ->
  exists m',
    run (loadChapters this ns) m = (TDone (Returned (served (cache (host m)) ns)), m') /\
    same_host (host m) (host m') /\
    background m' = background m /\ timers m' = timers m.
Proof.
  intros Hall. unfold loadChapters.
  cbn [run start perform as_request handle with_host host].
  destruct (start_all_settled this ns
              (W.print LLog ("Loading " +:+ Str.of_Z (Z.of_nat (length ns)) +:+ " chapters...")
                 (host m))) as (os & w' & E & Hs & Hl & Hh).
  { cbn [cache W.print]. eapply Forall_impl; [exact Hall|]. cbn beta.
    intros n H Hr. apply H. apply orb_false_iff in Hr as [H1 H2].
    apply Z.ltb_ge in H1. rewrite Z.gtb_ltb in H2. apply Z.ltb_ge in H2. lia. }
  rewrite E, all_done_map_Done. cbn [cache W.print] in Hs. rewrite Hs.
  destruct (omap (fun r => match r with Returned _ => None | Thrown e => Some e end) os);
    cbn [run start bind perform as_request handle with_host host background timers];
    eexists; (split; [reflexivity|]); cbn [host background timers];
    (split; [|split; reflexivity]);
    destruct Hh as (H1 & H2 & H3); repeat split; cbn; assumption.
Qed.


Lemma loadChapters_from_memory_witness :
  let m := Machine (search_world [("chapter-1", J (JStr "one"));
                                  ("chapter-114", J (JStr "last"))]) [] [] in
  exists m',
    run (loadChapters default_config [114; 0; 1; 200]) m
      = (TDone (Returned [J (JStr "last"); J (JStr "one")]), m').
Proof.
  intros m.
  destruct (loadChapters_from_memory default_config [114; 0; 1; 200] m) as (m' & E & _).
  - repeat (apply Forall_cons_2 || apply Forall_nil_2); intros H;
      solve [reflexivity | exfalso; lia].
  - exists m'. exact E.
Defined.


(** X16. For the lists of the constructor: a chapter is commonly read
    exactly when it is on one of the two lists [getRecommendedChapters]
    returns; every such chapter has a number in 1..114, so that its load
    passes the range check, and no chapter is on the lists twice. *)
Theorem commonly_read_chapters_are_valid n :
  let lists := getRecommendedChapters default_config in
  (isCommonlyRead default_config n = true <->
   In n (r_essential lists) \/ In n (r_popular lists)) /\
  (isCommonlyRead default_config n = true ->
   1 <= n <= 114 /\ (n <? 1) || (n >? 114) = false) /\
  NoDup (r_essential lists ++ r_popular lists).
Proof.
  cbn zeta. unfold isCommonlyRead, getRecommendedChapters. cbn [r_essential r_popular].
  split; [|split].
  - rewrite orb_true_iff, !existsb_exists. split.
    + intros [(x & Hin & E) | (x & Hin & E)]; apply Z.eqb_eq in E; subst x; auto.
    + intros [Hin | Hin]; [left | right]; exists n; (split; [exact Hin | apply Z.eqb_refl]).
  - intros H. apply orb_true_iff in H. rewrite !existsb_exists in H.
    assert (Hin : In n (essential default_config ++ popular default_config)).
    { apply in_or_app. destruct H as [(x & Hin & E) | (x & Hin & E)];
        apply Z.eqb_eq in E; subst x; auto. }
    cbn in Hin.
    assert (Hr : 1 <= n <= 114) by (repeat (destruct Hin as [<- | Hin]; [lia|]); contradiction).
    split; [exact Hr | apply LoadFacts.in_range, Hr].
  - cbn. apply NoDup_ListNoDup. repeat (constructor; [cbn; intuition lia|]). constructor.
Qed.

Lemma commonly_read_chapters_are_valid_witness :
  isCommonlyRead default_config 36 = true /\ 1 <= 36 <= 114.
Proof.
  destruct (commonly_read_chapters_are_valid 36) as (_ & H & _).
  split; [reflexivity | exact (proj1 (H eq_refl))].
Defined.

End ChaptersFacts.

Module AccessorFacts.
Import Prog Dart ProgFacts Footprint Spec.

#[local] Opaque Json.parse Json.stringify.

Lemma cached_get_hit key url failure w :
  W.map_has key (cache w) = true ->
  exec (cached_get key url failure) w =
  (as_map (dyn (W.map_get key (cache w))),
   W.emit (CacheRead key) (W.emit (CacheRead key) w)).
Proof.
  intros H. unfold cached_get. cbn [bind perform exec handle]. rewrite H.
  cbn [bind perform exec handle cache W.emit]. rewrite exec_lift. reflexivity.
Qed.

Lemma cached_get_miss key url failure w body v :
  W.map_has key (cache w) = false ->
  net w url = Resp 200 body ->
  Json.parse body = Some v ->
  exec (cached_get key url failure) w =
  (as_map v,
   W.emit (CacheWrite key)
     (W.set_cache (W.map_set key (J v))
        (W.emit (Fetch url) (W.emit (CacheRead key) w)))).
Proof.
  intros H Hn Hp. unfold cached_get, http_get, json_decode.
  cbn [bind perform exec handle]. rewrite H.
  cbn [bind perform exec handle net W.emit]. rewrite Hn.
  cbn [bind exec]. rewrite Hp.
  cbn [bind perform exec handle]. rewrite Z.eqb_refl. cbn [exec handle].
  rewrite exec_lift. reflexivity.
Qed.

(** X17. The accessors ([getQuranIndex], [getChapter], [getHadithIndex],
    [getCollection], [getBook], [getDuasIndex], [getDuasCategory]) fetch a
    document once: on a miss, a response with status 200 whose body is a
    JSON object is returned and cached with one request, and the next call
    returns the same document from the cache without a request. *)
Theorem accessor_fetches_once key url failure w body l :
  W.map_has key (cache w) = false ->
  net w url = Resp 200 body ->
  Json.parse body = Some (JObj l) ->
  let r1 := exec (cached_get key url failure) w in
  let r2 := exec (cached_get key url failure) (snd r1) in
  fst r1 = Returned (JObj l) /\
  Loop.requests (trace (snd r1)) = (Loop.requests (trace w) ++ [url])%list /\
  fst r2 = Returned (JObj l) /\
  Loop.requests (trace (snd r2)) = Loop.requests (trace (snd r1)).
Proof.
  intros H Hn Hp r1 r2. subst r1 r2.
  rewrite (cached_get_miss key url failure w body (JObj l) H Hn Hp). cbn [fst snd].
  rewrite cached_get_hit by (cbn; apply ChapterFacts.map_has_set).
  cbn [fst snd cache trace W.emit W.set_cache]. rewrite LoadFacts.map_get_set.
  rewrite !SearchFacts.requests_emit, !app_nil_r. repeat split; reflexivity.
Qed.

Lemma accessor_fetches_once_witness :
  let w := World [] undefined ∅ quiet (fun _ => Resp 200 "{}") 0 [] [] in
  fst (exec (getBook "bukhari" 1) w) = Returned (JObj []) /\
  fst (exec (getBook "bukhari" 1) (snd (exec (getBook "bukhari" 1) w))) = Returned (JObj []) /\
  Loop.requests (trace (snd (exec (getBook "bukhari" 1) (snd (exec (getBook "bukhari" 1) w)))))
    = [book_url "bukhari" 1].
Proof.
  intros w.
  assert (Hp : Json.parse "{}" = Some (JObj [])) by (vm_compute; reflexivity).
  destruct (accessor_fetches_once (book_key "bukhari" 1) (book_url "bukhari" 1)
              "Failed to load book 1 from bukhari" w "{}" [] eq_refl eq_refl Hp)
    as (H1 & Hq1 & H2 & Hq2).
  split; [exact H1|]. split; [exact H2|].
  unfold getBook. fold (book_key "bukhari" 1). fold (book_url "bukhari" 1).
  change ("Failed to load book " +:+ Str.of_Z 1 +:+ " from " +:+ "bukhari")
    with "Failed to load book 1 from bukhari".
  rewrite Hq2, Hq1. reflexivity.
Defined.

(** X18. A failed fetch is not cached: when there is no response, the
    status is not 200 (another status of the 200s also counts as a
    failure) or the body is not JSON, the accessor throws and leaves the
    cache as it was, so that the next call asks the network again. *)
Theorem accessor_failure_is_not_cached key url failure w :
  W.map_has key (cache w) = false ->
  dart_failure (net w url) ->
  let r := exec (cached_get key url failure) w in
  (exists e, fst r = Thrown e) /\
  cache (snd r) = cache w /\
  Loop.requests (trace (snd r)) = (Loop.requests (trace w) ++ [url])%list.
Proof.
  intros H Hf r. subst r. unfold cached_get, http_get, json_decode.
  cbn [bind perform exec handle]. rewrite H.
  cbn [bind perform exec handle net W.emit].
  destruct (net w url) as [|status body]; cbn [bind exec].
  - split; [eauto|]. split; [reflexivity|]. cbn.
    rewrite !SearchFacts.requests_emit, !app_nil_r. reflexivity.
  - destruct (Z.eqb_spec status 200) as [->|Hne].
    + destruct Hf as [Hf|Hf]; [contradiction|]. rewrite Hf. cbn [bind exec].
      split; [eauto|]. split; [reflexivity|]. cbn.
      rewrite !SearchFacts.requests_emit, !app_nil_r. reflexivity.
    + cbn [exec]. split; [eauto|]. split; [reflexivity|]. cbn.
      rewrite !SearchFacts.requests_emit, !app_nil_r. reflexivity.
Qed.

Lemma accessor_failure_is_not_cached_witness :
  let w := World [] undefined ∅ quiet (fun _ => Resp 204 "{}") 0 [] [] in
  (exists e, fst (exec (getChapter 1) w) = Thrown e) /\
  cache (snd (exec (getChapter 1) w)) = [].
Proof.
  intros w.
  assert (Hf : dart_failure (net w (Dart.baseUrl +:+ "data/quran/chapters/" +:+
                                    Str.padStart 3 "0" (Str.of_Z 1) +:+ ".json"))).
  { left. cbn. lia. }
  destruct (accessor_failure_is_not_cached ("chapter_" +:+ Str.of_Z 1) _
              ("Failed to load chapter " +:+ Str.of_Z 1) w eq_refl Hf) as (He & Hc & _).
  split; [exact He | exact Hc].
Defined.

(** X19. A body that is JSON but not a JSON object is cached all the same:
    the store into the cache comes before the cast of the returned value.
    The call throws the cast error, and so does every later call, without
    asking the network again. *)
Theorem accessor_caches_a_body_that_is_not_a_map key url failure w body v :
  W.map_has key (cache w) = false ->
  net w url = Resp 200 body ->
  Json.parse body = Some v ->
  (forall l, v <> JObj l) ->
  let r1 := exec (cached_get key url failure) w in
  let r2 := exec (cached_get key url failure) (snd r1) in
  (exists msg, fst r1 = Thrown (TypeError msg)) /\
  W.map_get key (cache (snd r1)) = J v /\
  (exists msg, fst r2 = Thrown (TypeError msg)) /\
  Loop.requests (trace (snd r2)) = Loop.requests (trace (snd r1)).
Proof.
  intros H Hn Hp Hv r1 r2. subst r1 r2.
  rewrite (cached_get_miss key url failure w body v H Hn Hp). cbn [fst snd].
  rewrite cached_get_hit by (cbn; apply ChapterFacts.map_has_set).
  cbn [fst snd cache trace W.emit W.set_cache]. rewrite LoadFacts.map_get_set.
  rewrite !SearchFacts.requests_emit, !app_nil_r.
  assert (Hm : exists msg, as_map v = Thrown (TypeError msg)).
  { destruct v; try (eexists; reflexivity). exfalso. eapply Hv. reflexivity. }
  cbn [dyn]. repeat split; try exact Hm.
Qed.

Lemma accessor_caches_a_body_that_is_not_a_map_witness :
  let w := World [] undefined ∅ quiet (fun _ => Resp 200 "[]") 0 [] [] in
  let w1 := snd (exec (getChapter 1) w) in
  W.map_get "chapter_1" (cache w1) = J (JArr []) /\
  Loop.requests (trace (snd (exec (getChapter 1) w1))) = Loop.requests (trace w1).
Proof.
  intros w w1.
  assert (Hp : Json.parse "[]" = Some (JArr [])) by (vm_compute; reflexivity).
  destruct (accessor_caches_a_body_that_is_not_a_map ("chapter_" +:+ Str.of_Z 1)
              (Dart.baseUrl +:+ "data/quran/chapters/" +:+
               Str.padStart 3 "0" (Str.of_Z 1) +:+ ".json")
              ("Failed to load chapter " +:+ Str.of_Z 1) w "[]" (JArr [])
              eq_refl eq_refl Hp) as (_ & Hc & _ & Hq).
  - intros l. discriminate.
  - split; [exact Hc | exact Hq].
Defined.

End AccessorFacts.

Module DartVerseFacts.
Import Prog Dart ProgFacts Footprint Spec.

#[local] Opaque Json.parse Json.stringify.

Ltac run := repeat first [rewrite exec_bind | rewrite exec_lift | progress cbv beta iota].





(** *** The Dart search *)

Lemma at_key_field fields k : at_key (JObj fields) k = Returned (field_or_null k fields).
Proof. unfold field_or_null. cbn [at_key]. destruct (Json.field k fields); reflexivity. Qed.

(** The text the code reads is the text of the verse. *)
Lemma verse_text_in language verse text :
  verse_text language verse = Returned text ->
  exists fields, verse = JObj fields /\ text_in language fields = Some text.
Proof.
  unfold verse_text. destruct verse as [| | | | |fields]; try discriminate.
  rewrite !at_key_field. unfold text_in. intros H. exists fields. split; [reflexivity|].
  destruct (field_or_null "translations" fields) as [| | | | |translations];
    try discriminate H; try (injection H as <-; reflexivity).
  rewrite at_key_field in H.
  destruct (field_or_null language translations);
    injection H as <-; reflexivity.
Qed.

Lemma search_content_text_hits query language verses acc rs :
  search_content query language verses acc = Returned rs ->
  rs = (acc ++ omap (text_hit query language) verses)%list.
Proof.
  revert acc. induction verses as [|verse verses IH]; intros acc; cbn [search_content].
  - intros H. injection H as <-. rewrite app_nil_r. reflexivity.
  - rewrite ChaptersFacts.omap_cons_eq.
    destruct (verse_text language verse) as [text|] eqn:Et; [|discriminate].
    destruct (verse_text_in _ _ _ Et) as (fields & -> & Hin).
    unfold text_hit. rewrite Hin. rewrite !at_key_field.
    destruct text as [| | |text| |]; try discriminate.
    destruct (Str.includes (Str.toLowerCase text) (Str.toLowerCase query)).
    + intros H. rewrite (IH _ H), <- app_assoc. reflexivity.
    + apply IH.
Qed.

(** X21. The Dart [searchVerses] searches chapter 1 and no other
    chapter, loading it when it is not cached. What it returns is, in the
    order of the content and without a cap, one match for every verse
    whose text contains the query, both in lower case; the text of a
    verse is its translation in the language or, when it has no
    translations or none in the language, its Arabic text; a match
    carries the chapter number 1, the [verse] and [arabic] fields of the
    verse and the text that was searched. *)
Theorem dart_searchVerses_searches_chapter_one query language w rs :
  fst (exec (searchVerses query language) w) = Returned rs ->
  snd (exec (searchVerses query language) w) = snd (exec (getChapter 1) w) /\
  exists chapterData verses,
    fst (exec (getChapter 1) w) = Returned chapterData /\
    at_key chapterData "content" = Returned (JArr verses) /\
    rs = omap (text_hit query language) verses.
Proof.
  unfold searchVerses. rewrite exec_bind.
  destruct (exec (getChapter 1) w) as [[chapterData|e] w1]; cbn [fst snd]; [|discriminate].
  run. destruct (at_key chapterData "content") as [content|] eqn:Ec; run; [|discriminate].
  destruct content as [| | | |verses|]; cbn [as_list]; run; try discriminate.
  cbn [fst snd]. intros H. split; [reflexivity|].
  exists chapterData, verses. split; [reflexivity|]. split; [exact Ec|].
  exact (search_content_text_hits _ _ _ [] _ H).
Qed.

Lemma dart_searchVerses_searches_chapter_one_witness :
  let w := search_world [("chapter_1", J fatihah)] in
  fst (exec (searchVerses "NAME" "en") w)
  = Returned [TextMatch 1 (JNum 1) "In the name" (JStr "bismi");
              TextMatch 1 (JNum 3) "name" (JStr "name")].
Proof.
  intros w.
  assert (Hr : exists rs, fst (exec (searchVerses "NAME" "en") w) = Returned rs).
  { eexists. vm_compute. reflexivity. }
  destruct Hr as [rs Hr]. rewrite Hr. f_equal.
  destruct (dart_searchVerses_searches_chapter_one "NAME" "en" w rs Hr)
    as (_ & chapterData & verses & Hc & Hv & ->).
  assert (Hg : fst (exec (getChapter 1) w) = Returned fatihah) by (vm_compute; reflexivity).
  rewrite Hg in Hc. injection Hc as <-.
  cbn in Hv. injection Hv as <-. reflexivity.
Defined.

End DartVerseFacts.

Module LanguageFacts.
Import Prog Dart ProgFacts Footprint Spec.

#[local] Opaque Json.parse Json.stringify.

Ltac run := repeat first [rewrite exec_bind | rewrite exec_lift | progress cbv beta iota].

Lemma keys_spec l seen k :
  In k (keys l seen) <-> (exists v, In (k, v) l) /\ ~ In k seen.
Proof.
  revert seen. induction l as [|[k' v'] l IH]; intros seen; cbn [keys].
  - split; [contradiction | intros [[v []] _]].
  - destruct (existsb (String.eqb k') seen) eqn:E.
    + rewrite IH. apply existsb_exists in E as (x & Hin & Hx). apply String.eqb_eq in Hx. subst x.
      split.
      * intros [[v Hv] Hs]. split; [exists v; right; exact Hv | exact Hs].
      * intros [[v [Hv|Hv]] Hs]; [injection Hv as <- <-; contradiction|].
        split; [exists v; exact Hv | exact Hs].
    + assert (Hk' : ~ In k' seen).
      { intros Hin. apply not_true_iff_false in E. apply E. apply existsb_exists.
        exists k'. split; [exact Hin | apply String.eqb_refl]. }
      cbn [In]. rewrite IH. cbn [In]. split.
      * intros [<- | [[v Hv] Hs]]; [split; [exists v'; left; reflexivity | exact Hk']|].
        split; [exists v; right; exact Hv | tauto].
      * intros [[v [Hv|Hv]] Hs]; [injection Hv as <- <-; left; reflexivity|].
        destruct (String.eqb_spec k' k) as [->|Hne]; [left; reflexivity|].
        right. split; [exists v; exact Hv|]. intros [E'|E']; [congruence | contradiction].
Qed.

Lemma keys_NoDup l seen : NoDup (keys l seen).
Proof.
  revert seen. induction l as [|[k v] l IH]; intros seen; cbn [keys]; [constructor|].
  destruct (existsb (String.eqb k) seen); [apply IH|].
  constructor; [|apply IH]. rewrite list_elem_of_In, keys_spec. cbn [In]. tauto.
Qed.

(** [getSupportedLanguages] is [getMetadata] followed by a look into
    the document. *)
Lemma getSupportedLanguages_exec contentType w :
  exec (getSupportedLanguages contentType) w =
  match exec getMetadata w with
  | (Returned metadata, w') => (supported_of metadata contentType, w')
  | (Thrown e, w') => (Thrown e, w')
  end.
Proof.
  unfold getSupportedLanguages, supported_of, translations_of. rewrite exec_bind.
  destruct (exec getMetadata w) as [[metadata|e] w']; [|reflexivity].
  run. destruct (at_key metadata "content") as [types|]; run; [|reflexivity].
  destruct (at_key types contentType) as [content|]; run; [|reflexivity].
  destruct (at_key content "languages") as [languages|]; run; [|reflexivity].
  destruct (at_key languages "translations") as [[| | | | |]|]; run; reflexivity.
Qed.

(** X22. Arabic always comes first in the list of supported languages; the
    rest are the keys of the translations map of the content type, each
    once, and there is no rest when the metadata has no such map. *)
Theorem getSupportedLanguages_starts_with_arabic contentType w languages :
  fst (exec (getSupportedLanguages contentType) w) = Returned languages ->
  exists metadata rest,
    fst (exec getMetadata w) = Returned metadata /\
    languages = "ar" :: rest /\
    NoDup rest /\
    match translations_of metadata contentType with
    | Returned (JObj l) => forall k, In k rest <-> exists v, In (k, v) l
    | Returned JNull => rest = []
    | _ => False
    end.
Proof.
  rewrite getSupportedLanguages_exec. unfold supported_of.
  destruct (exec getMetadata w) as [[metadata|e] w']; cbn [fst]; [|discriminate].
  destruct (translations_of metadata contentType) as [[| | | | |l]|] eqn:Et; try discriminate;
    intros H; injection H as <-; exists metadata; eexists; (split; [reflexivity|]);
    (split; [reflexivity|]); rewrite Et.
  - split; [apply NoDup_nil_2 | reflexivity].
  - split; [apply keys_NoDup|]. cbv beta iota. intros k. rewrite keys_spec. cbn [In]. tauto.
Qed.

Lemma getSupportedLanguages_starts_with_arabic_witness :
  let metadata :=
    JObj [("content",
           JObj [("hadith",
                  JObj [("languages",
                         JObj [("translations",
                                JObj [("en", JStr "English"); ("ur", JStr "Urdu")])])])])] in
  let w := World [] undefined ∅ quiet (fun _ => Resp 200 (Json.stringify metadata)) 0 [] [] in
  exists rest,
    fst (exec (getSupportedLanguages "hadith") w) = Returned ("ar" :: rest) /\ NoDup rest.
Proof.
  intros metadata w.
  destruct (getSupportedLanguages_starts_with_arabic "hadith" w ["ar"; "en"; "ur"])
    as (m & rest & _ & E & Hn & _).
  - vm_compute. reflexivity.
  - exists rest. split; [rewrite <- E; vm_compute; reflexivity | exact Hn].
Defined.


(** *** The metadata *)

Lemma getMetadata_cached w m : index w = J m -> exec getMetadata w = (Returned m, w).
Proof. intros H. unfold getMetadata. cbn [bind perform exec handle]. rewrite H. reflexivity. Qed.

(** The first call of an instance: one request, and the document is
    kept when the call returns. *)
Lemma getMetadata_fresh w :
  index w = undefined ->
  let r := exec getMetadata w in
  Loop.requests (trace (snd r)) = (Loop.requests (trace w) ++ [metadata_url])%list /\
  forall m, fst r = Returned m -> index (snd r) = J m.
Proof.
  intros H r. subst r. unfold getMetadata, http_get, json_decode. fold metadata_url.
  cbn [bind perform exec handle]. rewrite H.
  cbn [bind perform exec handle net W.emit].
  destruct (net w metadata_url) as [|status body]; cbn [bind exec fst snd trace].
  - split; [apply SearchFacts.requests_emit | discriminate].
  - destruct (status =? 200); cbn [bind exec fst snd trace];
      [|split; [apply SearchFacts.requests_emit | discriminate]].
    destruct (Json.parse body) as [v|]; cbn [bind exec fst snd trace];
      [|split; [apply SearchFacts.requests_emit | discriminate]].
    run. destruct v; cbn [as_map]; run; cbn [exec handle perform bind fst snd trace];
      try (split; [apply SearchFacts.requests_emit | discriminate]).
    split; [apply SearchFacts.requests_emit|]. intros m Hm. injection Hm as <-. reflexivity.
Qed.

(** A new instance, as [LanguageManager] creates one for each call. *)
Lemma new_service_exec w :
  exec new_service w =
  (Returned tt, W.emit CacheReset (W.set_cache (fun _ => []) (W.set_index undefined w))).
Proof. reflexivity. Qed.

Lemma getAvailableLanguages_head contentType w available :
  fst (exec (getAvailableLanguages contentType) w) = Returned available ->
  exists rest, available = "ar" :: rest.
Proof.
  unfold getAvailableLanguages. rewrite exec_bind, new_service_exec.
  rewrite getSupportedLanguages_exec. unfold supported_of.
  destruct (exec getMetadata _) as [[metadata|e] w']; cbn [fst]; [|discriminate].
  destruct (translations_of metadata contentType) as [[| | | | |l]|]; try discriminate;
    intros H; injection H as <-; eauto.
Qed.

(** X23. [getBestAvailableLanguage] returns a supported language: the
    preferred one when it is supported, else English when it is supported,
    else Arabic, which is always supported, so that the last fall-back to
    the first language of the list is never reached. The call creates a
    service of its own, so it sends a request for the metadata each time,
    whatever an earlier call has loaded. *)
Theorem getBestAvailableLanguage_is_supported contentType preferred w :
  let a := exec (getAvailableLanguages contentType) w in
  let r := exec (getBestAvailableLanguage contentType preferred) w in
  snd r = snd a /\
  Loop.requests (trace (snd r)) = (Loop.requests (trace w) ++ [metadata_url])%list /\
  (forall e, fst a = Thrown e -> fst r = Thrown e) /\
  (forall available, fst a = Returned available ->
     fst r = Returned (best_of available preferred) /\
     In (best_of available preferred) available).
Proof.
  intros a r. subst a r. unfold getBestAvailableLanguage. rewrite exec_bind.
  pose proof (getAvailableLanguages_head contentType w) as Hhead.
  assert (Hreq : Loop.requests (trace (snd (exec (getAvailableLanguages contentType) w)))
                 = (Loop.requests (trace w) ++ [metadata_url])%list).
  { unfold getAvailableLanguages. rewrite exec_bind, new_service_exec.
    rewrite getSupportedLanguages_exec.
    match goal with |- context [exec getMetadata ?w0] =>
      destruct (getMetadata_fresh w0 eq_refl) as [Hq _];
      destruct (exec getMetadata w0) as [[metadata|e] w'] end;
      cbn [snd] in *; rewrite Hq; cbn [trace W.emit W.set_cache W.set_index];
      rewrite SearchFacts.requests_emit, app_nil_r; reflexivity. }
  destruct (exec (getAvailableLanguages contentType) w) as [[available|e] w']; cbn [fst snd] in *.
  - destruct (Hhead available eq_refl) as (rest & ->).
    assert (Har : existsb (String.eqb "ar") ("ar" :: rest) = true) by reflexivity.
    unfold best_of.
    destruct (existsb (String.eqb preferred) ("ar" :: rest)) eqn:Ep;
      [|destruct (existsb (String.eqb "en") ("ar" :: rest)) eqn:Een; [|rewrite Har]];
      cbn [exec fst snd]; (split; [reflexivity|]); (split; [exact Hreq|]);
      (split; [discriminate|]); intros available H; injection H as <-;
      rewrite ?Ep, ?Een; (split; [reflexivity|]).
    + apply existsb_exists in Ep as (x & Hin & Hx). apply String.eqb_eq in Hx. subst x. exact Hin.
    + apply existsb_exists in Een as (x & Hin & Hx). apply String.eqb_eq in Hx. subst x. exact Hin.
    + left. reflexivity.
  - split; [reflexivity|]. split; [exact Hreq|].
    split; [intros e' H; injection H as <-; reflexivity | discriminate].
Qed.

Lemma getBestAvailableLanguage_is_supported_witness :
  let metadata :=
    JObj [("content",
           JObj [("duas",
                  JObj [("languages",
                         JObj [("translations", JObj [("en", JStr "English")])])])])] in
  let w := World [] (J metadata) ∅ quiet (fun _ => Resp 200 (Json.stringify metadata)) 0 [] [] in
  fst (exec (getBestAvailableLanguage "duas" "tr") w) = Returned "en" /\
  Loop.requests (trace (snd (exec (getBestAvailableLanguage "duas" "tr") w))) = [metadata_url].
Proof.
  intros metadata w.
  destruct (getBestAvailableLanguage_is_supported "duas" "tr" w) as (_ & Hq & _ & H).
  split; [|exact Hq].
  destruct (H ["ar"; "en"]) as [Hr _]; [vm_compute; reflexivity | exact Hr].
Defined.

(** Whenever [getMetadata] returns, the instance holds the document. *)
Lemma getMetadata_keeps w m w' :
  exec getMetadata w = (Returned m, w') -> index w' = J m.
Proof.
  destruct (index w) as [|m0] eqn:Hi.
  - intros E. destruct (getMetadata_fresh w Hi) as [_ H]. rewrite E in H. apply H. reflexivity.
  - rewrite (getMetadata_cached w m0 Hi). intros E. injection E as <- <-. exact Hi.
Qed.

Lemma getAllSupportedLanguages_exec w :
  exec getAllSupportedLanguages w =
  match exec getMetadata w with
  | (Returned metadata, w') => (all_supported metadata, w')
  | (Thrown e, w') => (Thrown e, w')
  end.
Proof.
  unfold getAllSupportedLanguages, all_supported. rewrite exec_bind.
  destruct (exec getMetadata w) as [[m|e] w'] eqn:E; [|reflexivity].
  pose proof (getMetadata_cached w' m (getMetadata_keeps w m w' E)) as Hc.
  rewrite exec_bind, getSupportedLanguages_exec, Hc.
  destruct (supported_of m "quran"); [|reflexivity].
  rewrite exec_bind, getSupportedLanguages_exec, Hc.
  destruct (supported_of m "hadith"); [|reflexivity].
  rewrite exec_bind, getSupportedLanguages_exec, Hc.
  destruct (supported_of m "duas"); reflexivity.
Qed.

(** X24. [getAllSupportedLanguages] loads the metadata once: on an instance
    that has not loaded it, a call that returns has sent one request, for
    the metadata, and lists the three content types in the order quran,
    hadith, duas; the instance keeps the document, so the next call sends
    nothing and returns the same. *)
Theorem metadata_is_loaded_once w languages :
  index w = undefined ->
  fst (exec getAllSupportedLanguages w) = Returned languages ->
  let w1 := snd (exec getAllSupportedLanguages w) in
  map fst languages = ["quran"; "hadith"; "duas"] /\
  Loop.requests (trace w1) = (Loop.requests (trace w) ++ [metadata_url])%list /\
  exec getAllSupportedLanguages w1 = (Returned languages, w1).
Proof.
  intros Hi. rewrite getAllSupportedLanguages_exec.
  destruct (getMetadata_fresh w Hi) as [Hq _].
  destruct (exec getMetadata w) as [[m|e] w'] eqn:E; cbn [fst snd] in *; [|discriminate].
  intros H. split; [|split; [exact Hq|]].
  - unfold all_supported in H.
    destruct (supported_of m "quran"), (supported_of m "hadith"), (supported_of m "duas");
      try discriminate H.
    injection H as <-. reflexivity.
  - rewrite getAllSupportedLanguages_exec,
      (getMetadata_cached w' m (getMetadata_keeps w m w' E)), H.
    reflexivity.
Qed.

Lemma metadata_is_loaded_once_witness :
  let metadata :=
    JObj [("content",
           JObj [("quran", JObj [("languages", JObj [])]);
                 ("hadith", JObj [("languages", JObj [("translations", JObj [("ur", JNull)])])]);
                 ("duas", JObj [("languages", JObj [])])])] in
  let w := World [] undefined ∅ quiet (fun _ => Resp 200 (Json.stringify metadata)) 0 [] [] in
  let w1 := snd (exec getAllSupportedLanguages w) in
  Loop.requests (trace (snd (exec getAllSupportedLanguages w1))) = [metadata_url].
Proof.
  intros metadata w w1.
  destruct (metadata_is_loaded_once w
              [("quran", ["ar"]); ("hadith", ["ar"; "ur"]); ("duas", ["ar"])] eq_refl)
    as (_ & H1 & H2).
  - vm_compute. reflexivity.
  - fold w1 in H1, H2. rewrite H2. exact H1.
Defined.

End LanguageFacts.

Module DuasFacts.
Import Prog Dart ProgFacts Footprint Spec.

#[local] Opaque Json.parse Json.stringify.

Ltac run := repeat first [rewrite exec_bind | rewrite exec_lift | progress cbv beta iota].

Lemma is_string_eq occasion v : is_string occasion v = true -> v = JStr occasion.
Proof.
  destruct v; try discriminate. cbn. intros H. apply String.eqb_eq in H. congruence.
Qed.

Lemma where_occasion_sound occasion duas l :
  where_occasion occasion duas = Returned l -> Forall (for_occasion occasion) l.
Proof.
  revert l. induction duas as [|dua duas IH]; intros l; cbn [where_occasion].
  - intros H. injection H as <-. constructor.
  - destruct (at_key dua "occasion") as [o|] eqn:E; [|discriminate].
    destruct (where_occasion occasion duas) as [l'|]; [|discriminate].
    intros H. injection H as <-. specialize (IH l' eq_refl).
    destruct (is_string occasion o) eqn:Eo; [|exact IH].
    constructor; [|exact IH]. unfold for_occasion. rewrite E.
    rewrite (is_string_eq _ _ Eo). reflexivity.
Qed.

Lemma scan_categories_sound occasion categories acc w results :
  Forall (for_occasion occasion) acc ->
  fst (exec (scan_categories occasion categories acc) w) = Returned results ->
  Forall (for_occasion occasion) results.
Proof.
  revert acc w. induction categories as [|category categories IH]; intros acc w Hacc;
    cbn [scan_categories].
  - cbn. intros H. injection H as <-. exact Hacc.
  - run. destruct (at_key category "occasions") as [listed|]; run; [|discriminate].
    destruct (as_list listed) as [occasions|]; run; [|discriminate].
    destruct (existsb (is_string occasion) occasions); [|apply IH; exact Hacc].
    run. destruct (at_key category "id") as [id|]; run; [|discriminate].
    destruct (as_string id) as [name|]; run; [|discriminate].
    destruct (exec (getDuasCategory name) w) as [[categoryData|e] w1]; run; [|discriminate].
    destruct (at_key categoryData "content") as [content|]; run; [|discriminate].
    destruct (as_list content) as [duas|]; run; [|discriminate].
    destruct (where_occasion occasion duas) as [filtered|] eqn:Ef; run; [|discriminate].
    apply IH. apply Forall_app. split; [exact Hacc|].
    exact (where_occasion_sound _ _ _ Ef).
Qed.

Lemma scan_categories_not_listed occasion categories acc w :
  Forall (not_listed occasion) categories ->
  exec (scan_categories occasion categories acc) w = (Returned acc, w).
Proof.
  induction 1 as [|category categories (l & El & Hl) _ IH]; [reflexivity|].
  cbn [scan_categories]. run. rewrite El. run. cbn [as_list]. run. rewrite Hl. exact IH.
Qed.

(** X25. [getDuasByOccasion] returns duas of the occasion only: every dua
    in its result has the occasion asked for in its [occasion] field. When
    no category of the index lists the occasion, the result is empty and
    the call has done nothing but load the index: no category is
    requested. *)
Theorem getDuasByOccasion_returns_that_occasion occasion w :
  (forall results,
     fst (exec (getDuasByOccasion occasion) w) = Returned results ->
     Forall (for_occasion occasion) results) /\
  (forall index categories,
     fst (exec getDuasIndex w) = Returned index ->
     at_key index "categories" = Returned (JArr categories) ->
     Forall (not_listed occasion) categories ->
     exec (getDuasByOccasion occasion) w = (Returned [], snd (exec getDuasIndex w))).
Proof.
  unfold getDuasByOccasion. split.
  - intros results. rewrite exec_bind.
    destruct (exec getDuasIndex w) as [[index|e] w1]; run; [|discriminate].
    destruct (at_key index "categories") as [listed|]; run; [|discriminate].
    destruct (as_list listed) as [categories|]; run; [|discriminate].
    apply scan_categories_sound. constructor.
  - intros index categories Hi Hc Hall. rewrite exec_bind.
    destruct (exec getDuasIndex w) as [[index'|e] w1]; cbn [fst snd] in *; [|discriminate].
    injection Hi as ->. run. rewrite Hc. run. cbn [as_list]. run.
    apply scan_categories_not_listed, Hall.
Qed.

Lemma getDuasByOccasion_returns_that_occasion_witness :
  let index :=
    JObj [("categories",
           JArr [JObj [("id", JStr "daily"); ("occasions", JArr [JStr "morning"])];
                 JObj [("id", JStr "prayer"); ("occasions", JArr [JStr "prayer"])]])] in
  let w := World [("duas_index", J index)] undefined ∅ quiet (fun _ => NetFail) 0 [] [] in
  fst (exec (getDuasByOccasion "travel") w) = Returned [] /\
  Loop.requests (trace (snd (exec (getDuasByOccasion "travel") w))) = [].
Proof.
  intros index w.
  destruct (getDuasByOccasion_returns_that_occasion "travel" w) as [_ H].
  rewrite (H index _ eq_refl eq_refl).
  - split; reflexivity.
  - repeat constructor; eexists; (split; reflexivity).
Defined.

End DuasFacts.

Module FilterFacts.
Import Prog Dart ProgFacts Footprint Spec DartFacts.

#[local] Opaque Json.parse Json.stringify.

Ltac run := repeat first [rewrite exec_bind | rewrite exec_lift | progress cbv beta iota].

(** *** Maps: assignment and lookup *)

Lemma field_app_last k v l : Json.field k (l ++ [(k, v)]) = Some v.
Proof.
  induction l as [|[k' v'] l IH]; cbn [app Json.field].
  - rewrite String.eqb_refl. reflexivity.
  - rewrite IH. reflexivity.
Qed.

Lemma field_app_other k k' v l : k <> k' -> Json.field k (l ++ [(k', v)]) = Json.field k l.
Proof.
  intros Hne. induction l as [|[k0 v0] l IH]; cbn [app Json.field].
  - destruct (String.eqb_spec k k'); [contradiction | reflexivity].
  - rewrite IH. reflexivity.
Qed.

Lemma field_map_same k v l :
  Json.field k (map (fun kv => if String.eqb k (fst kv) then (fst kv, v) else kv) l)
  = match Json.field k l with Some _ => Some v | None => None end.
Proof.
  induction l as [|[k0 v0] l IH]; [reflexivity|]. cbn [map Json.field fst].
  destruct (String.eqb k k0) eqn:E.
  - cbn [Json.field]. rewrite IH, E. destruct (Json.field k l); reflexivity.
  - cbn [Json.field]. rewrite IH, E. destruct (Json.field k l); reflexivity.
Qed.

Lemma field_map_other k k' v l :
  k <> k' ->
  Json.field k (map (fun kv => if String.eqb k' (fst kv) then (fst kv, v) else kv) l)
  = Json.field k l.
Proof.
  intros Hne. induction l as [|[k0 v0] l IH]; [reflexivity|]. cbn [map Json.field fst].
  destruct (String.eqb k' k0) eqn:E; cbn [Json.field]; rewrite IH; [|reflexivity].
  apply String.eqb_eq in E. subst k0.
  destruct (Json.field k l); [reflexivity|].
  destruct (String.eqb_spec k k'); [contradiction | reflexivity].
Qed.

(** Reading a key after assigning to it. *)
Lemma field_put_key k v l : Json.field k (put_key k v l) = Some v.
Proof.
  unfold put_key. destruct (Json.field k l) eqn:E.
  - rewrite field_map_same, E. reflexivity.
  - apply field_app_last.
Qed.

(** Reading another key. *)
Lemma field_put_key_other k k' v l : k <> k' -> Json.field k (put_key k' v l) = Json.field k l.
Proof.
  intros Hne. unfold put_key. destruct (Json.field k' l).
  - apply field_map_other, Hne.
  - apply field_app_other, Hne.
Qed.

Lemma at_key_put_key k v l : at_key (JObj (put_key k v l)) k = Returned v.
Proof. cbn [at_key]. rewrite field_put_key. reflexivity. Qed.

(** The record found is the record replaced. *)
Lemma firstWhere_replace h l hadith hadith' :
  firstWhere h l = Returned (Some hadith) ->
  at_key hadith' "hadithNumber" = Returned (JNum h) ->
  firstWhere h (replace_first h hadith' l) = Returned (Some hadith').
Proof.
  intros Hf Hn. induction l as [|x l IH]; cbn [firstWhere replace_first] in *; [discriminate|].
  destruct (at_key x "hadithNumber") as [[| |z| | |]|] eqn:E; try discriminate;
    try (cbn [firstWhere]; rewrite E; apply IH, Hf).
  destruct (Z.eqb_spec z h) as [->|Hne].
  - cbn [firstWhere]. rewrite Hn, Z.eqb_refl. reflexivity.
  - cbn [firstWhere]. rewrite E. destruct (Z.eqb_spec z h); [contradiction|]. apply IH, Hf.
Qed.

Lemma firstWhere_found h l hadith :
  firstWhere h l = Returned (Some hadith) -> at_key hadith "hadithNumber" = Returned (JNum h).
Proof.
  induction l as [|x l IH]; cbn [firstWhere]; [discriminate|].
  destruct (at_key x "hadithNumber") as [[| |z| | |]|] eqn:E; try discriminate; try exact IH.
  destruct (Z.eqb_spec z h) as [->|Hne]; [|exact IH].
  intros H. injection H as <-. exact E.
Qed.

(** The filter leaves the number of the hadith alone. *)
Lemma restrict_languages_number languages hadith hadith' h :
  restrict_languages languages hadith = Returned (Some hadith') ->
  at_key hadith "hadithNumber" = Returned (JNum h) ->
  at_key hadith' "hadithNumber" = Returned (JNum h).
Proof.
  unfold restrict_languages. destruct languages as [langs|]; [|discriminate].
  destruct (at_key hadith "text") as [text|]; [|discriminate].
  destruct (at_key text "translations") as [[| | | | |]|]; try discriminate;
    destruct (filter_languages _ langs []) as [filtered|]; try discriminate;
    destruct hadith as [| | | | |hl]; try discriminate;
    destruct text as [| | | | |tl]; try discriminate;
    intros H; injection H as <-; cbn [at_key];
    rewrite field_put_key_other by discriminate; auto.
Qed.


(** *** One book *)

(** [getBook] answers with the document of the book, if the book has
    one; afterwards the document is in the cache, and the book has the
    same document as before. *)
Lemma getBook_doc c b w :
  exists o w1,
    exec (getBook c b) w = (o, w1) /\
    match book_doc w c b with
    | Some d => o = Returned d /\
                W.map_has (book_key c b) (cache w1) = true /\
                W.map_get (book_key c b) (cache w1) = J d
    | None => exists e, o = Thrown e
    end /\
    net w1 = net w /\
    (forall k, k <> book_key c b ->
       W.map_has k (cache w1) = W.map_has k (cache w) /\
       W.map_get k (cache w1) = W.map_get k (cache w)) /\
    book_doc w1 c b = book_doc w c b.
Proof.
  unfold getBook, cached_get, http_get, json_decode, book_doc.
  fold (book_key c b). fold (book_url c b).
  cbn [bind perform exec handle]. cbn [cache net W.emit].
  destruct (W.map_has (book_key c b) (cache w)) eqn:Hhas.
  - cbn [bind perform exec handle cache W.emit]. rewrite exec_lift.
    eexists _, _. split; [reflexivity|]. cbn [cache net W.emit]. rewrite Hhas.
    split; [|split; [reflexivity|split; [intros; split; reflexivity | reflexivity]]].
    destruct (W.map_get (book_key c b) (cache w)) as [|v] eqn:Hg; cbn [dyn as_map].
    + eauto.
    + destruct v; cbn [as_map]; eauto.
  - cbn [bind perform exec handle cache net W.emit].
    destruct (net w (book_url c b)) as [|status body] eqn:Hnet; cbn [bind exec].
    + eexists _, _. split; [reflexivity|]. cbn [cache net W.emit]. rewrite Hhas, Hnet.
      split; [eauto|]. split; [reflexivity|]. split; [intros; split; reflexivity | reflexivity].
    + destruct (status =? 200) eqn:Hst; cbn [bind exec].
      * destruct (Json.parse body) as [v|] eqn:Hp; cbn [bind perform exec handle].
        -- rewrite exec_lift. eexists _, _. split; [reflexivity|].
           cbn [cache net W.emit W.set_cache].
           rewrite ChapterFacts.map_has_set, LoadFacts.map_get_set. cbn [dyn].
           split; [|split; [reflexivity|split; [|reflexivity]]].
           ++ destruct v; cbn [as_map]; eauto.
           ++ intros k Hk. rewrite map_has_set_ne, map_get_set_ne by exact Hk. split; reflexivity.
        -- eexists _, _. split; [reflexivity|]. cbn [cache net W.emit]. rewrite Hhas, Hnet, Hst, Hp.
           split; [eauto|]. split; [reflexivity|]. split; [intros; split; reflexivity | reflexivity].
      * eexists _, _. split; [reflexivity|]. cbn [cache net W.emit]. rewrite Hhas, Hnet, Hst.
        split; [eauto|]. split; [reflexivity|]. split; [intros; split; reflexivity | reflexivity].
Qed.


Ltac settle :=
  unfold record_in;
  repeat match goal with
         | H : at_key _ _ = _ |- _ => rewrite H
         | H : as_list _ = _ |- _ => rewrite H
         | H : firstWhere _ _ = _ |- _ => rewrite H
         end;
  cbv beta iota.

Ltac nothing Hn Hf :=
  settle; split; [reflexivity|]; split; [exact Hn|]; split; [exact Hf|];
  split; [intros _; split; reflexivity |];
  split; [intros ? ? ?; discriminate | intros; reflexivity].


(** One turn of the loop of [getHadith], with any language filter: a
    book that yields nothing gives nothing and still yields nothing; a
    book that yields a hadith on which the filter works gives the hadith
    as the filter leaves it, and yields that from then on. *)
Lemma search_book_any c h languages b w :
  exists res w1,
    exec (try_catch (search_book c h languages b) (fun _ => Ret None)) w
      = (Returned res, w1) /\
    net w1 = net w /\
    frame_but (book_key c b) w w1 /\
    (yield w c h b = None -> res = None /\ yield w1 c h b = None) /\
    (forall hadith changed,
       yield w c h b = Some hadith ->
       restrict_languages languages hadith = Returned changed ->
       res = Some (filtered_or hadith changed) /\
       yield w1 c h b = Some (filtered_or hadith changed)) /\
    (forall hadith e,
       yield w c h b = Some hadith ->
       restrict_languages languages hadith = Thrown e -> res = None).
Proof.
  rewrite exec_try_catch. unfold search_book. rewrite exec_bind.
  destruct (getBook_doc c b w) as (o & w1 & He & Hdoc & Hn & Hf & Hstable).
  rewrite He. unfold yield.
  destruct (book_doc w c b) as [book|] eqn:Hb.
  2:{ destruct Hdoc as [e ->].
      cbn [exec]. exists None, w1. rewrite Hstable. nothing Hn Hf. }
  destruct Hdoc as (-> & Hhas & Hget).
  unfold record_in.
  destruct (at_key book "content") as [content|e] eqn:Ec; run.
  2:{ cbn [exec]. exists None, w1. rewrite Hstable. nothing Hn Hf. }
  destruct (as_list content) as [hadithList|e] eqn:El; run.
  2:{ cbn [exec]. exists None, w1. rewrite Hstable. nothing Hn Hf. }
  destruct (firstWhere h hadithList) as [[hadith|]|e] eqn:Efw; run.
  2,3:(cbn [exec]; exists None, w1; rewrite Hstable; nothing Hn Hf).
  destruct (restrict_languages languages hadith) as [[hadith'|]|e] eqn:Er; run.
  - (* the filter has changed the hadith *)
    destruct book as [| | | | |fields].
    1-5: (unfold book_doc in Hb;
          destruct (W.map_has (book_key c b) (cache w));
          [ destruct (dyn (W.map_get (book_key c b) (cache w))); discriminate
          | destruct (net w (book_url c b)); try discriminate;
            destruct (_ =? 200); try discriminate;
            destruct (Json.parse _) as [[| | | | |]|]; discriminate ]).
    cbn [bind perform exec handle]. fold (book_key c b).
    eexists _, _. split; [reflexivity|].
    cbn [net cache W.emit W.set_cache].
    split; [exact Hn|]. split.
    { intros k Hk. cbn [cache W.emit W.set_cache].
      rewrite map_has_set_ne, map_get_set_ne by exact Hk. apply Hf, Hk. }
    split; [intros; discriminate|].
    split; [|intros hadith0 e0 H0 Hch; injection H0 as <-; rewrite Er in Hch; discriminate].
    intros hadith0 changed H0 Hch. injection H0 as <-. rewrite Er in Hch. injection Hch as <-.
    split; [reflexivity|]. unfold book_doc. cbn [cache W.emit W.set_cache].
    rewrite ChapterFacts.map_has_set, LoadFacts.map_get_set. cbn [dyn as_map].
    rewrite at_key_put_key. cbn [as_list].
    rewrite (firstWhere_replace h hadithList hadith hadith' Efw); [reflexivity|].
    apply (restrict_languages_number languages hadith hadith' h Er).
    apply (firstWhere_found h hadithList hadith Efw).
  - (* the filter did not apply *)
    cbn [exec]. exists (Some hadith), w1. rewrite Hstable. settle.
    split; [reflexivity|]. split; [exact Hn|]. split; [exact Hf|].
    split; [intros; discriminate|].
    split; [|intros hadith0 e0 H0 Hch; injection H0 as <-; rewrite Er in Hch; discriminate].
    intros hadith0 changed H0 Hch. injection H0 as <-. rewrite Er in Hch. injection Hch as <-.
    split; reflexivity.
  - (* the filter has thrown *)
    cbn [exec]. exists None, w1. rewrite Hstable. settle.
    split; [reflexivity|]. split; [exact Hn|]. split; [exact Hf|].
    split; [intros; discriminate|].
    split; [|intros; reflexivity].
    intros hadith0 changed H0 Hch. injection H0 as <-. rewrite Er in Hch. discriminate.
Qed.


(** *** The scan *)

Lemma yield_same c h b w w' :
  net w' = net w ->
  W.map_has (book_key c b) (cache w') = W.map_has (book_key c b) (cache w) ->
  W.map_get (book_key c b) (cache w') = W.map_get (book_key c b) (cache w) ->
  yield w' c h b = yield w c h b.
Proof. intros Hn Hh Hg. unfold yield, book_doc. rewrite Hh, Hg, Hn. reflexivity. Qed.

Lemma first_filtered_agree c h langs w w' count b :
  agree_from c b w w' ->
  first_filtered w' c h langs count b = first_filtered w c h langs count b.
Proof.
  revert b. induction count as [|count IH]; intros b Ha; [reflexivity|].
  cbn [first_filtered]. rewrite (yield_agree c h b w w' b Ha) by lia.
  assert (Hnext : agree_from c (b + 1) w w').
  { destruct Ha as [Hn Hc]. split; [exact Hn|]. intros b' Hb'. apply Hc. lia. }
  rewrite (IH _ Hnext). reflexivity.
Qed.


Lemma scan_books_any c h langs count b w :
  exists w',
    exec (scan_books c h langs count b) w =
      (match first_filtered w c h langs count b with
       | Some r => Returned r
       | None => Thrown (hadith_not_found c h)
       end, w') /\
    net w' = net w /\
    (forall k, ~ later_book c b k ->
       W.map_has k (cache w') = W.map_has k (cache w) /\
       W.map_get k (cache w') = W.map_get k (cache w)) /\
    (forall hadith changed,
       first_match w c h count b = Some hadith ->
       restrict_languages langs hadith = Returned changed ->
       first_match w' c h count b = Some (filtered_or hadith changed)).
Proof.
  revert b w. induction count as [|count IH]; intros b w.
  - exists w. cbn [scan_books first_filtered first_match exec].
    repeat split; try reflexivity. intros; discriminate.
  - cbn [scan_books first_filtered first_match]. rewrite exec_bind.
    destruct (search_book_any c h langs b w) as (res & w1 & He & Hn & Hf & Hnone & Hsome & Hthrown).
    rewrite He. cbv beta iota.
    pose proof (agree_next c b w w1 Hn Hf) as Ha.
    assert (Hself : ~ later_book c (b + 1) (book_key c b)).
    { intros (b' & Hb' & E). apply book_key_inj in E. lia. }
    assert (Hlater : forall k, ~ later_book c b k -> ~ later_book c (b + 1) k).
    { intros k Hk (b' & Hb' & E). apply Hk. exists b'. split; [lia | exact E]. }
    assert (Hkey : forall k, ~ later_book c b k -> k <> book_key c b).
    { intros k Hk E. apply Hk. exists b. split; [lia | exact E]. }
    destruct (yield w c h b) as [hadith|] eqn:Ey.
    + destruct (restrict_languages langs hadith) as [changed|e] eqn:Er.
      * destruct (Hsome hadith changed eq_refl Er) as [-> Hy1].
        exists w1. split; [reflexivity|]. split; [exact Hn|]. split.
        { intros k Hk. apply Hf, Hkey, Hk. }
        intros hadith0 changed0 H0 Hch. injection H0 as <-.
        rewrite Er in Hch. injection Hch as <-. rewrite Hy1. reflexivity.
      * rewrite (Hthrown hadith e eq_refl Er).
        destruct (IH (b + 1) w1) as (w' & He' & Hn' & Hf' & _).
        rewrite (first_filtered_agree c h langs w w1 count (b + 1) Ha) in He'.
        exists w'. split; [exact He'|]. split; [congruence|]. split.
        { intros k Hk. destruct (Hf' k (Hlater k Hk)) as [-> ->]. apply Hf, Hkey, Hk. }
        intros hadith0 changed0 H0 Hch. injection H0 as <-. congruence.
    + destruct (Hnone eq_refl) as [-> Hy1].
      destruct (IH (b + 1) w1) as (w' & He' & Hn' & Hf' & Hm').
      rewrite (first_filtered_agree c h langs w w1 count (b + 1) Ha) in He'.
      exists w'. split; [exact He'|]. split; [congruence|]. split.
      { intros k Hk. destruct (Hf' k (Hlater k Hk)) as [-> ->]. apply Hf, Hkey, Hk. }
      intros hadith0 changed0 H0 Hch.
      destruct (Hf' _ Hself) as [Hh Hg].
      rewrite (yield_same c h b w1 w' Hn' Hh Hg), Hy1.
      apply Hm'; [|exact Hch].
      rewrite (first_match_agree c h w w1 count (b + 1) Ha). exact H0.
Qed.


(** *** The filter *)

Lemma at_key_put_key_other k k' v l :
  k <> k' -> at_key (JObj (put_key k' v l)) k = at_key (JObj l) k.
Proof. intros Hne. cbn [at_key]. rewrite field_put_key_other by exact Hne. reflexivity. Qed.

Lemma at_key_object l k : exists v, at_key (JObj l) k = Returned v.
Proof. cbn [at_key]. destruct (Json.field k l); eauto. Qed.

(** What the loop over [languages] collects: for a language of the
    list, the translation of the hadith if it has one. *)
Lemma filter_languages_spec trs langs acc :
  exists f,
    filter_languages (JObj trs) langs acc = Returned f /\
    forall k, at_key (JObj f) k =
              if bool_decide (k ∈ langs)
              then if_null (at_key (JObj trs) k) (at_key (JObj acc) k)
              else at_key (JObj acc) k.
Proof.
  revert acc. induction langs as [|lang rest IH]; intros acc.
  - exists acc. split; [reflexivity|]. intros k. reflexivity.
  - cbn [filter_languages].
    assert (Hmem : forall k, k <> lang ->
               bool_decide (k ∈ lang :: rest) = bool_decide (k ∈ rest)).
    { intros k Hne. apply bool_decide_ext. rewrite elem_of_cons. tauto. }
    assert (Hhead : bool_decide (lang ∈ lang :: rest) = true).
    { apply bool_decide_eq_true_2, elem_of_cons. left. reflexivity. }
    destruct (at_key_object trs lang) as [t Et]. rewrite Et.
    assert (Hput : forall t, if_null (Returned t) (at_key (JObj acc) lang) = Returned t \/ t = JNull).
    { intros [| | | | |]; cbn [if_null]; auto. }
    assert (Hkeep : t <> JNull ->
              exists f, filter_languages (JObj trs) rest (put_key lang t acc) = Returned f /\
                forall k, at_key (JObj f) k =
                  if bool_decide (k ∈ lang :: rest)
                  then if_null (at_key (JObj trs) k) (at_key (JObj acc) k)
                  else at_key (JObj acc) k).
    { intros Hnn. destruct (IH (put_key lang t acc)) as (f & Hf & Hk).
      exists f. split; [exact Hf|]. intros k. rewrite (Hk k).
      destruct (decide (k = lang)) as [->|Hne].
      - rewrite Hhead, Et, at_key_put_key.
        destruct (Hput t) as [Ht|Ht]; [|contradiction]. rewrite Ht.
        destruct (bool_decide (lang ∈ rest)); [|reflexivity].
        destruct t; cbn [if_null]; try reflexivity; contradiction.
      - rewrite (Hmem k Hne), at_key_put_key_other by exact Hne. reflexivity. }
    destruct t; try (apply Hkeep; discriminate).
    destruct (IH acc) as (f & Hf & Hk). exists f. split; [exact Hf|].
    intros k. rewrite (Hk k).
    destruct (decide (k = lang)) as [->|Hne].
    + rewrite Hhead, Et. cbn [if_null].
      destruct (bool_decide (lang ∈ rest)); reflexivity.
    + rewrite (Hmem k Hne). reflexivity.
Qed.

(** The filter on a hadith whose text has a map of translations. *)
Lemma restrict_languages_objects langs hadith text trs :
  at_key hadith "text" = Returned (JObj text) ->
  at_key (JObj text) "translations" = Returned (JObj trs) ->
  exists fields filtered,
    hadith = JObj fields /\
    restrict_languages (Some langs) hadith =
      Returned (Some (JObj (put_key "text"
                              (JObj (put_key "translations" (JObj filtered) text)) fields))) /\
    forall lang, at_key (JObj filtered) lang =
                 if bool_decide (lang ∈ langs) then at_key (JObj trs) lang else Returned JNull.
Proof.
  intros Ht Htr. destruct hadith as [| | | | |fields]; try discriminate.
  destruct (filter_languages_spec trs langs []) as (f & Hf & Hk).
  exists fields, f. split; [reflexivity|]. split.
  - unfold restrict_languages. rewrite Ht, Htr, Hf. reflexivity.
  - intros lang. rewrite (Hk lang). destruct (bool_decide (lang ∈ langs)); [|reflexivity].
    destruct (at_key_object trs lang) as [t ->]. destruct t; reflexivity.
Qed.

(** *** The whole call *)

Lemma cached_get_kept key url failure w d :
  fst (exec (cached_get key url failure) w) = Returned d ->
  W.map_has key (cache (snd (exec (cached_get key url failure) w))) = true /\
  W.map_get key (cache (snd (exec (cached_get key url failure) w))) = J d /\
  as_map d = Returned d.
Proof.
  destruct (W.map_has key (cache w)) eqn:Hhas.
  - rewrite AccessorFacts.cached_get_hit by exact Hhas. cbn [fst snd cache W.emit].
    intros H. split; [exact Hhas|].
    destruct (W.map_get key (cache w)) as [|v]; cbn [dyn] in H; [discriminate|].
    destruct v; try discriminate. injection H as <-. split; reflexivity.
  - unfold cached_get, http_get, json_decode.
    cbn [bind perform exec handle]. rewrite Hhas.
    cbn [bind perform exec handle net W.emit].
    destruct (net w url) as [|status body]; cbn [bind exec fst]; [discriminate|].
    destruct (status =? 200); cbn [bind exec fst]; [|discriminate].
    destruct (Json.parse body) as [v|]; cbn [bind perform exec handle fst]; [|discriminate].
    rewrite exec_lift. cbn [fst snd cache W.emit W.set_cache].
    rewrite ChapterFacts.map_has_set, LoadFacts.map_get_set.
    intros H. destruct v; try discriminate. injection H as <-. repeat split; reflexivity.
Qed.

Lemma first_filtered_of_first_match w c h langs count b hadith changed :
  first_match w c h count b = Some hadith ->
  restrict_languages langs hadith = Returned changed ->
  first_filtered w c h langs count b = Some (filtered_or hadith changed).
Proof.
  revert b. induction count as [|count IH]; intros b Hm Hr; [discriminate|].
  cbn [first_match first_filtered] in *.
  destruct (yield w c h b) as [found|].
  - injection Hm as ->. rewrite Hr. reflexivity.
  - apply IH; assumption.
Qed.

Lemma first_filtered_none w c h langs count b :
  (forall j hadith, b <= j < b + Z.of_nat count -> yield w c h j = Some hadith ->
     exists e, restrict_languages langs hadith = Thrown e) ->
  first_filtered w c h langs count b = None.
Proof.
  revert b. induction count as [|count IH]; intros b H; [reflexivity|].
  cbn [first_filtered].
  assert (Hrest : first_filtered w c h langs count (b + 1) = None).
  { apply IH. intros j hadith Hj. apply H. lia. }
  destruct (yield w c h b) as [hadith|] eqn:Ey; [|exact Hrest].
  destruct (H b hadith ltac:(lia) Ey) as [e ->]. exact Hrest.
Qed.

Lemma not_later_collection c : ~ later_book c 1 (collection_key c).
Proof. intros (b & _ & E). symmetry in E. exact (collection_key_not_book c b E). Qed.

(** [getHadith] with any language filter, once the collection document
    is there: the call follows the scan with the filter, and where the
    filter works on the hadith that the plain scan finds, a later call
    without a filter returns the hadith as the filter has left it. *)
Lemma getHadith_any c h langs w coll n :
  fst (exec (getCollection c) w) = Returned coll ->
  totalBooks coll = Returned n ->
  exists w',
    exec (getHadith c h langs) w =
      (match first_filtered w c h langs (Z.to_nat n) 1 with
       | Some r => Returned r
       | None => Thrown (hadith_not_found c h)
       end, w') /\
    (forall hadith changed,
       first_match w c h (Z.to_nat n) 1 = Some hadith ->
       restrict_languages langs hadith = Returned changed ->
       fst (exec (getHadith c h None) w') = Returned (filtered_or hadith changed)).
Proof.
  intros Hcoll Htotal. unfold getHadith. rewrite exec_bind.
  destruct (getCollection_frame c w) as (Hn & Hc & _).
  destruct (cached_get_kept _ _ _ w coll Hcoll) as (Hhas & Hget & Hmap).
  fold (getCollection c) in Hhas, Hget.
  destruct (exec (getCollection c) w) as [o w0]. cbn [fst snd] in *. subst o.
  rewrite exec_bind, exec_lift, Htotal.
  destruct (scan_books_any c h langs (Z.to_nat n) 1 w0) as (w' & He & Hn' & Hf' & Hm').
  rewrite He.
  assert (Ha : agree_from c 1 w w0).
  { split; [exact Hn|]. intros b _. apply Hc, collection_key_not_book. }
  rewrite (first_filtered_agree c h langs w w0 _ 1 Ha).
  exists w'. split; [reflexivity|].
  intros hadith changed Hfm Hch.
  rewrite <- (first_match_agree c h w w0 _ 1 Ha) in Hfm.
  pose proof (Hm' hadith changed Hfm Hch) as Hfound.
  destruct (Hf' _ (not_later_collection c)) as [Hh Hg].
  fold (collection_key c) in Hhas, Hget.
  rewrite Hhas in Hh. rewrite Hget in Hg.
  rewrite exec_bind. unfold getCollection. fold (collection_key c).
  rewrite AccessorFacts.cached_get_hit by exact Hh.
  rewrite Hg. cbn [dyn]. rewrite Hmap, exec_bind, exec_lift, Htotal.
  match goal with
  | |- context [exec _ ?w2] =>
      destruct (scan_books_exec c h (Z.to_nat n) 1 w2) as (w3 & He3 & _);
      rewrite He3;
      rewrite (first_match_agree c h w' w2 _ 1)
        by (split; [reflexivity | intros; split; reflexivity])
  end.
  rewrite Hfound. reflexivity.
Qed.


(** X26. With a list of languages, [getHadith] returns the hadith that the
    scan of the books finds first, with the translations cut down to the
    list: reading a language of the list from the returned translations
    gives what the hadith had for it, reading any other language gives
    null, and every other part of the hadith and of its text is as it
    was. (The hadith must have a text with a map of translations.) *)
Theorem getHadith_keeps_requested_translations c h w coll n langs hadith text trs :
  fst (exec (getCollection c) w) = Returned coll ->
  totalBooks coll = Returned n ->
  first_match w c h (Z.to_nat n) 1 = Some hadith ->
  at_key hadith "text" = Returned (JObj text) ->
  at_key (JObj text) "translations" = Returned (JObj trs) ->
  exists result text' trs',
    fst (exec (getHadith c h (Some langs)) w) = Returned result /\
    at_key result "text" = Returned (JObj text') /\
    at_key (JObj text') "translations" = Returned (JObj trs') /\
    (forall lang, at_key (JObj trs') lang =
                  if bool_decide (lang ∈ langs) then at_key (JObj trs) lang
                  else Returned JNull) /\
    (forall k, k <> "text" -> at_key result k = at_key hadith k) /\
    (forall k, k <> "translations" -> at_key (JObj text') k = at_key (JObj text) k).
Proof.
  intros Hcoll Htotal Hfm Ht Htr.
  destruct (restrict_languages_objects langs hadith text trs Ht Htr)
    as (fields & filtered & -> & Hr & Hk).
  destruct (getHadith_any c h (Some langs) w coll n Hcoll Htotal) as (w' & He & _).
  rewrite (first_filtered_of_first_match _ _ _ _ _ _ _ _ Hfm Hr) in He.
  rewrite He. cbn [fst filtered_or].
  eexists _, _, filtered. split; [reflexivity|].
  split; [apply at_key_put_key|]. split; [apply at_key_put_key|].
  split; [exact Hk|]. split.
  - intros k Hne. apply at_key_put_key_other, Hne.
  - intros k Hne. apply at_key_put_key_other, Hne.
Qed.

Lemma getHadith_keeps_requested_translations_witness :
  exists result text' trs',
    fst (exec (getHadith "bukhari" 7 (Some ["en"; "fr"])) translated_world)
      = Returned result /\
    at_key result "text" = Returned (JObj text') /\
    at_key (JObj text') "translations" = Returned (JObj trs') /\
    (forall lang, at_key (JObj trs') lang =
                  if bool_decide (lang ∈ ["en"; "fr"])
                  then at_key (JObj [("en", JStr "e"); ("ur", JStr "u")]) lang
                  else Returned JNull) /\
    (forall k, k <> "text" ->
       at_key result k =
       at_key (JObj [("hadithNumber", JNum 7);
                     ("text", JObj [("arabic", JStr "a");
                                    ("translations",
                                     JObj [("en", JStr "e"); ("ur", JStr "u")])])]) k) /\
    (forall k, k <> "translations" ->
       at_key (JObj text') k =
       at_key (JObj [("arabic", JStr "a");
                     ("translations", JObj [("en", JStr "e"); ("ur", JStr "u")])]) k).
Proof.
  assert (Hc : fst (exec (getCollection "bukhari") translated_world)
               = Returned (JObj [("totalBooks", JNum 2)])) by (vm_compute; reflexivity).
  assert (Ht : totalBooks (JObj [("totalBooks", JNum 2)]) = Returned 2) by reflexivity.
  assert (Hm : first_match translated_world "bukhari" 7 (Z.to_nat 2) 1
               = Some (JObj [("hadithNumber", JNum 7);
                             ("text", JObj [("arabic", JStr "a");
                                            ("translations",
                                             JObj [("en", JStr "e"); ("ur", JStr "u")])])]))
    by (vm_compute; reflexivity).
  exact (getHadith_keeps_requested_translations "bukhari" 7 translated_world _ 2
           ["en"; "fr"] _ _ _ Hc Ht Hm eq_refl eq_refl).
Defined.

(** X27. The language filter changes the cached book: after a call with a
    list of languages, a call for the same hadith without a list returns
    the hadith as the first call has left it, and that is not the hadith
    as it was loaded if a translation outside the list has been dropped. *)
Theorem getHadith_filter_changes_the_cached_book c h w coll n langs hadith text trs :
  fst (exec (getCollection c) w) = Returned coll ->
  totalBooks coll = Returned n ->
  first_match w c h (Z.to_nat n) 1 = Some hadith ->
  at_key hadith "text" = Returned (JObj text) ->
  at_key (JObj text) "translations" = Returned (JObj trs) ->
  let r := exec (getHadith c h (Some langs)) w in
  exists result,
    fst r = Returned result /\
    fst (exec (getHadith c h None) (snd r)) = Returned result /\
    (forall lang, lang ∉ langs -> at_key (JObj trs) lang <> Returned JNull ->
       result <> hadith).
Proof.
  intros Hcoll Htotal Hfm Ht Htr r. subst r.
  destruct (restrict_languages_objects langs hadith text trs Ht Htr)
    as (fields & filtered & -> & Hr & Hk).
  destruct (getHadith_any c h (Some langs) w coll n Hcoll Htotal) as (w' & He & Hnext).
  rewrite (first_filtered_of_first_match _ _ _ _ _ _ _ _ Hfm Hr) in He.
  rewrite He. cbn [fst snd filtered_or].
  eexists. split; [reflexivity|]. split.
  - exact (Hnext _ _ Hfm Hr).
  - intros lang Hout Hhas Heq.
    assert (Htext : at_key (JObj (put_key "text"
                             (JObj (put_key "translations" (JObj filtered) text)) fields)) "text"
                    = Returned (JObj text)) by (rewrite Heq; exact Ht).
    rewrite at_key_put_key in Htext. injection Htext as Htext.
    assert (Htrs : at_key (JObj (put_key "translations" (JObj filtered) text)) "translations"
                   = Returned (JObj trs)) by (rewrite Htext; exact Htr).
    rewrite at_key_put_key in Htrs. injection Htrs as ->.
    specialize (Hk lang). rewrite bool_decide_eq_false_2 in Hk by exact Hout.
    contradiction.
Qed.

Lemma getHadith_filter_changes_the_cached_book_witness :
  let r := exec (getHadith "bukhari" 7 (Some ["en"])) translated_world in
  exists result,
    fst r = Returned result /\
    fst (exec (getHadith "bukhari" 7 None) (snd r)) = Returned result /\
    (forall lang, lang ∉ ["en"] ->
       at_key (JObj [("en", JStr "e"); ("ur", JStr "u")]) lang <> Returned JNull ->
       result <> JObj [("hadithNumber", JNum 7);
                       ("text", JObj [("arabic", JStr "a");
                                      ("translations",
                                       JObj [("en", JStr "e"); ("ur", JStr "u")])])]).
Proof.
  assert (Hc : fst (exec (getCollection "bukhari") translated_world)
               = Returned (JObj [("totalBooks", JNum 2)])) by (vm_compute; reflexivity).
  assert (Ht : totalBooks (JObj [("totalBooks", JNum 2)]) = Returned 2) by reflexivity.
  assert (Hm : first_match translated_world "bukhari" 7 (Z.to_nat 2) 1
               = Some (JObj [("hadithNumber", JNum 7);
                             ("text", JObj [("arabic", JStr "a");
                                            ("translations",
                                             JObj [("en", JStr "e"); ("ur", JStr "u")])])]))
    by (vm_compute; reflexivity).
  exact (getHadith_filter_changes_the_cached_book "bukhari" 7 translated_world _ 2
           ["en"] _ _ _ Hc Ht Hm eq_refl eq_refl).
Defined.

(** X28. With a list of languages, a hadith without a text is not found:
    reading its translations throws inside the [try] block, the loop goes
    on to the next book, and when every book that has the hadith has it
    without a text the call ends with the not-found exception. *)
Theorem getHadith_with_languages_needs_a_text c h w coll n langs :
  fst (exec (getCollection c) w) = Returned coll ->
  totalBooks coll = Returned n ->
  (forall j hadith, 1 <= j <= n -> yield w c h j = Some hadith ->
     at_key hadith "text" = Returned JNull) ->
  fst (exec (getHadith c h (Some langs)) w) = Thrown (hadith_not_found c h).
Proof.
  intros Hcoll Htotal Hall.
  destruct (getHadith_any c h (Some langs) w coll n Hcoll Htotal) as (w' & He & _).
  rewrite He. cbn [fst].
  rewrite first_filtered_none; [reflexivity|].
  intros j hadith Hj Hy. unfold restrict_languages.
  rewrite (Hall j hadith ltac:(lia) Hy). cbn [at_key]. eauto.
Qed.

Lemma getHadith_with_languages_needs_a_text_witness :
  fst (exec (getHadith "bukhari" 9 (Some ["en"])) translated_world)
    = Thrown (hadith_not_found "bukhari" 9) /\
  fst (exec (getHadith "bukhari" 9 None) translated_world)
    = Returned (JObj [("hadithNumber", JNum 9)]).
Proof.
  assert (Hc : fst (exec (getCollection "bukhari") translated_world)
               = Returned (JObj [("totalBooks", JNum 2)])) by (vm_compute; reflexivity).
  assert (Ht : totalBooks (JObj [("totalBooks", JNum 2)]) = Returned 2) by reflexivity.
  assert (Hall : forall j hadith, 1 <= j <= 2 ->
            yield translated_world "bukhari" 9 j = Some hadith ->
            at_key hadith "text" = Returned JNull).
  { intros j hadith Hj. assert (Hcases : j = 1 \/ j = 2) by lia.
    destruct Hcases as [-> | ->].
    - assert (Hy : yield translated_world "bukhari" 9 1 = None) by (vm_compute; reflexivity).
      rewrite Hy. discriminate.
    - assert (Hy : yield translated_world "bukhari" 9 2
                   = Some (JObj [("hadithNumber", JNum 9)])) by (vm_compute; reflexivity).
      rewrite Hy. intros H. injection H as <-. reflexivity. }
  split.
  - exact (getHadith_with_languages_needs_a_text "bukhari" 9 translated_world _ 2 ["en"]
             Hc Ht Hall).
  - vm_compute. reflexivity.
Defined.

End FilterFacts.
